(** * clif: configuration discovery, merge walk and change notification

    A shallow embedding of the Go package [clif] together with the
    properties of its specification: [InitConfig], [walkStructure], the
    watcher and the notification registry of configuration.go, the coercion
    helpers [toInt], [toBool], [toString], and the section decoders
    [newLoggerConfiguration] and [newConsoleConfiguration].  Of the two
    revisions of configuration.go in the repository, the one modelled is the
    one with the file decoding and the [ErrNonExportedCoreConfig] error.

    Conventions of the embedding:
    - a Go [(T, error)] result is a pair whose second component is
      [option error] ([None] is Go's [nil] error);
    - a Go [map[string]interface{}] that is ranged over is the list of its
      entries in the order the iteration visits them; Go leaves that order
      unspecified, so statements quantify over every list with distinct keys;
    - the registry map [notifyFuncs] is a [gmap], visited in any order that
      is a permutation of its entries;
    - values seen through [reflect] are trees ([gval]) described by type
      descriptors ([gtype]); a pointer owns its pointee (no aliasing inside
      the settings graph, no cyclic graphs), and a type descriptor is a
      finite tree (a struct type that contains a pointer to itself, on
      which the walker never ends, has none);
    - a run-time panic is an explicit outcome;
    - what the package takes from the operating system and from libraries
      (the current user, files, the environment, the JSON and YAML
      decoders, the Unicode case mapping) is a parameter, collected in the
      record [OS]; what a statement needs of a library decoder is stated as
      its contract. *)

From Stdlib Require Import ZArith Lia.
From stdpp Require Import base list strings gmap fin_maps.

Set Warnings "-register-all".
Local Open Scope Z_scope.

(** ** Dynamic values: what a decoder stores in an [interface{}] *)

(** A float64: a finite dyadic number [m * 2^e], an infinity or a NaN. *)
Inductive float64 : Type :=
| F64 (m e : Z)
| F64Inf (neg : bool)
| F64NaN.

Definition minInt64 : Z := - 2 ^ 63.
Definition maxInt64 : Z := 2 ^ 63 - 1.

(** Go's conversion [int(f)] on a 64-bit platform: the fraction is dropped
    (truncation towards zero).  For a value outside the range of [int] the
    language leaves the result to the implementation; the model returns what
    amd64 produces, the smallest int64. *)
Definition float64_to_int (f : float64) : Z :=
  match f with
  | F64 m e =>
      let q := if 0 <=? e then m * 2 ^ e else Z.quot m (2 ^ (- e)) in
      if (minInt64 <=? q) && (q <=? maxInt64) then q else minInt64
  | F64Inf _ => minInt64
  | F64NaN => minInt64
  end.

(** The dynamic type and value held by an [interface{}]. [DOther] stands for
    a value of any further type (int64, time.Time, ...), named by its type. *)
Inductive dyn : Type :=
| DNil
| DBool (b : bool)
| DInt (i : Z)
| DFloat64 (f : float64)
| DString (s : string)
| DSlice (l : list dyn)
| DMap (m : list (string * dyn))
| DOther (tname : string).

(** ** Type descriptors ([reflect.Type]) and reflected values *)

Inductive Kind : Type :=
| KBool | KInt | KFloat64 | KString | KMap | KSlice | KInterface | KFunc
| KStruct | KPointer | KInvalid.

Definition Kind_eqb (a b : Kind) : bool :=
  match a, b with
  | KBool, KBool | KInt, KInt | KFloat64, KFloat64 | KString, KString
  | KMap, KMap | KSlice, KSlice | KInterface, KInterface | KFunc, KFunc
  | KStruct, KStruct | KPointer, KPointer | KInvalid, KInvalid => true
  | _, _ => false
  end.

(** [reflect.StructField], over the representation [T] of its type. The
    field is exported when [PkgPath] is empty. *)
Record StructField_ (T : Type) : Type := mkField {
  Name : string;
  PkgPath : string;
  Anonymous : bool;
  FType : T
}.
Arguments mkField {T} _ _ _ _.
Arguments Name {T} _.
Arguments PkgPath {T} _.
Arguments Anonymous {T} _.
Arguments FType {T} _.

(** A type is a basic type (any kind other than struct and pointer) with the
    name [String()] prints, a named struct with its fields in declaration
    order, or a pointer. *)
Inductive gtype : Type :=
| TBasic (k : Kind) (name : string)
| TStruct (name : string) (fields : list (StructField_ gtype))
| TPtr (elem : gtype).

Abbreviation StructField := (StructField_ gtype).

Definition IsExported (ft : StructField) : bool := String.eqb (PkgPath ft) "".

Definition TKind (t : gtype) : Kind :=
  match t with
  | TBasic k _ => k
  | TStruct _ _ => KStruct
  | TPtr _ => KPointer
  end.

Fixpoint type_String (t : gtype) : string :=
  match t with
  | TBasic _ name => name
  | TStruct name _ => name
  | TPtr elem => "*" +:+ type_String elem
  end.

(** Identity of two type descriptors. *)
Fixpoint gtype_eqb (a b : gtype) : bool :=
  match a, b with
  | TBasic k n, TBasic k' n' => Kind_eqb k k' && String.eqb n n'
  | TStruct n fs, TStruct n' fs' =>
      String.eqb n n' &&
      (fix fields_eqb (l l' : list StructField) : bool :=
         match l, l' with
         | [], [] => true
         | f :: r, f' :: r' =>
             String.eqb (Name f) (Name f') && String.eqb (PkgPath f) (PkgPath f')
             && Bool.eqb (Anonymous f) (Anonymous f')
             && gtype_eqb (FType f) (FType f') && fields_eqb r r'
         | _, _ => false
         end) fs fs'
  | TPtr e, TPtr e' => gtype_eqb e e'
  | _, _ => false
  end.

(** A reflected value: a leaf holding a dynamic value, a struct with the
    values of its fields in declaration order, or a pointer that is nil
    ([None]) or points to a value. *)
Inductive gval : Type :=
| VLeaf (d : dyn)
| VStruct (fs : list gval)
| VPtr (target : option gval).

(** The zero value of a type ([reflect.Zero], and the pointee of
    [reflect.New]). *)
Fixpoint zero (t : gtype) : gval :=
  match t with
  | TBasic KBool _ => VLeaf (DBool false)
  | TBasic KInt _ => VLeaf (DInt 0)
  | TBasic KFloat64 _ => VLeaf (DFloat64 (F64 0 0))
  | TBasic KString _ => VLeaf (DString "")
  | TBasic _ _ => VLeaf DNil
  | TStruct _ fields => VStruct (map (fun f => zero (FType f)) fields)
  | TPtr _ => VPtr None
  end.

(** ** Errors *)

Inductive error : Type :=
| errorString (s : string)
| wrapError (msg : string) (unwrap : error)
| InvalidInitConfigError (Code : string) (err : option error) (Type_ : option gtype).

Definition ErrMissingCoreConfig : string := "CC01".
Definition ErrAnonymousCoreConfig : string := "CC02".
Definition ErrUnmarshalCoreConfig : string := "CC03".
Definition ErrUnmarshalLoggerData : string := "CC03LC01".
Definition ErrUnmarshalConsoleData : string := "CC03CC01".
Definition ErrFileReadCoreConfig : string := "CC04".
Definition ErrNonExportedCoreConfig : string := "CC05".

Definition ErrLoggerUnmarshalType : error := errorString "logger error - invalid type".
Definition ErrConsoleUnmarshalType : error := errorString "console error - invalid type".

(** ** The core configuration types, as [reflect] sees them *)

Definition clifPkg : string := "github.com/jfigge/clif".

(** [sync.Mutex], [sync.WaitGroup] and [fsnotify.Watcher] belong to other
    packages; only their names are recorded.  Every field that holds one is
    unexported, so no walk looks inside. *)
Definition mutexType : gtype := TStruct "sync.Mutex" [].
Definition waitGroupType : gtype := TStruct "sync.WaitGroup" [].
Definition watcherType : gtype := TStruct "fsnotify.Watcher" [].

Definition configurationDataType : gtype :=
  TStruct "clif.configurationData"
    [ mkField "lock" clifPkg false mutexType;
      mkField "notifyFuncs" clifPkg false
        (TBasic KMap "map[string][]clif.ConfigurationNotifyFunc") ].

Definition configurationMetadataType : gtype :=
  TStruct "clif.configurationMetadata"
    [ mkField "appName" clifPkg false (TBasic KString "string");
      mkField "configFile" clifPkg false (TBasic KString "string");
      mkField "homeDir" clifPkg false (TBasic KString "string");
      mkField "configDir" clifPkg false (TBasic KString "string");
      mkField "load" clifPkg false (TBasic KBool "bool");
      mkField "watch" clifPkg false (TBasic KBool "bool");
      mkField "wg" clifPkg false (TPtr waitGroupType);
      mkField "watcher" clifPkg false (TPtr watcherType) ].

Definition loggerConfigurationDataType : gtype :=
  TStruct "clif.loggerConfigurationData"
    [ mkField "level" clifPkg false (TBasic KString "string");
      mkField "colorized" clifPkg false (TBasic KBool "bool") ].

Definition LoggerConfigurationType : gtype :=
  TStruct "clif.LoggerConfiguration"
    [ mkField "loggerConfigurationData" clifPkg true (TPtr loggerConfigurationDataType) ].

Definition consoleConfigurationDataType : gtype :=
  TStruct "clif.consoleConfigurationData"
    [ mkField "width" clifPkg false (TBasic KInt "int");
      mkField "height" clifPkg false (TBasic KInt "int") ].

Definition ConsoleConfigurationType : gtype :=
  TStruct "clif.ConsoleConfiguration"
    [ mkField "consoleConfigurationData" clifPkg true (TPtr consoleConfigurationDataType) ].

Definition configurationType : gtype :=
  TStruct "clif.Configuration"
    [ mkField "configurationData" clifPkg true (TPtr configurationDataType);
      mkField "Metadata" "" false (TPtr configurationMetadataType);
      mkField "Logger" "" false (TPtr LoggerConfigurationType);
      mkField "Console" "" false (TPtr ConsoleConfigurationType) ].

Definition configurationTypePtr : gtype := TPtr configurationType.

(** [v.CanConvert(t)] for the two targets the package asks about, a struct
    type and the pointer to it.  A value converts when its type and the
    target have identical underlying types (for structs: the same fields,
    whatever the names of the two types), or when both are pointers to
    types with identical underlying types. *)
Definition CanConvert (vt target : gtype) : bool :=
  match vt, target with
  | TStruct _ fields, TStruct name' fields' =>
      gtype_eqb (TStruct name' fields) (TStruct name' fields')
  | TPtr (TStruct _ fields), TPtr (TStruct name' fields') =>
      gtype_eqb (TStruct name' fields) (TStruct name' fields')
  | _, _ => gtype_eqb vt target
  end.

(** [field.Set(x)] needs the type of [x] to be assignable to the type of
    the field; for a pointer to a named struct that is identity of the two
    types. *)
Definition assignable (xt fieldType : gtype) : bool := gtype_eqb xt fieldType.

(** ** [InvalidInitConfigError.Error] *)

Definition isUnmarshalCode (code : string) : bool :=
  String.eqb code ErrUnmarshalCoreConfig || String.eqb code ErrUnmarshalLoggerData
  || String.eqb code ErrUnmarshalConsoleData || String.eqb code ErrFileReadCoreConfig.

Fixpoint Error (e : error) : string :=
  match e with
  | errorString s => s
  | wrapError msg _ => msg
  | InvalidInitConfigError code err ty =>
      if String.eqb code ErrMissingCoreConfig then
        "configuration error - InitConfig(core configuration not present)"
      else if String.eqb code ErrAnonymousCoreConfig then
        "configuration error - InitConfig(core configuration is anonymous)"
      else if String.eqb code ErrNonExportedCoreConfig then
        "configuration error - InitConfig(core configuration is unexported)"
      else if isUnmarshalCode code then
        "configuration error - " +:+
          match err with Some e' => Error e' | None => "<nil>" end
      else
        match ty with
        | None => "configuration error - InitConfig(nil)"
        | Some t =>
            if gtype_eqb t configurationType then
              "configuration error - InitConfig(non-pointer of embedded " +:+ type_String t +:+ ")"
            else if negb (Kind_eqb (TKind t) KPointer) then
              "configuration error - InitConfig(non-pointer " +:+ type_String t +:+ ")"
            else
              "configuration error - InitConfig(nil " +:+ type_String t +:+ ")"
        end
  end.

(** [fmt.Errorf("%w: %s", w, err)]: the text of both, and [w] as the error
    that [errors.Unwrap] returns. *)
Definition Errorf_w_s (w err : error) : error :=
  wrapError (Error w +:+ ": " +:+ Error err) w.

(** [errors.Is(e, target)] for string-comparable targets: walk the chain of
    wrapped errors. *)
Fixpoint errors_Is (e : error) (target : string) : bool :=
  match e with
  | errorString s => String.eqb s target
  | wrapError _ inner => errors_Is inner target
  | InvalidInitConfigError _ _ _ => false
  end.

(** ** Type coercion library *)

Definition toInt (key : string) (value : dyn) : Z * option error :=
  match value with
  | DInt i => (i, None)
  | DFloat64 f => (float64_to_int f, None)
  | _ => (0, Some (errorString ("invalid data type - " +:+ key +:+ " != " +:+ "int")))
  end.

Definition toBool (key : string) (value : dyn) : bool * option error :=
  match value with
  | DBool b => (b, None)
  | _ => (false, Some (errorString ("invalid data type - " +:+ key +:+ " != " +:+ "int")))
  end.

Definition toString (key : string) (value : dyn) : string * option error :=
  match value with
  | DString s => (s, None)
  | _ => ("", Some (errorString ("invalid data type - " +:+ key +:+ " != " +:+ "int")))
  end.

(** ** Section decoders *)

Record loggerConfigurationData : Type := mkLoggerData {
  level : string;
  colorized : bool
}.

Record LoggerConfiguration : Type := mkLogger {
  loggerData : option loggerConfigurationData
}.

Record consoleConfigurationData : Type := mkConsoleData {
  width : Z;
  height : Z
}.

Record ConsoleConfiguration : Type := mkConsole {
  consoleData : option consoleConfigurationData
}.

(** The loop of [newLoggerConfiguration] over the entries still to visit;
    [c] is the data record allocated before the loop. *)
Fixpoint newLoggerConfiguration_range (values : list (string * dyn))
    (c : loggerConfigurationData) : option LoggerConfiguration * option error :=
  match values with
  | [] => (Some (mkLogger (Some c)), None)
  | (key, value) :: rest =>
      if String.eqb key "level" then
        match toString key value with
        | (_, Some err) => (None, Some (Errorf_w_s ErrLoggerUnmarshalType err))
        | (lv, None) => newLoggerConfiguration_range rest (mkLoggerData lv (colorized c))
        end
      else if String.eqb key "colorized" then
        match toBool key value with
        | (_, Some err) => (None, Some (Errorf_w_s ErrLoggerUnmarshalType err))
        | (cz, None) => newLoggerConfiguration_range rest (mkLoggerData (level c) cz)
        end
      else newLoggerConfiguration_range rest c
  end.

Definition newLoggerConfiguration (values : list (string * dyn))
    : option LoggerConfiguration * option error :=
  newLoggerConfiguration_range values (mkLoggerData "" false).

Fixpoint newConsoleConfiguration_range (values : list (string * dyn))
    (c : consoleConfigurationData) : option ConsoleConfiguration * option error :=
  match values with
  | [] => (Some (mkConsole (Some c)), None)
  | (key, value) :: rest =>
      if String.eqb key "width" then
        match toInt key value with
        | (_, Some err) => (None, Some (Errorf_w_s ErrConsoleUnmarshalType err))
        | (w, None) => newConsoleConfiguration_range rest (mkConsoleData w (height c))
        end
      else if String.eqb key "height" then
        match toInt key value with
        | (_, Some err) => (None, Some (Errorf_w_s ErrConsoleUnmarshalType err))
        | (h, None) => newConsoleConfiguration_range rest (mkConsoleData (width c) h)
        end
      else newConsoleConfiguration_range rest c
  end.

Definition newConsoleConfiguration (values : list (string * dyn))
    : option ConsoleConfiguration * option error :=
  newConsoleConfiguration_range values (mkConsoleData 0 0).

(** ** Observable steps

    The order in which the package touches the outside world and its own
    shared state is recorded as a list of events. *)

Inductive event : Type :=
| EvLock                                   (* c.lock.Lock() *)
| EvUnlock                                 (* c.lock.Unlock() *)
| EvMapRead (setting : string)             (* notifyFuncs[setting] *)
| EvMapWrite (setting : string)            (* notifyFuncs[setting] = ... *)
| EvMapRange (setting : string)            (* range notifyFuncs yields an entry *)
| EvGetenv (setting : string)              (* os.Getenv(setting) *)
| EvNotify (id : nat) (setting value : string)  (* notifyFunc(setting, value) *)
| EvPrint (text : string)                  (* fmt.Println / fmt.Printf / log.Println *)
| EvTimerStop
| EvTimerReset
| EvWatcherClose
| EvWgAdd
| EvWgDone
| EvUserCurrent                            (* user.Current() *)
| EvSetAnchor (i : nat)                    (* field.Set(reflect.ValueOf(c)) *)
| EvOption (n : nat)                       (* the n-th option is applied *)
| EvNewWatcher                             (* fsnotify.NewWatcher() *)
| EvGoWatch                                (* go c.watch(ctx) *)
| EvReadFile (path : string)               (* os.ReadFile *)
| EvUnmarshal (format : string)            (* json.Unmarshal / yaml.Unmarshal *)
| EvWalk.                                  (* walkStructure(configuration, ...) *)

(** ** Notification registry *)

(** The process environment as [os.Getenv] reads it: an unset variable
    reads as the empty string. *)
Definition Env : Type := string -> string.

(** A callback is an arbitrary closure.  Of its behaviour the model keeps an
    identity, by which an invocation is recognised in the event list, and
    its effect on the process environment.  A callback that panics, or that
    changes the registry while the watcher ranges over it, is outside the
    model. *)
Record ConfigurationNotifyFunc : Type := mkNotify {
  nf_id : nat;
  nf_run : string -> string -> Env -> Env
}.

Record configurationData : Type := mkData {
  notifyFuncs : gmap string (list ConfigurationNotifyFunc)
}.

Definition AddNotifyOnChange (setting : string) (notifyFunc : ConfigurationNotifyFunc)
    (c : configurationData) : configurationData * list event :=
  let found := notifyFuncs c !! setting in
  let funcs := match found with Some l => l | None => [] end in
  (mkData (<[setting := funcs ++ [notifyFunc]]> (notifyFuncs c)),
   [EvLock; EvMapRead setting; EvMapWrite setting; EvUnlock]).

(** The inner loop of [checkForEnvChange]: each callback of one setting. *)
Fixpoint notify_range (setting value : string) (funcs : list ConfigurationNotifyFunc)
    (env : Env) : Env * list event :=
  match funcs with
  | [] => (env, [])
  | notifyFunc :: rest =>
      let env1 := nf_run notifyFunc setting value env in
      let '(env2, evs) := notify_range setting value rest env1 in
      (env2, EvNotify (nf_id notifyFunc) setting value :: evs)
  end.

(** The outer loop of [checkForEnvChange] over the entries of the registry
    in the order the iteration yields them. *)
Fixpoint checkForEnvChange_range (entries : list (string * list ConfigurationNotifyFunc))
    (env : Env) : Env * list event :=
  match entries with
  | [] => (env, [])
  | (setting, funcs) :: rest =>
      let value := env setting in
      let '(env1, evs1) := notify_range setting value funcs env in
      let '(env2, evs2) := checkForEnvChange_range rest env1 in
      (env2, EvMapRange setting :: EvGetenv setting :: evs1 ++ evs2)
  end.

(** An iteration order of the registry map. *)
Definition iteration_of (c : configurationData)
    (order : list (string * list ConfigurationNotifyFunc)) : Prop :=
  order ≡ₚ map_to_list (notifyFuncs c).

Definition checkForEnvChange (order : list (string * list ConfigurationNotifyFunc))
    (env : Env) : Env * list event :=
  checkForEnvChange_range order env.

(** ** Change watcher *)

(** The case that the [select] of the watcher loop takes. *)
Inductive selected : Type :=
| SelEvent (ok : bool) (isWrite : bool) (name : string)
| SelError (ok : bool) (msg : string)
| SelTick (order : list (string * list ConfigurationNotifyFunc))
| SelDone.

(** One round of the loop of [watch]: the new environment, the events, and
    whether the loop goes on. *)
Definition watch_select (sel : selected) (env : Env) : Env * list event * bool :=
  match sel with
  | SelEvent false _ _ => (env, [], false)
  | SelEvent true isWrite name =>
      (env, EvPrint "event:" :: (if isWrite then [EvPrint ("modified file: " +:+ name)] else []), true)
  | SelError false _ => (env, [], false)
  | SelError true msg => (env, [EvPrint ("error: " +:+ msg)], true)
  | SelTick order =>
      let '(env1, evs) := checkForEnvChange order env in
      (env1, EvTimerStop :: evs ++ [EvTimerReset], true)
  | SelDone => (env, [EvWatcherClose], false)
  end.

(** The loop of [watch] over the cases its [select] takes, until one of
    them returns or the list ends. *)
Fixpoint watch_loop (sels : list selected) (env : Env) : Env * list event :=
  match sels with
  | [] => (env, [])
  | sel :: rest =>
      let '(env1, evs1, continue) := watch_select sel env in
      if continue then
        let '(env2, evs2) := watch_loop rest env1 in (env2, evs1 ++ evs2)
      else (env1, evs1)
  end.

(** [watch]: register with the wait group when there is one, then loop. *)
Definition watch (wg : option nat) (sels : list selected) (env : Env) : Env * list event :=
  let '(env1, evs) := watch_loop sels env in
  match wg with
  | Some _ => (env1, EvWgAdd :: evs ++ [EvWgDone])
  | None => (env1, evs)
  end.

(** The invocations of callbacks for one setting found in a list of
    events, in order: callback identity, setting and value. *)
Definition notifications (s : string) (evs : list event) : list (nat * string * string) :=
  omap (fun e => match e with
                 | EvNotify id s' v => if String.eqb s' s then Some (id, s', v) else None
                 | _ => None
                 end) evs.

(** The callbacks registered for [s] by a sequence of registrations, in
    registration order. *)
Definition callbacks_for (s : string) (regs : list (string * ConfigurationNotifyFunc))
    : list ConfigurationNotifyFunc :=
  omap (fun r => if String.eqb (fst r) s then Some (snd r) else None) regs.

(** A sequence of calls of [AddNotifyOnChange]. *)
Fixpoint register_all (regs : list (string * ConfigurationNotifyFunc))
    (c : configurationData) : configurationData :=
  match regs with
  | [] => c
  | (setting, f) :: rest => register_all rest (fst (AddNotifyOnChange setting f c))
  end.

(** Lock discipline of one goroutine's events: every access to the registry
    map happens while the goroutine holds the mutex.  [held] tells whether
    it holds the mutex at the start. *)
Fixpoint map_access_guarded (held : bool) (evs : list event) : bool :=
  match evs with
  | [] => true
  | EvLock :: rest => map_access_guarded true rest
  | EvUnlock :: rest => map_access_guarded false rest
  | EvMapRead _ :: rest | EvMapWrite _ :: rest | EvMapRange _ :: rest =>
      held && map_access_guarded held rest
  | _ :: rest => map_access_guarded held rest
  end.

(** ** The core configuration *)

Record configurationMetadata : Type := mkMetadata {
  appName : string;
  configFile : string;
  homeDir : string;
  configDir : string;
  load : bool;
  watch_ : bool;
  wg : option nat;        (* *sync.WaitGroup: nil or a handle *)
  watcher : option nat    (* *fsnotify.Watcher: nil or a handle *)
}.

Record Configuration : Type := mkConfiguration {
  data : option configurationData;      (* the embedded *configurationData *)
  Metadata : option configurationMetadata;
  Logger : option LoggerConfiguration;
  Console : option ConsoleConfiguration
}.

(** [&Configuration{}] and [&configurationMetadata{}]. *)
Definition emptyConfiguration : Configuration := mkConfiguration None None None None.
Definition emptyMetadata : configurationMetadata :=
  mkMetadata "" "" "" "" false false None None.

(** The loop of [unmarshalLoad]; [err] is the function's variable [err]. *)
Fixpoint unmarshalLoad_range (values : list (string * dyn)) (c : Configuration)
    (err : option error) : Configuration * option error :=
  match values with
  | [] => (c, err)
  | (key, value) :: rest =>
      if String.eqb key "logger" then
        match value with
        | DMap m =>
            let '(lg, err') := newLoggerConfiguration m in
            unmarshalLoad_range rest
              (mkConfiguration (data c) (Metadata c) lg (Console c)) err'
        | _ =>
            (c, Some (InvalidInitConfigError ErrUnmarshalLoggerData
                        (Some (errorString (key +:+ " != " +:+ "map[string]interface{}")))
                        None))
        end
      else if String.eqb key "console" then
        match value with
        | DMap m =>
            let '(cs, err') := newConsoleConfiguration m in
            unmarshalLoad_range rest
              (mkConfiguration (data c) (Metadata c) (Logger c) cs) err'
        | _ =>
            (c, Some (InvalidInitConfigError ErrUnmarshalLoggerData
                        (Some (errorString (key +:+ " != " +:+ "map[string]interface{}")))
                        None))
        end
      else unmarshalLoad_range rest c err
  end.

Definition unmarshalLoad (values : list (string * dyn)) (c : Configuration)
    : Configuration * option error :=
  unmarshalLoad_range values c None.

(** *** The core configuration as [reflect] sees it *)

Definition reflect_ptr {A : Type} (f : A -> gval) (p : option A) : gval :=
  VPtr (option_map f p).

Definition reflect_data (d : configurationData) : gval :=
  VStruct [ VStruct []; VLeaf (DOther "map[string][]clif.ConfigurationNotifyFunc") ].

Definition reflect_handle (h : nat) : gval := VStruct [].

Definition reflect_metadata (m : configurationMetadata) : gval :=
  VStruct [ VLeaf (DString (appName m)); VLeaf (DString (configFile m));
            VLeaf (DString (homeDir m)); VLeaf (DString (configDir m));
            VLeaf (DBool (load m)); VLeaf (DBool (watch_ m));
            reflect_ptr reflect_handle (wg m); reflect_ptr reflect_handle (watcher m) ].

Definition reflect_loggerData (d : loggerConfigurationData) : gval :=
  VStruct [ VLeaf (DString (level d)); VLeaf (DBool (colorized d)) ].

Definition reflect_logger (l : LoggerConfiguration) : gval :=
  VStruct [ reflect_ptr reflect_loggerData (loggerData l) ].

Definition reflect_consoleData (d : consoleConfigurationData) : gval :=
  VStruct [ VLeaf (DInt (width d)); VLeaf (DInt (height d)) ].

Definition reflect_console (c : ConsoleConfiguration) : gval :=
  VStruct [ reflect_ptr reflect_consoleData (consoleData c) ].

Definition reflect_Configuration (c : Configuration) : gval :=
  VStruct [ reflect_ptr reflect_data (data c);
            reflect_ptr reflect_metadata (Metadata c);
            reflect_ptr reflect_logger (Logger c);
            reflect_ptr reflect_console (Console c) ].

(** ** Options *)

(** An option runs on the core configuration; it may return an error, and
    it panics ([None]) when it dereferences a nil [Metadata]. *)
Definition ConfigurationOption : Type :=
  Configuration -> option (Configuration * option error).

Definition withMetadata (f : configurationMetadata -> configurationMetadata)
    : ConfigurationOption :=
  fun c =>
    match Metadata c with
    | Some m => Some (mkConfiguration (data c) (Some (f m)) (Logger c) (Console c), None)
    | None => None
    end.

Definition ConfigurationOptionWaitGroup (h : option nat) : ConfigurationOption :=
  withMetadata (fun m =>
    mkMetadata (appName m) (configFile m) (homeDir m) (configDir m)
               (load m) (watch_ m) h (watcher m)).

Definition ConfigurationOptionAppName (name : string) : ConfigurationOption :=
  withMetadata (fun m =>
    mkMetadata name (configFile m) (homeDir m) (configDir m)
               (load m) (watch_ m) (wg m) (watcher m)).

Definition ConfigurationOptionConfigDir (dir : string) : ConfigurationOption :=
  withMetadata (fun m =>
    mkMetadata (appName m) (configFile m) (homeDir m) dir
               (load m) (watch_ m) (wg m) (watcher m)).

Definition ConfigurationOptionConfigFile (file : string) : ConfigurationOption :=
  withMetadata (fun m =>
    mkMetadata (appName m) file (homeDir m) (configDir m)
               (load m) (watch_ m) (wg m) (watcher m)).

Definition configurationOptionNoLoad : ConfigurationOption :=
  withMetadata (fun m =>
    mkMetadata (appName m) (configFile m) (homeDir m) (configDir m)
               false (watch_ m) (wg m) (watcher m)).

Definition configurationOptionNoWatch : ConfigurationOption :=
  withMetadata (fun m =>
    mkMetadata (appName m) (configFile m) (homeDir m) (configDir m)
               (load m) false (wg m) (watcher m)).

(** ** Struct walker *)

(** What a call leaves behind: it returns with the (possibly changed)
    value and an error or nil, or it panics. *)
Inductive result (A : Type) : Type :=
| Returned (a : A) (err : option error)
| Panicked.
Arguments Returned {A} _ _.
Arguments Panicked {A}.

(** A [processFunc] receives the settable field value, the field
    descriptor, the depth and the key; the model hands it the content of the
    leaf and takes back the content it leaves there and its error. *)
Definition processFunc : Type :=
  dyn -> StructField -> Z -> string -> dyn * option error.

Definition processDefault : processFunc := fun fv ft level key => (fv, None).

Definition processEnvVar : processFunc := fun fv ft level key => (fv, None).

(** [for _, f := range fs { err = f(fv, ft, level, key); if err != nil { break } }] *)
Fixpoint process_range (fs : list processFunc) (fv : dyn) (ft : StructField)
    (level : Z) (key : string) : dyn * option error :=
  match fs with
  | [] => (fv, None)
  | f :: rest =>
      match f fv ft level key with
      | (fv', Some err) => (fv', Some err)
      | (fv', None) => process_range rest fv' ft level key
      end
  end.

(** [fv.CanSet()]: the value is addressable and was not obtained through
    an unexported field. *)
Definition CanSet (addressable readOnly : bool) : bool := addressable && negb readOnly.

Section WalkBody.
(** The function called for a nested struct, applied to the pointee of
    the pointer the source passes. *)
Variable walk : gtype -> gval -> bool -> Z -> string -> list processFunc -> result gval.
Variable addressable : bool.
Variable level : Z.
Variable key : string.
Variable fs : list processFunc.

(** One round of the loop of [walkStructure], for the field [ft] holding
    [fv]: the value the round leaves in the field, and [err]. *)
Definition walk_field (ft : StructField) (fv : gval) : result gval :=
  let newAt := CanConvert (FType ft) configurationTypePtr && negb (IsExported ft) in
  if negb newAt && negb (IsExported ft) then Returned fv None
  else
    match FType ft with
    | TStruct _ _ =>
        match walk (FType ft) fv true (level + 1) (key +:+ ".") fs with
        | Returned fv' err =>
            if CanSet (addressable || newAt) false then Returned fv' err else Panicked
        | Panicked => Panicked
        end
    | TPtr elem =>
        if CanSet (addressable || newAt) false then
          match fv with
          | VPtr target =>
              let pointee := match target with Some x => x | None => zero elem end in
              match walk elem pointee true (level + 1) (key +:+ ".") fs with
              | Returned x' err => Returned (VPtr (Some x')) err
              | Panicked => Panicked
              end
          | _ => Panicked
          end
        else Returned fv None
    | TBasic _ _ =>
        match fv with
        | VLeaf d =>
            let '(d', err) := process_range fs d ft level key in
            Returned (VLeaf d') err
        | _ => Panicked
        end
    end.

(** [for i := 0; err == nil && i < rv.NumField(); i++]: the fields still
    to visit and their values. *)
Fixpoint walk_range (fields : list StructField) (vals : list gval) {struct fields}
    : result (list gval) :=
  match fields, vals with
  | [], [] => Returned [] None
  | ft :: fields', fv :: vals' =>
      match walk_field ft fv with
      | Panicked => Panicked
      | Returned fv' (Some err) => Returned (fv' :: vals') (Some err)
      | Returned fv' None =>
          match walk_range fields' vals' with
          | Returned vals'' err => Returned (fv' :: vals'') err
          | Panicked => Panicked
          end
      end
  | _, _ => Panicked
  end.
End WalkBody.

(** The body of [walkStructure] once [rv] and [rt] denote the struct.
    [addressable] tells whether the struct was reached through a pointer.
    The recursive calls of the source pass a pointer to the nested struct,
    which the callee dereferences first; here they pass the pointee. *)
Fixpoint walkFields (rt : gtype) (rv : gval) (addressable : bool) (level : Z)
    (key : string) (fs : list processFunc) {struct rt} : result gval :=
  match rt, rv with
  | TStruct _ fields, VStruct vals =>
      match walk_range walkFields addressable level key fs fields vals with
      | Returned vals' err => Returned (VStruct vals') err
      | Panicked => Panicked
      end
  | _, _ => Panicked
  end.

(** [walkStructure(s, level, key, fs...)] for [s] of type [st] and value
    [sv].  A pointer is dereferenced; [NumField] panics on what is not a
    struct, and so on the target of a nil pointer. *)
Definition walkStructure (st : gtype) (sv : gval) (level : Z) (key : string)
    (fs : list processFunc) : result gval :=
  match st with
  | TPtr elem =>
      match sv with
      | VPtr (Some x) =>
          match walkFields elem x true level key fs with
          | Returned x' err => Returned (VPtr (Some x')) err
          | Panicked => Panicked
          end
      | _ => Panicked
      end
  | _ => walkFields st sv false level key fs
  end.

(** A field the walker looks at: an exported one, or an unexported one
    whose type is the pointer to the core configuration. *)
Definition visited (ft : StructField) : bool :=
  IsExported ft || CanConvert (FType ft) configurationTypePtr.

(** [field_at t v path ft fv]: following [path] (field indices) from the
    value [v] of type [t] through visited fields only, dereferencing the
    pointers on the way, one arrives at the field [ft] holding [fv]. *)
Inductive field_at : gtype -> gval -> list nat -> StructField -> gval -> Prop :=
| field_here name fields vals i ft fv :
    fields !! i = Some ft -> vals !! i = Some fv -> visited ft = true ->
    field_at (TStruct name fields) (VStruct vals) [i] ft fv
| field_inside name fields vals i ft fv path ft' fv' :
    fields !! i = Some ft -> vals !! i = Some fv -> visited ft = true ->
    field_at (FType ft) fv path ft' fv' ->
    field_at (TStruct name fields) (VStruct vals) (i :: path) ft' fv'
| field_deref elem x path ft fv :
    field_at elem x path ft fv ->
    field_at (TPtr elem) (VPtr (Some x)) path ft fv.

(** ** Initialization *)

(** What a library decoder ([json.Unmarshal], [yaml.Unmarshal]) does with a
    document and the caller's structure: the values it leaves in the fields,
    the mapping it hands to the core configuration's own [UnmarshalJSON] /
    [UnmarshalYAML] when the document has an entry for the anchor field, and
    the library's own error.  A null entry for the anchor field is not
    handed to the core configuration: the decoder sets the field to nil,
    which shows in the values it leaves (see [anchor_after]). *)
Record decoded : Type := mkDecoded {
  dec_fields : list gval;
  dec_core : option (list (string * dyn));
  dec_err : option error
}.

Definition Unmarshaler : Type := string -> gtype -> list gval -> decoded.

(** The operating system and the libraries, as far as the package uses
    them. *)
Record OS : Type := mkOS {
  os_Args0 : string;
  user_Current : string + error;            (* the home directory, or an error *)
  filepath_Join : string -> string -> string;
  fsnotify_NewWatcher : nat + error;
  os_ReadFile : string -> string + error;
  os_Getenv : Env;
  json_Unmarshal : Unmarshaler;
  yaml_Unmarshal : Unmarshaler;
  unicode_ToLower : string -> string        (* strings.Map(unicode.ToLower, s) *)
}.

(** The argument of [InitConfig]: an [interface{}], nil or a typed value. *)
Inductive iface : Type :=
| INil
| IVal (t : gtype) (v : gval).

Definition TypeOf (configuration : iface) : option gtype :=
  match configuration with
  | INil => None
  | IVal t _ => Some t
  end.

Inductive returned : Type :=
| RetNil
| RetErr (e : error)
| RetPanic.

(** The outcome of [InitConfig]: what it returns, the argument as the call
    leaves it, and the steps taken, in order. *)
Record InitResult : Type := mkInit {
  ret : returned;
  graph : iface;
  events : list event
}.

Definition setMetadataDefaults (os : OS) (c : Configuration) : Configuration * option error :=
  match user_Current os with
  | inr err => (c, Some err)
  | inl home =>
      let m := match Metadata c with Some m => m | None => emptyMetadata end in
      (mkConfiguration (data c)
         (Some (mkMetadata (os_Args0 os) "config.yaml" home
                  (filepath_Join os home "config.yaml") true true (wg m) (watcher m)))
         (Logger c) (Console c),
       None)
  end.

(** [for _, option := range options]; [n] counts the options applied. *)
Fixpoint options_range (options : list ConfigurationOption) (n : nat) (c : Configuration)
    : option (Configuration * option error * list event) :=
  match options with
  | [] => Some (c, None, [])
  | option :: rest =>
      match option c with
      | None => None
      | Some (c', Some err) => Some (c', Some err, [EvOption n])
      | Some (c', None) =>
          match options_range rest (S n) c' with
          | Some (c'', err, evs) => Some (c'', err, EvOption n :: evs)
          | None => None
          end
      end
  end.

(** [newConfiguration]: [None] is a panic (a nil [Metadata] dereferenced). *)
Definition newConfiguration (os : OS) (options : list ConfigurationOption) (c : Configuration)
    : option (Configuration * option error * list event) :=
  let c0 :=
    match data c with
    | None => mkConfiguration (Some (mkData ∅)) (Metadata c) (Logger c) (Console c)
    | Some _ => c
    end in
  match options_range options 0 c0 with
  | None => None
  | Some (c1, Some err, evs) => Some (c1, Some err, evs)
  | Some (c1, None, evs) =>
      match Metadata c1 with
      | None => None
      | Some m =>
          if watch_ m then
            match fsnotify_NewWatcher os with
            | inr err =>
                Some (mkConfiguration (data c1)
                        (Some (mkMetadata (appName m) (configFile m) (homeDir m) (configDir m)
                                 (load m) (watch_ m) (wg m) None))
                        (Logger c1) (Console c1),
                      Some err, evs ++ [EvNewWatcher])
            | inl h =>
                Some (mkConfiguration (data c1)
                        (Some (mkMetadata (appName m) (configFile m) (homeDir m) (configDir m)
                                 (load m) (watch_ m) (wg m) (Some h)))
                        (Logger c1) (Console c1),
                      None, evs ++ [EvNewWatcher; EvGoWatch])
            end
          else Some (c1, None, evs)
      end
  end.

(** [strings.ToLower].  A Go string is a sequence of bytes.  When every
    byte is below [utf8.RuneSelf] (128) the function lower-cases the bytes
    ['A'] to ['Z'] and keeps the others; a string with any other byte goes
    through [strings.Map(unicode.ToLower, s)], which decodes UTF-8 and
    follows the Unicode tables of the library. *)
Definition lower_ascii (a : Ascii.ascii) : Ascii.ascii :=
  let n := Ascii.nat_of_ascii a in
  if (Nat.leb 65 n && Nat.leb n 90)%bool then Ascii.ascii_of_nat (n + 32) else a.

Fixpoint isASCII (s : string) : bool :=
  match s with
  | EmptyString => true
  | String a rest => Nat.ltb (Ascii.nat_of_ascii a) 128 && isASCII rest
  end.

Fixpoint lower_bytes (s : string) : string :=
  match s with
  | EmptyString => EmptyString
  | String a rest => String (lower_ascii a) (lower_bytes rest)
  end.

Definition ToLower (os : OS) (s : string) : string :=
  if isASCII s then lower_bytes s else unicode_ToLower os s.

(** [s[strings.LastIndex(s, ".")+1:]], when [s] has a dot. *)
Fixpoint after_last_dot (s : string) : option string :=
  match s with
  | EmptyString => None
  | String a rest =>
      match after_last_dot rest with
      | Some t => Some t
      | None => if Ascii.eqb a (Ascii.ascii_of_nat 46) then Some rest else None
      end
  end.

Definition configType (os : OS) (m : configurationMetadata) : string :=
  match after_last_dot (configFile m) with
  | None => ""
  | Some ext => ToLower os ext
  end.

(** The anchor field [i] of the caller's structure points to [c]. *)
Definition plug (i : nat) (c : Configuration) (vals : list gval) : list gval :=
  <[i := VPtr (Some (reflect_Configuration c))]> vals.

(** The anchor field after a decoder ran.  When the decoder starts the
    field points to the core configuration.  The library decoders reuse a
    non-nil pointer: whatever the document has for the field is decoded
    into that core configuration, and the field goes on pointing to it.
    For a null entry they set the field to nil instead, without calling the
    core configuration; the decoder reports that by the nil pointer it
    leaves in the field. *)
Definition anchor_after (i : nat) (c : Configuration) (fields : list gval) : list gval :=
  match fields !! i with
  | Some (VPtr None) => fields
  | _ => plug i c fields
  end.

(** One library decoder run on the caller's structure; the entry for the
    anchor goes through [unmarshalLoad].  An error of [unmarshalLoad] is
    the error of the whole decoding. *)
Definition run_Unmarshal (u : Unmarshaler) (bs : string) (c : Configuration)
    (t : gtype) (i : nat) (vals : list gval) : Configuration * list gval * option error :=
  let d := u bs t vals in
  let '(c', hookErr) :=
    match dec_core d with
    | Some values => unmarshalLoad values c
    | None => (c, None)
    end in
  (c', anchor_after i c' (dec_fields d),
   match hookErr with Some e => Some e | None => dec_err d end).

(** [unmarshalConfigFile]; [None] is a panic. *)
Definition unmarshalConfigFile (os : OS) (c : Configuration) (t : gtype) (i : nat)
    (vals : list gval) : option (Configuration * list gval * option error * list event) :=
  match Metadata c with
  | None => None
  | Some m =>
      if String.eqb (configFile m) "" then Some (c, vals, None, [])
      else
        match os_ReadFile os (configFile m) with
        | inr err =>
            Some (c, vals,
                  Some (InvalidInitConfigError ErrFileReadCoreConfig (Some err) None),
                  [EvReadFile (configFile m)])
        | inl bs =>
            let ty := configType os m in
            let '(c', vals', err, evs) :=
              if String.eqb ty "json" then
                (run_Unmarshal (json_Unmarshal os) bs c t i vals, [EvUnmarshal ty])
              else if String.eqb ty "yaml" || String.eqb ty "yml" then
                (run_Unmarshal (yaml_Unmarshal os) bs c t i vals, [EvUnmarshal ty])
              else (c, vals, None, []) in
            match err with
            | Some e =>
                Some (c', vals',
                      Some (InvalidInitConfigError ErrUnmarshalCoreConfig (Some e) None),
                      EvReadFile (configFile m) :: evs)
            | None => Some (c', vals', None, EvReadFile (configFile m) :: evs)
            end
        end
  end.

(** The providers [InitConfig] hands to the walker. *)
Definition providers : list processFunc := [processDefault; processEnvVar].

(** How the loop of [InitConfig] is left: by a [return] inside it, or by
    [break] or exhaustion, with the variable [c] (nil when nothing was
    found), the field values of the caller's structure and the steps so
    far. *)
Inductive loop_exit : Type :=
| LoopReturn (r : InitResult)
| LoopEnd (c : option Configuration) (vals : list gval) (evs : list event).

(** The branch of the loop of [InitConfig] taken at the first field [i]
    that converts to the pointer to the core configuration, once the field
    is known to be named and exported and [field.Set] has not panicked.
    [t] is the struct type of the caller's structure and [vals] its field
    values. *)
Definition InitConfig_anchor (os : OS) (options : list ConfigurationOption)
    (t : gtype) (vals : list gval) (i : nat) : loop_exit :=
  let out r c vs evs :=
    LoopReturn (mkInit r (IVal (TPtr t) (VPtr (Some (VStruct (plug i c vs))))) evs) in
  let c := emptyConfiguration in
  let ev0 := [EvSetAnchor i; EvUserCurrent] in
  match setMetadataDefaults os c with
  | (c1, Some err) => out (RetErr err) c1 vals ev0
  | (c1, None) =>
      match newConfiguration os options c1 with
      | None => out RetPanic c1 vals ev0
      | Some (c2, Some err, evs) => out (RetErr err) c2 vals (ev0 ++ evs)
      | Some (c2, None, evs) =>
          match Metadata c2 with
          | None => out RetPanic c2 vals (ev0 ++ evs)
          | Some m =>
              if load m then
                match unmarshalConfigFile os c2 t i (plug i c2 vals) with
                | None => out RetPanic c2 vals (ev0 ++ evs)
                | Some (c3, vals3, Some err, evs3) =>
                    LoopReturn (mkInit (RetErr err)
                                  (IVal (TPtr t) (VPtr (Some (VStruct vals3))))
                                  (ev0 ++ evs ++ evs3))
                | Some (c3, vals3, None, evs3) =>
                    LoopEnd (Some c3) vals3 (ev0 ++ evs ++ evs3 ++ [EvPrint "%v"])
                end
              else LoopEnd (Some c2) (plug i c2 vals) (ev0 ++ evs)
          end
      end
  end.

(** The loop of [InitConfig] over the fields from index [i] on. *)
Fixpoint InitConfig_range (os : OS) (options : list ConfigurationOption)
    (t : gtype) (vals : list gval) (i : nat) (rest : list StructField) : loop_exit :=
  let unchanged r := LoopReturn (mkInit r (IVal (TPtr t) (VPtr (Some (VStruct vals)))) []) in
  match rest with
  | [] => LoopEnd None vals []
  | ft :: rest' =>
      if CanConvert (FType ft) configurationTypePtr then
        if Anonymous ft then
          unchanged (RetErr (InvalidInitConfigError ErrAnonymousCoreConfig None None))
        else if negb (IsExported ft) then
          unchanged (RetErr (InvalidInitConfigError ErrNonExportedCoreConfig None None))
        else if assignable configurationTypePtr (FType ft) then
          InitConfig_anchor os options t vals i
        else unchanged RetPanic
      else if CanConvert (FType ft) configurationType then
        unchanged (RetErr (InvalidInitConfigError "" None (Some configurationType)))
      else InitConfig_range os options t vals (S i) rest'
  end.

(** The code of [InitConfig] after the loop. *)
Definition InitConfig_finish (t : gtype) (exit : loop_exit) : InitResult :=
  match exit with
  | LoopReturn r => r
  | LoopEnd None vals evs =>
      mkInit (RetErr (InvalidInitConfigError ErrMissingCoreConfig None None))
             (IVal (TPtr t) (VPtr (Some (VStruct vals)))) evs
  | LoopEnd (Some c) vals evs =>
      let s := VPtr (Some (VStruct vals)) in
      match Metadata c with
      | None => mkInit RetPanic (IVal (TPtr t) s) evs
      | Some m =>
          if load m then
            match walkStructure (TPtr t) s 0 "" providers with
            | Panicked => mkInit RetPanic (IVal (TPtr t) s) (evs ++ [EvWalk])
            | Returned s' (Some err) => mkInit (RetErr err) (IVal (TPtr t) s') (evs ++ [EvWalk])
            | Returned s' None => mkInit RetNil (IVal (TPtr t) s') (evs ++ [EvWalk])
            end
          else mkInit RetNil (IVal (TPtr t) s) evs
      end
  end.

Definition InitConfig (os : OS) (configuration : iface) (options : list ConfigurationOption)
    : InitResult :=
  match configuration with
  | INil => mkInit (RetErr (InvalidInitConfigError "" None (TypeOf configuration))) configuration []
  | IVal t v =>
      match t, v with
      | TPtr (TStruct name fields), VPtr (Some (VStruct vals)) =>
          InitConfig_finish (TStruct name fields)
            (InitConfig_range os options (TStruct name fields) vals 0 fields)
      | TPtr _, VPtr (Some _) => mkInit RetPanic configuration []
      | _, _ =>
          mkInit (RetErr (InvalidInitConfigError "" None (TypeOf configuration))) configuration []
      end
  end.

(** ** Acceptance of section values *)

(** The values [newLoggerConfiguration] takes for a key: a string for
    [level], a bool for [colorized]; any other key is not looked at. *)
Definition logger_accepts (key : string) (value : dyn) : bool :=
  if String.eqb key "level" then match value with DString _ => true | _ => false end
  else if String.eqb key "colorized" then match value with DBool _ => true | _ => false end
  else true.

(** The values [newConsoleConfiguration] takes for [width] and [height]:
    an int or a float64. *)
Definition console_accepts (key : string) (value : dyn) : bool :=
  if String.eqb key "width" || String.eqb key "height" then
    match value with DInt _ | DFloat64 _ => true | _ => false end
  else true.

(** The int that [toInt] makes of an acceptable value. *)
Definition coerced_int (value : dyn) : Z :=
  match value with
  | DInt i => i
  | DFloat64 f => float64_to_int f
  | _ => 0
  end.

(** A section with all four keys, every value of an acceptable type. *)
Definition section_sample : list (string * dyn) :=
  [ ("level", DString "debug"); ("colorized", DBool true);
    ("width", DInt 50); ("height", DFloat64 (F64 21 (-1))) ].

(** The error a section decoder returns for the offending [key]. *)
Definition unmarshalTypeError (sentinel : error) (key : string) : error :=
  Errorf_w_s sentinel (errorString ("invalid data type - " +:+ key +:+ " != int")).

(** ** Test data: the structures of the package's tests *)

Definition stringType : gtype := TBasic KString "string".
Definition intType : gtype := TBasic KInt "int".
Definition boolType : gtype := TBasic KBool "bool".

Definition configA : gtype := TStruct "clif.configA" [].
Definition configB : gtype :=
  TStruct "clif.configB" [ mkField "name" clifPkg false stringType ].
Definition configC : gtype :=
  TStruct "clif.configC"
    [ mkField "Configuration" "" true configurationType;
      mkField "name" clifPkg false stringType ].
Definition configCPtr : gtype :=
  TStruct "clif.configCPtr"
    [ mkField "Configuration" "" true configurationTypePtr;
      mkField "name" clifPkg false stringType ].
Definition configD : gtype :=
  TStruct "clif.configD"
    [ mkField "Core" "" false configurationType;
      mkField "name" clifPkg false stringType ].
Definition configDPtr : gtype :=
  TStruct "clif.configDPtr"
    [ mkField "name" clifPkg false stringType;
      mkField "Core" "" false configurationTypePtr ].

(** A structure whose anchor is unexported, and one with a core
    configuration by value in front of it. *)
Definition configHidden : gtype :=
  TStruct "clif.configHidden"
    [ mkField "name" clifPkg false stringType;
      mkField "core" clifPkg false configurationTypePtr ].
Definition configMixed : gtype :=
  TStruct "clif.configMixed"
    [ mkField "Core" "" false configurationType;
      mkField "core" clifPkg false configurationTypePtr ].

(** [type coreAlias Configuration], and a structure holding a pointer to
    it. *)
Definition coreAlias : gtype :=
  TStruct "clif.coreAlias"
    [ mkField "configurationData" clifPkg true (TPtr configurationDataType);
      mkField "Metadata" "" false (TPtr configurationMetadataType);
      mkField "Logger" "" false (TPtr LoggerConfigurationType);
      mkField "Console" "" false (TPtr ConsoleConfigurationType) ].
Definition configAlias : gtype :=
  TStruct "clif.configAlias" [ mkField "Core" "" false (TPtr coreAlias) ].

Definition WalkerC : gtype :=
  TStruct "clif.WalkerC"
    [ mkField "internal" clifPkg false stringType;
      mkField "External" "" false stringType ].
Definition WalkerB : gtype :=
  TStruct "clif.WalkerB"
    [ mkField "internal" clifPkg false stringType;
      mkField "External" "" false stringType;
      mkField "WalkerC" "" false WalkerC;
      mkField "WalkerCPtr" "" false (TPtr WalkerC) ].
Definition WalkerA : gtype :=
  TStruct "clif.WalkerA"
    [ mkField "internal" clifPkg false stringType;
      mkField "External" "" false stringType;
      mkField "Mappy" "" false (TBasic KMap "map[string]interface {}");
      mkField "Things" "" false (TBasic KSlice "[]string");
      mkField "Object" "" false (TBasic KInterface "interface {}");
      mkField "handler" clifPkg false (TBasic KFunc "func() error");
      mkField "Number" "" false intType;
      mkField "Boolean" "" false boolType;
      mkField "WalkerB" "" false WalkerB;
      mkField "WalkerBPtr" "" false (TPtr WalkerB);
      mkField "Core" "" false configurationTypePtr ].

(** [&T{}] as an argument of [InitConfig]. *)
Definition addressOf (t : gtype) (v : gval) : iface := IVal (TPtr t) (VPtr (Some v)).

Definition fields_of (v : gval) : list gval :=
  match v with VStruct vals => vals | _ => [] end.

(** The fields of a struct type. *)
Definition fields_of_type (t : gtype) : list StructField :=
  match t with TStruct _ fields => fields | _ => [] end.

(** [&WalkerA{WalkerBPtr: &WalkerB{}}] *)
Definition walkerA_value : gval :=
  VStruct (<[9%nat := VPtr (Some (zero WalkerB))]> (fields_of (zero WalkerA))).

(** A decoder that finds nothing in the document. *)
Definition decode_nothing : Unmarshaler := fun bs t vals => mkDecoded vals None None.

(** What the YAML decoder does with the test document: it stores the
    file's values in the field [External] (index 1) and in the nested
    struct [WalkerB] (index 8), and hands the sections [logger] and
    [console], and a section the core does not know, to the core
    configuration. *)
Definition test_document : list (string * dyn) :=
  [ ("theme", DMap [("name", DString "dark")]);
    ("logger", DMap [("level", DString "debug"); ("colorized", DBool true)]);
    ("console", DMap [("width", DInt 50); ("height", DInt 10)]) ].

Definition walkerB_decoded : gval :=
  VStruct [ VLeaf (DString ""); VLeaf (DString "walkerB.external");
            VStruct [ VLeaf (DString ""); VLeaf (DString "walkerBC.external") ];
            VPtr (Some (VStruct [ VLeaf (DString "");
                                  VLeaf (DString "walkerBCPtr.external") ])) ].

Definition decode_test_yaml : Unmarshaler :=
  fun bs t vals =>
    mkDecoded (<[8%nat := walkerB_decoded]>
                 (<[1%nat := VLeaf (DString "walkerA.external")]> vals))
              (Some test_document) None.

(** Three callbacks that leave the environment alone, two of them
    registered for the same setting. *)
Definition notifyA : ConfigurationNotifyFunc := mkNotify 1 (fun setting value env => env).
Definition notifyB : ConfigurationNotifyFunc := mkNotify 2 (fun setting value env => env).
Definition notifyC : ConfigurationNotifyFunc := mkNotify 3 (fun setting value env => env).

Definition test_registrations : list (string * ConfigurationNotifyFunc) :=
  [ ("APP_LOGGER_LEVEL", notifyA); ("APP_CONSOLE_WIDTH", notifyC);
    ("APP_LOGGER_LEVEL", notifyB) ].

Definition test_registry : configurationData :=
  register_all test_registrations (mkData ∅).

Definition test_env : Env :=
  fun name => if String.eqb name "APP_LOGGER_LEVEL" then "debug" else "".

(** A process in which every environment variable, whatever its name, is
    set to [from-env].  The file names of the tests are ASCII, so that the
    Unicode mapping of the library is never consulted. *)
Definition testOS : OS :=
  mkOS "clif.test" (inl "/home/tester") (fun dir file => dir +:+ "/" +:+ file)
       (inl 1%nat) (fun path => inl "document")
       (fun name => if String.eqb name "" then "" else "from-env")
       decode_nothing decode_test_yaml (fun s => s).

(** The same process with another environment. *)
Definition with_env (os : OS) (env : Env) : OS :=
  mkOS (os_Args0 os) (user_Current os) (filepath_Join os) (fsnotify_NewWatcher os)
       (os_ReadFile os) env (json_Unmarshal os) (yaml_Unmarshal os) (unicode_ToLower os).

(** The value found by following a path of field indices, through non-nil
    pointers. *)
Fixpoint value_at (v : gval) (path : list nat) : option gval :=
  match v with
  | VPtr (Some x) => value_at x path
  | VPtr None => None
  | VLeaf _ => match path with [] => Some v | _ => None end
  | VStruct vals =>
      match path with
      | [] => Some v
      | i :: rest =>
          (fix pick (vals : list gval) (i : nat) : option gval :=
             match vals, i with
             | [], _ => None
             | x :: _, O => match rest with
                            | [] => Some x
                            | _ => value_at x rest
                            end
             | _ :: vals', S i' => pick vals' i'
             end) vals i
      end
  end.

Definition graph_value (r : InitResult) : gval :=
  match graph r with IVal _ v => v | INil => VPtr None end.

(** The first position of an event satisfying [p]. *)
Fixpoint position (p : event -> bool) (evs : list event) : option nat :=
  match evs with
  | [] => None
  | e :: rest => if p e then Some O else option_map S (position p rest)
  end.

Definition isGoWatch (e : event) : bool := match e with EvGoWatch => true | _ => false end.
Definition isWalk (e : event) : bool := match e with EvWalk => true | _ => false end.
Definition isUnmarshal (e : event) : bool := match e with EvUnmarshal _ => true | _ => false end.

(** The steps that fill the settings graph from a source. *)
Definition populates (e : event) : bool :=
  match e with
  | EvReadFile _ | EvUnmarshal _ | EvWalk => true
  | _ => false
  end.

Definition test_options : list ConfigurationOption :=
  [configurationOptionNoLoad; configurationOptionNoWatch].

Definition error_text (r : InitResult) : string :=
  match ret r with
  | RetNil => ""
  | RetErr e => Error e
  | RetPanic => "panic"
  end.

(** The arguments [InitConfig] refuses at once: nil, a value that is not a
    pointer, a nil pointer. *)
Definition invalid_argument (configuration : iface) : Prop :=
  match configuration with
  | INil => True
  | IVal t v => (forall elem, t <> TPtr elem) \/ v = VPtr None
  end.

(** The steps taken when the loop of [InitConfig] is left. *)
Definition exit_events (exit : loop_exit) : list event :=
  match exit with
  | LoopReturn r => events r
  | LoopEnd _ _ evs => evs
  end.

(** The steps of an initialization that starts the watcher: the anchor is
    set, the metadata defaults are taken, every option is applied in order,
    the file watcher is created, the watcher goroutine is started; whatever
    else happens comes after. *)
Definition started_after_options (options : list ConfigurationOption)
    (evs : list event) : Prop :=
  In EvGoWatch evs ->
  exists i post,
    evs = EvSetAnchor i :: EvUserCurrent :: map EvOption (seq 0 (length options))
          ++ [EvNewWatcher; EvGoWatch] ++ post.

(** The rule of the specification for the value of a setting: the
    environment over the file over the default. *)
Definition highest_precedence (dflt file env : option dyn) : option dyn :=
  match env, file with
  | Some v, _ => Some v
  | None, Some v => Some v
  | None, None => dflt
  end.

(** The arguments of the package's walker test: watching switched off, or
    left on. *)
Definition walker_options : list ConfigurationOption :=
  [configurationOptionNoWatch; ConfigurationOptionConfigFile "testdata/config.yaml"].

Definition watching_options : list ConfigurationOption :=
  [ConfigurationOptionConfigFile "testdata/config.yaml"].

(** ** Statements about the walker *)

(** Every pointer field the walker looks at, at every depth, is non-nil. *)
Definition pointers_set (t : gtype) (v : gval) : Prop :=
  forall path ft fv elem, field_at t v path ft fv ->
    FType ft = TPtr elem -> exists x, fv = VPtr (Some x).

(** The fields the walker looks at in a type, at every depth:
    [walked_field t path ft] says that the field [ft] is found in [t] by
    following [path] (field indices) through fields the walker looks at,
    through struct types and pointer types alike. *)
Inductive walked_field : gtype -> list nat -> StructField -> Prop :=
| walked_here name fields i ft :
    fields !! i = Some ft -> visited ft = true ->
    walked_field (TStruct name fields) [i] ft
| walked_inside name fields i ft path ft' :
    fields !! i = Some ft -> visited ft = true ->
    walked_field (FType ft) path ft' ->
    walked_field (TStruct name fields) (i :: path) ft'
| walked_deref elem path ft :
    walked_field elem path ft ->
    walked_field (TPtr elem) path ft.

(** Every pointer field the walker looks at in the type, at every depth,
    is there in the value, reached through non-nil pointers, and is itself
    non-nil. *)
Definition pointers_allocated (t : gtype) (v : gval) : Prop :=
  forall path ft elem, walked_field t path ft ->
    FType ft = TPtr elem -> exists x, field_at t v path ft (VPtr (Some x)).

Definition walk_allocates_pointers (t : gtype) : Prop :=
  forall v level key fs v',
    walkFields t v true level key fs = Returned v' None -> pointers_allocated t v'.

(** The rule of [reflect] for [CanSet] below an addressable struct: a field
    can be set when it is exported and every field on the way to it is
    exported, except that an embedded struct of unexported type may stand
    on the way (its exported fields are promoted, and the read-only mark
    of an embedded field is not passed on to its fields). *)
Definition on_settable_way (ft : StructField) : bool :=
  IsExported ft
  || (Anonymous ft && match FType ft with TStruct _ _ => true | _ => false end).

Inductive settable_at : gtype -> gval -> list nat -> StructField -> gval -> Prop :=
| settable_here name fields vals i ft fv :
    fields !! i = Some ft -> vals !! i = Some fv -> IsExported ft = true ->
    settable_at (TStruct name fields) (VStruct vals) [i] ft fv
| settable_inside name fields vals i ft fv path ft' fv' :
    fields !! i = Some ft -> vals !! i = Some fv -> on_settable_way ft = true ->
    settable_at (FType ft) fv path ft' fv' ->
    settable_at (TStruct name fields) (VStruct vals) (i :: path) ft' fv'
| settable_deref elem x path ft fv :
    settable_at elem x path ft fv ->
    settable_at (TPtr elem) (VPtr (Some x)) path ft fv.

(** A walk that returns without error leaves no nil pointer behind. *)
Definition walk_sets_pointers (t : gtype) : Prop :=
  forall v level key fs v',
    walkFields t v true level key fs = Returned v' None -> pointers_set t v'.

(** A property of a type and, for a pointer type, of its pointee: the
    walker goes through a pointer field straight to the pointee. *)
Definition below_pointer (P : gtype -> Prop) (t : gtype) : Prop :=
  P t /\ match t with TPtr elem => P elem | _ => True end.

(** Providers that, run again on the content they left in a leaf, leave
    it as it is: sources that are merged by key and have not changed. *)
Definition stable_providers (fs : list processFunc) : Prop :=
  forall d ft level key d',
    process_range fs d ft level key = (d', None) ->
    process_range fs d' ft level key = (d', None).

(** A second walk returns what the first one returned. *)
Definition walk_is_stable (fs : list processFunc) (t : gtype) : Prop :=
  forall v level key v',
    walkFields t v true level key fs = Returned v' None ->
    walkFields t v' true level key fs = Returned v' None.

(** A walk with the providers of [InitConfig] keeps the content of the
    leaves it can reach. *)
Definition walk_keeps_leaves (t : gtype) : Prop :=
  forall v level key v',
    walkFields t v true level key providers = Returned v' None ->
    forall path ft d, field_at t v path ft (VLeaf d) -> field_at t v' path ft (VLeaf d).

(** ** Statements about the file's values *)

(** A leaf of the settings graph: a field whose type is neither a struct
    nor a pointer, which is where the walker calls the providers. *)
Definition leaf_type (t : gtype) : bool :=
  match t with TBasic _ _ => true | _ => false end.

(** Whether the walker can reach a leaf below a value of the type. *)
Fixpoint has_leaf (t : gtype) : bool :=
  match t with
  | TBasic _ _ => false
  | TStruct _ fields =>
      (fix any (l : list StructField) : bool :=
         match l with
         | [] => false
         | f :: r => (visited f && (leaf_type (FType f) || has_leaf (FType f))) || any r
         end) fields
  | TPtr elem => has_leaf elem
  end.

(** What a configuration file supplies to a structure: for the path of a
    leaf, the value the file has for it, if it has one. *)
Definition document : Type := list nat -> option dyn.

(** The contract of a library decoder for the content [bs] of a file that
    supplies [doc] to a structure of type [t] with one value per field: a
    leaf the file has a value for holds that value afterwards, and a leaf
    the file has no value for holds what it held. *)
Definition decodes (u : Unmarshaler) (bs : string) (t : gtype) (doc : document) : Prop :=
  forall vals,
    length vals = length (fields_of_type t) ->
    (forall path d, doc path = Some d ->
       exists ft, leaf_type (FType ft) = true
                  /\ field_at t (VStruct (dec_fields (u bs t vals))) path ft (VLeaf d))
    /\ (forall path ft d, doc path = None -> leaf_type (FType ft) = true ->
          field_at t (VStruct vals) path ft (VLeaf d) ->
          field_at t (VStruct (dec_fields (u bs t vals))) path ft (VLeaf d)).

(** The decoder [unmarshalConfigFile] runs for a file of type [ty]. *)
Definition decoder_for (os : OS) (ty : string) : Unmarshaler :=
  if String.eqb ty "json" then json_Unmarshal os else yaml_Unmarshal os.

(** ** Further parts of the package *)

(** *** The options, by name *)

(** The six option constructors of configuration.go. *)
Inductive option_kind : Type :=
| OptWaitGroup (h : option nat)
| OptAppName (name : string)
| OptConfigDir (dir : string)
| OptConfigFile (file : string)
| OptNoLoad
| OptNoWatch.

Definition option_of (k : option_kind) : ConfigurationOption :=
  match k with
  | OptWaitGroup h => ConfigurationOptionWaitGroup h
  | OptAppName name => ConfigurationOptionAppName name
  | OptConfigDir dir => ConfigurationOptionConfigDir dir
  | OptConfigFile file => ConfigurationOptionConfigFile file
  | OptNoLoad => configurationOptionNoLoad
  | OptNoWatch => configurationOptionNoWatch
  end.

Definition isNoLoad (k : option_kind) : bool :=
  match k with OptNoLoad => true | _ => false end.
Definition isNoWatch (k : option_kind) : bool :=
  match k with OptNoWatch => true | _ => false end.

(** The file name the options leave: that of the last [OptConfigFile], or
    the one given. *)
Fixpoint last_configFile (kinds : list option_kind) (file : string) : string :=
  match kinds with
  | [] => file
  | OptConfigFile f :: rest => last_configFile rest f
  | _ :: rest => last_configFile rest file
  end.

Fixpoint last_appName (kinds : list option_kind) (name : string) : string :=
  match kinds with
  | [] => name
  | OptAppName n :: rest => last_appName rest n
  | _ :: rest => last_appName rest name
  end.

Fixpoint last_configDir (kinds : list option_kind) (dir : string) : string :=
  match kinds with
  | [] => dir
  | OptConfigDir d :: rest => last_configDir rest d
  | _ :: rest => last_configDir rest dir
  end.

Fixpoint last_wg (kinds : list option_kind) (h : option nat) : option nat :=
  match kinds with
  | [] => h
  | OptWaitGroup h' :: rest => last_wg rest h'
  | _ :: rest => last_wg rest h
  end.

(** The metadata after a sequence of options, field by field: the last
    option of a kind decides its field, [OptNoLoad] and [OptNoWatch] switch
    their flag off for good, the home directory and the watcher handle are
    not touched. *)
Definition options_metadata (kinds : list option_kind) (m : configurationMetadata)
    : configurationMetadata :=
  mkMetadata (last_appName kinds (appName m)) (last_configFile kinds (configFile m))
             (homeDir m) (last_configDir kinds (configDir m))
             (load m && negb (existsb isNoLoad kinds))
             (watch_ m && negb (existsb isNoWatch kinds))
             (last_wg kinds (wg m)) (watcher m).

(** The metadata [setMetadataDefaults] writes for the home directory
    [home]. *)
Definition default_metadata (os : OS) (home : string) : configurationMetadata :=
  mkMetadata (os_Args0 os) "config.yaml" home (filepath_Join os home "config.yaml")
             true true None None.

Definition with_watcher (h : option nat) (m : configurationMetadata) : configurationMetadata :=
  mkMetadata (appName m) (configFile m) (homeDir m) (configDir m)
             (load m) (watch_ m) (wg m) h.

(** *** Accessors of the sections *)

(** The methods of [*LoggerConfiguration] and [*ConsoleConfiguration] read
    and write through the embedded pointer; [None] is the panic of a nil
    embedded pointer. *)
Definition Level (c : LoggerConfiguration) : option string :=
  option_map level (loggerData c).

Definition SetLevel (lv : string) (c : LoggerConfiguration) : option LoggerConfiguration :=
  match loggerData c with
  | Some d => Some (mkLogger (Some (mkLoggerData lv (colorized d))))
  | None => None
  end.

Definition Colorized (c : LoggerConfiguration) : option bool :=
  option_map colorized (loggerData c).

Definition Width (c : ConsoleConfiguration) : option Z :=
  option_map width (consoleData c).

Definition SetWidth (w : Z) (c : ConsoleConfiguration) : option ConsoleConfiguration :=
  match consoleData c with
  | Some d => Some (mkConsole (Some (mkConsoleData w (height d))))
  | None => None
  end.

Definition Height (c : ConsoleConfiguration) : option Z :=
  option_map height (consoleData c).

Definition SetHeight (h : Z) (c : ConsoleConfiguration) : option ConsoleConfiguration :=
  match consoleData c with
  | Some d => Some (mkConsole (Some (mkConsoleData (width d) h)))
  | None => None
  end.

(** *** What the walker does to a core configuration *)

(** A core configuration in which every nil section is replaced by an
    empty one: the metadata by [&configurationMetadata{}], the logger and
    console sections by a section whose embedded data pointer is nil. *)
Definition fill_sections (c : Configuration) : Configuration :=
  mkConfiguration (data c)
    (Some (default emptyMetadata (Metadata c)))
    (Some (default (mkLogger None) (Logger c)))
    (Some (default (mkConsole None) (Console c))).

(** *** History of the logger *)

(** [History.add]: append, and drop the oldest message once there are more
    than 1000. *)
Definition History_add (message : string) (messages : list string) : list string :=
  let messages1 := messages ++ [message] in
  if Nat.ltb 1000 (length messages1) then List.tl messages1 else messages1.

(** A sequence of calls of [add]. *)
Fixpoint History_add_all (new : list string) (messages : list string) : list string :=
  match new with
  | [] => messages
  | message :: rest => History_add_all rest (History_add message messages)
  end.

(** *** Logger (Logger.go) *)

(** The escape sequences of the package [color], which the logger
    takes from there. *)
Record Colors : Type := mkColors {
  color_Reset : string;
  color_White : string;
  color_BrightWhite : string;
  color_BrightYellow : string;
  color_BrightRed : string
}.

Definition ESC : string := String (Ascii.ascii_of_nat 27) EmptyString.
Definition screen_ClearLine : string := ESC +:+ "[2K".
Definition screen_ClearEnd : string := ESC +:+ "[0K".

(** A logger: its history (nil or the messages) and the debug flag. *)
Record Logger_ : Type := mkLoggerState {
  history : option (list string);
  debug : bool
}.

(** [NewLogger]: [&Logger{}]. *)
Definition NewLogger : Logger_ * option error := (mkLoggerState None false, None).

(** [l.history.add(message)]; [None] is the panic of a nil history. *)
Definition Logger_history_add (message : string) (l : Logger_) : option Logger_ :=
  match history l with
  | Some messages => Some (mkLoggerState (Some (History_add message messages)) (debug l))
  | None => None
  end.

Definition Logger_Notify (colors : Colors) (text colour : string) (l : Logger_)
    : option Logger_ :=
  Logger_history_add
    (screen_ClearLine +:+ colour +:+ text +:+ color_Reset colors +:+ screen_ClearEnd) l.

Definition Logger_Trace (colors : Colors) (text : string) (l : Logger_) : option Logger_ :=
  if debug l then
    Logger_history_add
      (color_White colors +:+ text +:+ color_Reset colors +:+ screen_ClearEnd) l
  else Some l.

Definition Logger_Debug (colors : Colors) (text : string) (l : Logger_) : option Logger_ :=
  if debug l then Logger_Notify colors text (color_White colors) l
  else
    Logger_history_add
      (color_White colors +:+ text +:+ color_Reset colors +:+ screen_ClearEnd) l.

Definition Logger_Info (colors : Colors) (text : string) (l : Logger_) : option Logger_ :=
  Logger_Notify colors text (color_BrightWhite colors) l.

Definition Logger_Warn (colors : Colors) (text : string) (l : Logger_) : option Logger_ :=
  Logger_Notify colors text (color_BrightYellow colors) l.

Definition Logger_Error (colors : Colors) (text : string) (l : Logger_) : option Logger_ :=
  Logger_Notify colors text (color_BrightRed colors) l.

(** The level methods that take a text. *)
Inductive log_level : Type := LTrace | LDebug | LInfo | LWarn | LError.

Definition Logger_log (colors : Colors) (lv : log_level) (text : string) (l : Logger_)
    : option Logger_ :=
  match lv with
  | LTrace => Logger_Trace colors text l
  | LDebug => Logger_Debug colors text l
  | LInfo => Logger_Info colors text l
  | LWarn => Logger_Warn colors text l
  | LError => Logger_Error colors text l
  end.

(** *** The watcher's cases *)

Definition isTick (sel : selected) : bool :=
  match sel with SelTick _ => true | _ => false end.

(** The cases after which the loop of [watch] goes on. *)
Definition continues (sel : selected) : bool :=
  match sel with
  | SelEvent ok _ _ => ok
  | SelError ok _ => ok
  | SelTick _ => true
  | SelDone => false
  end.

(** *** Shape of strings and values *)

(** [s] has no dot. *)
Fixpoint no_dot (s : string) : bool :=
  match s with
  | EmptyString => true
  | String a rest => negb (Ascii.eqb a (Ascii.ascii_of_nat 46)) && no_dot rest
  end.

Definition with_configFile (file : string) (m : configurationMetadata) : configurationMetadata :=
  mkMetadata (appName m) file (homeDir m) (configDir m) (load m) (watch_ m) (wg m) (watcher m).

Definition isMap (d : dyn) : bool := match d with DMap _ => true | _ => false end.

Definition section_key (key : string) : bool :=
  String.eqb key "logger" || String.eqb key "console".

(** The error [unmarshalLoad] returns for a section that is not a map. *)
Definition sectionNotMapError (key : string) : error :=
  InvalidInitConfigError ErrUnmarshalLoggerData
    (Some (errorString (key +:+ " != map[string]interface{}"))) None.

(** Every recognised section of the mapping is itself a mapping. *)
Definition sections_are_maps (values : list (string * dyn)) : Prop :=
  forall k v, In (k, v) values -> section_key k = true -> isMap v = true.

(** No entry of the mapping is a recognised section. *)
Definition no_sections (values : list (string * dyn)) : Prop :=
  forall k v, In (k, v) values -> section_key k = false.

(** The decoder [unmarshalLoad] runs for a recognised section; its error. *)
Definition section_error (key : string) (m : list (string * dyn)) : option error :=
  if String.eqb key "logger" then snd (newLoggerConfiguration m)
  else snd (newConsoleConfiguration m).

(** A float64 that holds the whole number [n]. *)
Definition float64_of_Z (n : Z) : float64 := F64 n 0.

(** The value a JSON decoder delivers where a YAML decoder delivers [v]:
    every number is a float64. *)
Definition as_json (v : dyn) : dyn :=
  match v with
  | DInt n => DFloat64 (float64_of_Z n)
  | _ => v
  end.

Definition entries_as_json (values : list (string * dyn)) : list (string * dyn) :=
  map (fun kv => (fst kv, as_json (snd kv))) values.

(** The whole numbers a float64 holds exactly. *)
Definition exact_in_float64 (v : dyn) : Prop :=
  match v with
  | DInt n => Z.abs n <= 2 ^ 53
  | _ => True
  end.

(** More test data. *)
Definition plain_colors : Colors := mkColors "<reset>" "<white>" "<bright>" "<yellow>" "<red>".

Definition full_history : list string := repeat "old" 1000.

(** A process in which the current user cannot be looked up, and one in
    which no file watcher can be created. *)
Definition noUserOS : OS :=
  mkOS (os_Args0 testOS) (inr (errorString "user: Current requires cgo"))
       (filepath_Join testOS) (fsnotify_NewWatcher testOS) (os_ReadFile testOS)
       (os_Getenv testOS) (json_Unmarshal testOS) (yaml_Unmarshal testOS)
       (unicode_ToLower testOS).

Definition noWatcherOS : OS :=
  mkOS (os_Args0 testOS) (user_Current testOS) (filepath_Join testOS)
       (inr (errorString "too many open files")) (os_ReadFile testOS)
       (os_Getenv testOS) (json_Unmarshal testOS) (yaml_Unmarshal testOS)
       (unicode_ToLower testOS).

(** A structure that embeds a struct of unexported type with an exported
    pointer field, which Go promotes to the structure. *)
Definition promotedInner : gtype :=
  TStruct "clif.inner" [ mkField "Ptr" "" false (TPtr WalkerC) ].

Definition configPromoted : gtype :=
  TStruct "clif.configPromoted"
    [ mkField "inner" clifPkg true promotedInner;
      mkField "Core" "" false configurationTypePtr ].

(** What the test document supplies to [WalkerA]. *)
Definition test_content : document :=
  fun path =>
    match path with
    | [1%nat] => Some (DString "walkerA.external")
    | [8%nat; 1%nat] => Some (DString "walkerB.external")
    | [8%nat; 2%nat; 1%nat] => Some (DString "walkerBC.external")
    | [8%nat; 3%nat; 1%nat] => Some (DString "walkerBCPtr.external")
    | _ => None
    end.

(** A YAML decoder for a document whose entry for the anchor of
    [configDPtr] (field 1) is null, and a process that has it. *)
Definition decode_null_core : Unmarshaler :=
  fun bs t vals => mkDecoded (<[1%nat := VPtr None]> vals) None None.

Definition nullCoreOS : OS :=
  mkOS (os_Args0 testOS) (user_Current testOS) (filepath_Join testOS)
       (fsnotify_NewWatcher testOS) (os_ReadFile testOS) (os_Getenv testOS)
       (json_Unmarshal testOS) decode_null_core (unicode_ToLower testOS).

(** A provider that refuses the fields that hold an int. *)
Definition refuseNumbers : processFunc :=
  fun fv ft level key =>
    match fv with
    | DInt _ => (fv, Some (errorString ("no provider for " +:+ key +:+ Name ft)))
    | _ => (fv, None)
    end.

(** Case analysis on an index into a list that is written out. *)
Ltac list_index H i :=
  repeat (destruct i as [| i]; [| cbn in H; try discriminate H]).

(** * Properties *)

(** ** Replay of the package's tests of [InitConfig] *)

Example test_nil :
  error_text (InitConfig testOS INil test_options) = "configuration error - InitConfig(nil)".
Proof. reflexivity. Qed.

Example test_no_fields :
  error_text (InitConfig testOS (IVal configA (zero configA)) test_options)
  = "configuration error - InitConfig(non-pointer clif.configA)".
Proof. reflexivity. Qed.

Example test_no_core :
  error_text (InitConfig testOS (addressOf configB (zero configB)) test_options)
  = "configuration error - InitConfig(core configuration not present)".
Proof. reflexivity. Qed.

Example test_non_pointer_embedded :
  error_text (InitConfig testOS (addressOf configC (zero configC)) test_options)
  = "configuration error - InitConfig(non-pointer of embedded clif.Configuration)".
Proof. reflexivity. Qed.

Example test_pointer_embedded :
  error_text (InitConfig testOS (addressOf configCPtr (zero configCPtr)) test_options)
  = "configuration error - InitConfig(core configuration is anonymous)".
Proof. reflexivity. Qed.

Example test_non_pointer_field :
  error_text (InitConfig testOS (addressOf configD (zero configD)) test_options)
  = "configuration error - InitConfig(non-pointer of embedded clif.Configuration)".
Proof. reflexivity. Qed.

Example test_pointer_field :
  ret (InitConfig testOS (addressOf configDPtr (zero configDPtr)) test_options) = RetNil
  /\ exists core, value_at (graph_value
                     (InitConfig testOS (addressOf configDPtr (zero configDPtr)) test_options))
                     [1%nat; 1%nat; 1%nat] = Some core
     /\ core = VLeaf (DString "config.yaml").
Proof. split; [reflexivity | eexists; split; reflexivity]. Qed.

(** The walker test: the values of the file arrive in the caller's
    structure and in the sections of the core configuration. *)
Example test_walker :
  let r := InitConfig testOS (addressOf WalkerA walkerA_value) walker_options in
  ret r = RetNil
  /\ value_at (graph_value r) [1%nat] = Some (VLeaf (DString "walkerA.external"))
  /\ value_at (graph_value r) [8%nat; 1%nat] = Some (VLeaf (DString "walkerB.external"))
  /\ value_at (graph_value r) [8%nat; 3%nat; 1%nat]
     = Some (VLeaf (DString "walkerBCPtr.external"))
  /\ value_at (graph_value r) [10%nat; 2%nat; 0%nat; 0%nat] = Some (VLeaf (DString "debug"))
  /\ value_at (graph_value r) [10%nat; 2%nat; 0%nat; 1%nat] = Some (VLeaf (DBool true))
  /\ value_at (graph_value r) [10%nat; 3%nat; 0%nat; 0%nat] = Some (VLeaf (DInt 50))
  /\ value_at (graph_value r) [10%nat; 3%nat; 0%nat; 1%nat] = Some (VLeaf (DInt 10)).
Proof. vm_compute. repeat split; reflexivity. Qed.

(** A pointer to a type defined from the core configuration converts to
    the pointer to the core configuration, but the core configuration
    cannot be assigned to it: [field.Set] panics. *)
Example test_alias_of_core :
  CanConvert (TPtr coreAlias) configurationTypePtr = true
  /\ ret (InitConfig testOS (addressOf configAlias (zero configAlias)) test_options)
     = RetPanic.
Proof. split; reflexivity. Qed.

(** ** Section decoders *)

Lemma logger_range_reject (values : list (string * dyn)) (c : loggerConfigurationData) :
  (exists k v, In (k, v) values /\ logger_accepts k v = false) ->
  exists k v, In (k, v) values /\ logger_accepts k v = false /\
    newLoggerConfiguration_range values c
    = (None, Some (unmarshalTypeError ErrLoggerUnmarshalType k)).
Proof.
  revert c. induction values as [| [k0 v0] rest IH]; intros c (k & v & Hin & Hacc).
  - destruct Hin.
  - destruct (logger_accepts k0 v0) eqn:Hhead.
    + assert (Hrest : exists k v, In (k, v) rest /\ logger_accepts k v = false).
      { destruct Hin as [Heq | Hin]; [| eauto].
        inversion Heq; subst. congruence. }
      assert (Hstep : forall c', exists c'',
                 newLoggerConfiguration_range ((k0, v0) :: rest) c'
                 = newLoggerConfiguration_range rest c'').
      { intros c'. unfold logger_accepts in Hhead. simpl.
        destruct (String.eqb k0 "level").
        - destruct v0; try discriminate. simpl. eauto.
        - destruct (String.eqb k0 "colorized").
          + destruct v0; try discriminate. simpl. eauto.
          + eauto. }
      destruct (Hstep c) as [c'' Hc'']. rewrite Hc''.
      destruct (IH c'' Hrest) as (k' & v' & Hin' & Hacc' & Hrun).
      exists k', v'. split; [right; exact Hin' | split; assumption].
    + exists k0, v0. split; [left; reflexivity | split; [assumption |]].
      unfold logger_accepts in Hhead. simpl.
      destruct (String.eqb_spec k0 "level"); subst.
      * destruct v0; try discriminate; reflexivity.
      * destruct (String.eqb_spec k0 "colorized"); subst; [| discriminate].
        destruct v0; try discriminate; reflexivity.
Qed.

Lemma console_range_reject (values : list (string * dyn)) (c : consoleConfigurationData) :
  (exists k v, In (k, v) values /\ console_accepts k v = false) ->
  exists k v, In (k, v) values /\ console_accepts k v = false /\
    newConsoleConfiguration_range values c
    = (None, Some (unmarshalTypeError ErrConsoleUnmarshalType k)).
Proof.
  revert c. induction values as [| [k0 v0] rest IH]; intros c (k & v & Hin & Hacc).
  - destruct Hin.
  - destruct (console_accepts k0 v0) eqn:Hhead.
    + assert (Hrest : exists k v, In (k, v) rest /\ console_accepts k v = false).
      { destruct Hin as [Heq | Hin]; [| eauto].
        inversion Heq; subst. congruence. }
      assert (Hstep : forall c', exists c'',
                 newConsoleConfiguration_range ((k0, v0) :: rest) c'
                 = newConsoleConfiguration_range rest c'').
      { intros c'. unfold console_accepts in Hhead. simpl.
        destruct (String.eqb k0 "width").
        - destruct v0; try discriminate; simpl; eauto.
        - destruct (String.eqb k0 "height").
          + destruct v0; try discriminate; simpl; eauto.
          + eauto. }
      destruct (Hstep c) as [c'' Hc'']. rewrite Hc''.
      destruct (IH c'' Hrest) as (k' & v' & Hin' & Hacc' & Hrun).
      exists k', v'. split; [right; exact Hin' | split; assumption].
    + exists k0, v0. split; [left; reflexivity | split; [assumption |]].
      unfold console_accepts in Hhead. simpl.
      destruct (String.eqb_spec k0 "width"); subst.
      * destruct v0; try discriminate; reflexivity.
      * destruct (String.eqb_spec k0 "height"); subst; [| discriminate].
        destruct v0; try discriminate; reflexivity.
Qed.

Lemma not_in_keys_tail (k k0 : string) (v0 : dyn) (rest : list (string * dyn)) :
  ~ In k (map fst ((k0, v0) :: rest)) -> k <> k0 /\ ~ In k (map fst rest).
Proof. simpl. intros H. split; intros ?; apply H; auto. Qed.

Lemma in_keys (k : string) (v : dyn) (values : list (string * dyn)) :
  In (k, v) values -> In k (map fst values).
Proof. intros H. apply (in_map fst) in H. exact H. Qed.

(** When every value is acceptable the logger decoder returns a
    configuration whose fields are the values bound to [level] and
    [colorized], and the initial ones for a key the section lacks. *)
Lemma logger_range_accept (values : list (string * dyn)) (c : loggerConfigurationData) :
  (forall k v, In (k, v) values -> logger_accepts k v = true) ->
  exists c', newLoggerConfiguration_range values c = (Some (mkLogger (Some c')), None)
    /\ (~ In "level" (map fst values) -> level c' = level c)
    /\ (~ In "colorized" (map fst values) -> colorized c' = colorized c)
    /\ (NoDup (map fst values) ->
        (forall s, In ("level", DString s) values -> level c' = s)
        /\ (forall b, In ("colorized", DBool b) values -> colorized c' = b)).
Proof.
  revert c. induction values as [| [k0 v0] rest IH]; intros c Hall.
  - exists c. simpl. repeat split; intros; try tauto; contradiction.
  - assert (Hhead : logger_accepts k0 v0 = true) by (apply Hall; left; reflexivity).
    assert (Hrest : forall k v, In (k, v) rest -> logger_accepts k v = true)
      by (intros; apply Hall; right; assumption).
    unfold logger_accepts in Hhead. cbn [newLoggerConfiguration_range].
    destruct (String.eqb_spec k0 "level") as [-> | Hlv].
    + destruct v0; try discriminate. cbn [toString].
      destruct (IH (mkLoggerData s (colorized c)) Hrest) as (c' & Hrun & Hl & Hc & Hnd).
      exists c'. split; [exact Hrun |]. split; [| split].
      * intros Hn. exfalso. apply Hn. left. reflexivity.
      * intros Hn. apply not_in_keys_tail in Hn. destruct Hn as [_ Hn].
        rewrite (Hc Hn). reflexivity.
      * intros Hdup. inversion Hdup as [| ? ? Hnotin Hdup']; subst.
        rewrite list_elem_of_In in Hnotin. split.
        -- intros s' [Heq | Hin].
           ++ inversion Heq; subst. rewrite (Hl Hnotin). reflexivity.
           ++ exfalso. apply Hnotin. eapply in_keys. exact Hin.
        -- intros b [Heq | Hin]; [discriminate |].
           apply (proj2 (Hnd Hdup')). exact Hin.
    + destruct (String.eqb_spec k0 "colorized") as [-> | Hcz].
      * destruct v0; try discriminate. cbn [toBool].
        destruct (IH (mkLoggerData (level c) b) Hrest) as (c' & Hrun & Hl & Hc & Hnd).
        exists c'. split; [exact Hrun |]. split; [| split].
        -- intros Hn. apply not_in_keys_tail in Hn. destruct Hn as [_ Hn].
           rewrite (Hl Hn). reflexivity.
        -- intros Hn. exfalso. apply Hn. left. reflexivity.
        -- intros Hdup. inversion Hdup as [| ? ? Hnotin Hdup']; subst.
        rewrite list_elem_of_In in Hnotin. split.
           ++ intros s' [Heq | Hin]; [discriminate |].
              apply (proj1 (Hnd Hdup')). exact Hin.
           ++ intros b' [Heq | Hin].
              ** inversion Heq; subst. rewrite (Hc Hnotin). reflexivity.
              ** exfalso. apply Hnotin. eapply in_keys. exact Hin.
      * destruct (IH c Hrest) as (c' & Hrun & Hl & Hc & Hnd).
        exists c'. split; [exact Hrun |]. split; [| split].
        -- intros Hn. apply not_in_keys_tail in Hn. apply Hl, Hn.
        -- intros Hn. apply not_in_keys_tail in Hn. apply Hc, Hn.
        -- intros Hdup. inversion Hdup as [| ? ? Hnotin Hdup']; subst.
        rewrite list_elem_of_In in Hnotin. split.
           ++ intros s' [Heq | Hin]; [inversion Heq; subst; contradiction |].
              apply (proj1 (Hnd Hdup')). exact Hin.
           ++ intros b' [Heq | Hin]; [inversion Heq; subst; contradiction |].
              apply (proj2 (Hnd Hdup')). exact Hin.
Qed.

Lemma console_range_accept (values : list (string * dyn)) (c : consoleConfigurationData) :
  (forall k v, In (k, v) values -> console_accepts k v = true) ->
  exists c', newConsoleConfiguration_range values c = (Some (mkConsole (Some c')), None)
    /\ (~ In "width" (map fst values) -> width c' = width c)
    /\ (~ In "height" (map fst values) -> height c' = height c)
    /\ (NoDup (map fst values) ->
        (forall v, In ("width", v) values -> width c' = coerced_int v)
        /\ (forall v, In ("height", v) values -> height c' = coerced_int v)).
Proof.
  revert c. induction values as [| [k0 v0] rest IH]; intros c Hall.
  - exists c. simpl. repeat split; intros; try tauto; contradiction.
  - assert (Hhead : console_accepts k0 v0 = true) by (apply Hall; left; reflexivity).
    assert (Hrest : forall k v, In (k, v) rest -> console_accepts k v = true)
      by (intros; apply Hall; right; assumption).
    unfold console_accepts in Hhead. cbn [newConsoleConfiguration_range].
    destruct (String.eqb_spec k0 "width") as [-> | Hw].
    + assert (Hto : toInt "width" v0 = (coerced_int v0, None))
        by (destruct v0; try discriminate; reflexivity).
      rewrite Hto.
      destruct (IH (mkConsoleData (coerced_int v0) (height c)) Hrest)
        as (c' & Hrun & Hwd & Hht & Hnd).
      exists c'. split; [exact Hrun |]. split; [| split].
      * intros Hn. exfalso. apply Hn. left. reflexivity.
      * intros Hn. apply not_in_keys_tail in Hn. destruct Hn as [_ Hn].
        rewrite (Hht Hn). reflexivity.
      * intros Hdup. inversion Hdup as [| ? ? Hnotin Hdup']; subst.
        rewrite list_elem_of_In in Hnotin. split.
        -- intros v [Heq | Hin].
           ++ inversion Heq; subst. rewrite (Hwd Hnotin). reflexivity.
           ++ exfalso. apply Hnotin. eapply in_keys. exact Hin.
        -- intros v [Heq | Hin]; [discriminate |].
           apply (proj2 (Hnd Hdup')). exact Hin.
    + destruct (String.eqb_spec k0 "height") as [-> | Hh].
      * assert (Hto : toInt "height" v0 = (coerced_int v0, None))
          by (destruct v0; try discriminate; reflexivity).
        rewrite Hto.
        destruct (IH (mkConsoleData (width c) (coerced_int v0)) Hrest)
          as (c' & Hrun & Hwd & Hht & Hnd).
        exists c'. split; [exact Hrun |]. split; [| split].
        -- intros Hn. apply not_in_keys_tail in Hn. destruct Hn as [_ Hn].
           rewrite (Hwd Hn). reflexivity.
        -- intros Hn. exfalso. apply Hn. left. reflexivity.
        -- intros Hdup. inversion Hdup as [| ? ? Hnotin Hdup']; subst.
           rewrite list_elem_of_In in Hnotin. split.
           ++ intros v [Heq | Hin]; [discriminate |].
              apply (proj1 (Hnd Hdup')). exact Hin.
           ++ intros v [Heq | Hin].
              ** inversion Heq; subst. rewrite (Hht Hnotin). reflexivity.
              ** exfalso. apply Hnotin. eapply in_keys. exact Hin.
      * destruct (IH c Hrest) as (c' & Hrun & Hwd & Hht & Hnd).
        exists c'. split; [exact Hrun |]. split; [| split].
        -- intros Hn. apply not_in_keys_tail in Hn. apply Hwd, Hn.
        -- intros Hn. apply not_in_keys_tail in Hn. apply Hht, Hn.
        -- intros Hdup. inversion Hdup as [| ? ? Hnotin Hdup']; subst. split.
           ++ intros v [Heq | Hin]; [inversion Heq; subst; contradiction |].
              apply (proj1 (Hnd Hdup')). exact Hin.
           ++ intros v [Heq | Hin]; [inversion Heq; subst; contradiction |].
              apply (proj2 (Hnd Hdup')). exact Hin.
Qed.

(** The text of a decoder's error names the key, and the error wraps the
    sentinel of its section. *)
Lemma unmarshalTypeError_text (sentinel : error) (key : string) :
  Error (unmarshalTypeError sentinel key)
  = Error sentinel +:+ ": " +:+ "invalid data type - " +:+ key +:+ " != int"
  /\ (forall text, sentinel = errorString text ->
      errors_Is (unmarshalTypeError sentinel key) text = true).
Proof.
  split; [reflexivity |]. intros text ->. simpl. apply String.eqb_refl.
Qed.

(** C3, as the code has it.  For a section whose keys are distinct:
    the logger decoder succeeds when [level] is a string and [colorized] a
    bool, and the fields then hold those values; the console decoder
    succeeds when [width] and [height] are an int or a float64, and the
    fields then hold the int, or the float64 converted by [int(f)]; a value
    of any other type makes the decoder fail with the section's
    unmarshal-type error naming a key with such a value. *)
Theorem C3_section_decoders (values : list (string * dyn)) :
  NoDup (map fst values) ->
  ((forall k v, In (k, v) values -> logger_accepts k v = true) ->
     exists c, newLoggerConfiguration values = (Some (mkLogger (Some c)), None)
       /\ (forall s, In ("level", DString s) values -> level c = s)
       /\ (forall b, In ("colorized", DBool b) values -> colorized c = b))
  /\ ((exists k v, In (k, v) values /\ logger_accepts k v = false) ->
     exists k v, In (k, v) values /\ logger_accepts k v = false /\
       newLoggerConfiguration values
       = (None, Some (unmarshalTypeError ErrLoggerUnmarshalType k)))
  /\ ((forall k v, In (k, v) values -> console_accepts k v = true) ->
     exists c, newConsoleConfiguration values = (Some (mkConsole (Some c)), None)
       /\ (forall v, In ("width", v) values -> width c = coerced_int v)
       /\ (forall v, In ("height", v) values -> height c = coerced_int v))
  /\ ((exists k v, In (k, v) values /\ console_accepts k v = false) ->
     exists k v, In (k, v) values /\ console_accepts k v = false /\
       newConsoleConfiguration values
       = (None, Some (unmarshalTypeError ErrConsoleUnmarshalType k))).
Proof.
  intros Hdup. split; [| split; [| split]].
  - intros Hall.
    destruct (logger_range_accept values (mkLoggerData "" false) Hall)
      as (c & Hrun & _ & _ & Hnd).
    exists c. split; [exact Hrun |]. exact (Hnd Hdup).
  - apply logger_range_reject.
  - intros Hall.
    destruct (console_range_accept values (mkConsoleData 0 0) Hall)
      as (c & Hrun & _ & _ & Hnd).
    exists c. split; [exact Hrun |]. exact (Hnd Hdup).
  - apply console_range_reject.
Qed.

Lemma section_sample_NoDup : NoDup (map fst section_sample).
Proof. apply (bool_decide_unpack _). vm_compute. reflexivity. Qed.

Lemma C3_section_decoders_witness :
  exists lc cc,
    newLoggerConfiguration section_sample = (Some (mkLogger (Some lc)), None)
    /\ level lc = "debug" /\ colorized lc = true
    /\ newConsoleConfiguration section_sample = (Some (mkConsole (Some cc)), None)
    /\ width cc = 50 /\ height cc = 10.
Proof.
  destruct (C3_section_decoders section_sample section_sample_NoDup)
    as (Hl & _ & Hc & _).
  destruct Hl as (lc & Hlrun & Hlevel & Hcol).
  { intros k v Hin. simpl in Hin.
    repeat (destruct Hin as [Heq | Hin]; [inversion Heq; reflexivity |]).
    destruct Hin. }
  destruct Hc as (cc & Hcrun & Hwidth & Hheight).
  { intros k v Hin. simpl in Hin.
    repeat (destruct Hin as [Heq | Hin]; [inversion Heq; reflexivity |]).
    destruct Hin. }
  exists lc, cc. split; [exact Hlrun |].
  split; [apply Hlevel; simpl; auto |].
  split; [apply Hcol; simpl; auto |].
  split; [exact Hcrun |].
  split; [apply (Hwidth (DInt 50)); simpl; auto |].
  apply (Hheight (DFloat64 (F64 21 (-1)))); simpl; auto 6.
Defined.

(** C3 as stated fails: a float64 is not an int, and the console decoder
    takes it for [width] all the same, storing its integral part. *)
Lemma C3_float64_width_is_decoded :
  (forall i, DFloat64 (F64 5 (-1)) <> DInt i)
  /\ newConsoleConfiguration [("width", DFloat64 (F64 5 (-1)))]
     = (Some (mkConsole (Some (mkConsoleData 2 0))), None).
Proof. split; [intros i H; discriminate H | reflexivity]. Qed.

(** ** Top-level mapping of the file *)

Lemma unmarshalLoad_range_skip (k : string) (v : dyn) (rest : list (string * dyn))
    (c : Configuration) (err : option error) :
  k <> "logger" -> k <> "console" ->
  unmarshalLoad_range ((k, v) :: rest) c err = unmarshalLoad_range rest c err.
Proof.
  intros Hl Hc. cbn [unmarshalLoad_range].
  destruct (String.eqb_spec k "logger"); [contradiction |].
  destruct (String.eqb_spec k "console"); [contradiction |].
  reflexivity.
Qed.

Lemma unmarshalLoad_range_drop (before after : list (string * dyn)) (k : string) (v : dyn)
    (c : Configuration) (err : option error) :
  k <> "logger" -> k <> "console" ->
  unmarshalLoad_range (before ++ (k, v) :: after) c err
  = unmarshalLoad_range (before ++ after) c err.
Proof.
  intros Hl Hc. revert c err.
  induction before as [| [k0 v0] before IH]; intros c err.
  - apply unmarshalLoad_range_skip; assumption.
  - cbn [app unmarshalLoad_range].
    destruct (String.eqb k0 "logger").
    + destruct v0; try reflexivity.
      destruct (newLoggerConfiguration m) as [lg err']. apply IH.
    + destruct (String.eqb k0 "console").
      * destruct v0; try reflexivity.
        destruct (newConsoleConfiguration m) as [cs err']. apply IH.
      * apply IH.
Qed.

(** C7.  A key other than [logger] and [console] has no effect on what
    [unmarshalLoad] does: wherever the iteration meets it, the outcome (the
    error and every section of the core configuration) is the same as
    without the entry; alone, it yields no error and the configuration
    unchanged. *)
Theorem C7_unrecognised_key_ignored (before after : list (string * dyn))
    (k : string) (v : dyn) (c : Configuration) :
  k <> "logger" -> k <> "console" ->
  unmarshalLoad (before ++ (k, v) :: after) c = unmarshalLoad (before ++ after) c
  /\ unmarshalLoad [(k, v)] c = (c, None).
Proof.
  intros Hl Hc. split.
  - apply unmarshalLoad_range_drop; assumption.
  - unfold unmarshalLoad. rewrite unmarshalLoad_range_skip by assumption. reflexivity.
Qed.

Lemma C7_unrecognised_key_ignored_witness :
  unmarshalLoad test_document emptyConfiguration
  = unmarshalLoad (List.tail test_document) emptyConfiguration
  /\ unmarshalLoad [("theme", DMap [("name", DString "dark")])] emptyConfiguration
     = (emptyConfiguration, None).
Proof.
  apply (C7_unrecognised_key_ignored [] (List.tail test_document) "theme"
           (DMap [("name", DString "dark")]) emptyConfiguration);
    intros H; discriminate H.
Defined.

(** The sections of the test document arrive in the core configuration. *)
Example unmarshalLoad_test_document :
  unmarshalLoad test_document emptyConfiguration
  = (mkConfiguration None None
       (Some (mkLogger (Some (mkLoggerData "debug" true))))
       (Some (mkConsole (Some (mkConsoleData 50 10)))),
     None).
Proof. reflexivity. Qed.

(** ** Notification registry and timer tick *)

Lemma notifications_app (s : string) (l1 l2 : list event) :
  notifications s (l1 ++ l2) = notifications s l1 ++ notifications s l2.
Proof. unfold notifications. apply omap_app. Qed.

Lemma notify_range_notifications (s setting value : string)
    (funcs : list ConfigurationNotifyFunc) (env : Env) :
  notifications s (snd (notify_range setting value funcs env))
  = if String.eqb setting s then map (fun f => (nf_id f, setting, value)) funcs else [].
Proof.
  revert env. induction funcs as [| f rest IH]; intros env.
  - simpl. destruct (String.eqb setting s); reflexivity.
  - cbn [notify_range].
    destruct (notify_range setting value rest (nf_run f setting value env))
      as [env2 evs] eqn:Hrest.
    specialize (IH (nf_run f setting value env)). rewrite Hrest in IH.
    cbn [snd] in *. unfold notifications in *. cbn [omap list_omap].
    destruct (String.eqb setting s); [cbn; rewrite IH; reflexivity | exact IH].
Qed.

Lemma checkForEnvChange_range_app (pre rest : list (string * list ConfigurationNotifyFunc))
    (env : Env) :
  checkForEnvChange_range (pre ++ rest) env
  = let '(env1, evs1) := checkForEnvChange_range pre env in
    let '(env2, evs2) := checkForEnvChange_range rest env1 in
    (env2, evs1 ++ evs2).
Proof.
  revert env. induction pre as [| [setting funcs] pre IH]; intros env.
  - cbn. destruct (checkForEnvChange_range rest env); reflexivity.
  - cbn [app checkForEnvChange_range].
    destruct (notify_range setting (env setting) funcs env) as [env1 evs1].
    rewrite IH.
    destruct (checkForEnvChange_range pre env1) as [env2 evs2].
    destruct (checkForEnvChange_range rest env2) as [env3 evs3].
    cbn. rewrite <- app_assoc. reflexivity.
Qed.

Lemma checkForEnvChange_range_other (s : string)
    (entries : list (string * list ConfigurationNotifyFunc)) (env : Env) :
  ~ In s (map fst entries) ->
  notifications s (snd (checkForEnvChange_range entries env)) = [].
Proof.
  revert env. induction entries as [| [setting funcs] rest IH]; intros env Hnot.
  - reflexivity.
  - cbn [checkForEnvChange_range].
    pose proof (notify_range_notifications s setting (env setting) funcs env) as Hn.
    destruct (notify_range setting (env setting) funcs env) as [env1 evs1].
    assert (Hrest : ~ In s (map fst rest)) by (intros ?; apply Hnot; right; assumption).
    specialize (IH env1 Hrest).
    destruct (checkForEnvChange_range rest env1) as [env2 evs2].
    cbn [snd] in *.
    change (notifications s (EvMapRange setting :: EvGetenv setting :: evs1 ++ evs2))
      with (notifications s (evs1 ++ evs2)).
    rewrite notifications_app, IH, Hn.
    destruct (String.eqb_spec setting s) as [-> | _]; [| reflexivity].
    exfalso. apply Hnot. left. reflexivity.
Qed.

(** The callbacks stored for a setting after a sequence of registrations:
    those already there, followed by the new ones in registration order. *)
Lemma register_all_lookup (regs : list (string * ConfigurationNotifyFunc))
    (c : configurationData) (s : string) :
  notifyFuncs (register_all regs c) !! s
  = match callbacks_for s regs with
    | [] => notifyFuncs c !! s
    | added => Some (default [] (notifyFuncs c !! s) ++ added)
    end.
Proof.
  revert c. induction regs as [| [setting f] rest IH]; intros c.
  - reflexivity.
  - cbn [register_all]. rewrite IH. unfold callbacks_for. cbn [omap list_omap fst snd].
    cbn [AddNotifyOnChange fst notifyFuncs].
    destruct (String.eqb_spec setting s) as [-> | Hne].
    + rewrite lookup_insert_eq. cbn [default].
      change (list_omap ?f ?l) with (omap f l).
      destruct (notifyFuncs c !! s) as [old |]; cbn [default];
        destruct (omap _ rest); cbn; rewrite <- ?app_assoc; reflexivity.
    + rewrite lookup_insert_ne by assumption. reflexivity.
Qed.

Lemma callbacks_for_nonempty (s : string) (regs : list (string * ConfigurationNotifyFunc)) :
  In s (map fst regs) -> callbacks_for s regs <> [].
Proof.
  induction regs as [| [setting f] rest IH]; intros Hin.
  - destruct Hin.
  - unfold callbacks_for. cbn [omap list_omap fst snd].
    destruct (String.eqb_spec setting s) as [-> | Hne]; [discriminate |].
    destruct Hin as [Heq | Hin]; [contradiction |]. apply IH, Hin.
Qed.

Lemma notify_range_env_fixed (setting value : string)
    (funcs : list ConfigurationNotifyFunc) (env : Env) :
  (forall f, In f funcs -> forall s v e, nf_run f s v e = e) ->
  fst (notify_range setting value funcs env) = env.
Proof.
  revert env. induction funcs as [| f rest IH]; intros env Hpure; [reflexivity |].
  cbn [notify_range]. rewrite (Hpure f) by (left; reflexivity).
  specialize (IH env (fun g Hg => Hpure g (or_intror Hg))).
  destruct (notify_range setting value rest env). exact IH.
Qed.

Lemma checkForEnvChange_range_env_fixed
    (entries : list (string * list ConfigurationNotifyFunc)) (env : Env) :
  (forall s funcs f, In (s, funcs) entries -> In f funcs ->
     forall s' v e, nf_run f s' v e = e) ->
  fst (checkForEnvChange_range entries env) = env.
Proof.
  revert env. induction entries as [| [setting funcs] rest IH]; intros env Hpure;
    [reflexivity |].
  cbn [checkForEnvChange_range].
  pose proof (notify_range_env_fixed setting (env setting) funcs env
                (fun f Hf => Hpure setting funcs f (or_introl eq_refl) Hf)) as H1.
  destruct (notify_range setting (env setting) funcs env) as [env1 evs1].
  cbn [fst] in H1. subst env1.
  specialize (IH env (fun s fs f Hin Hf => Hpure s fs f (or_intror Hin) Hf)).
  destruct (checkForEnvChange_range rest env). exact IH.
Qed.

Lemma callbacks_for_In (s : string) (f : ConfigurationNotifyFunc)
    (regs : list (string * ConfigurationNotifyFunc)) :
  In f (callbacks_for s regs) -> In (s, f) regs.
Proof.
  induction regs as [| [setting g] rest IH]; intros Hin; [destruct Hin |].
  unfold callbacks_for in Hin. cbn [omap list_omap fst snd] in Hin.
  destruct (String.eqb_spec setting s) as [-> | Hne].
  - destruct Hin as [-> | Hin]; [left; reflexivity | right; apply IH, Hin].
  - right. apply IH, Hin.
Qed.

Lemma registry_entry (regs : list (string * ConfigurationNotifyFunc)) (s : string)
    (funcs : list ConfigurationNotifyFunc) :
  notifyFuncs (register_all regs (mkData ∅)) !! s = Some funcs ->
  funcs = callbacks_for s regs.
Proof.
  rewrite register_all_lookup. cbn [notifyFuncs]. rewrite lookup_empty. cbn [default].
  destruct (callbacks_for s regs); [discriminate |]. intros H. inversion H. reflexivity.
Qed.

(** C4.  On a timer tick, for a setting [s] that was registered: the
    iteration reaches the entry of [s]; the callbacks invoked for [s] are
    exactly those registered for it, in registration order, each with [s]
    and the value the environment has for [s] when the entry is reached.
    Nothing is compared with an earlier value.  When the callbacks leave the
    environment alone, that value is the one at the start of the tick. *)
Theorem C4_tick_notifies_every_callback
    (regs : list (string * ConfigurationNotifyFunc))
    (order : list (string * list ConfigurationNotifyFunc)) (env : Env) (s : string) :
  iteration_of (register_all regs (mkData ∅)) order ->
  In s (map fst regs) ->
  exists pre post,
    order = pre ++ (s, callbacks_for s regs) :: post
    /\ notifications s (snd (fst (watch_select (SelTick order) env)))
       = map (fun f => (nf_id f, s, fst (checkForEnvChange pre env) s))
             (callbacks_for s regs)
    /\ ((forall r, In r regs -> forall s' v e, nf_run (snd r) s' v e = e) ->
        fst (checkForEnvChange pre env) = env).
Proof.
  intros Hiter Hin. unfold iteration_of in Hiter.
  set (m := notifyFuncs (register_all regs (mkData ∅))) in *.
  assert (Hlook : m !! s = Some (callbacks_for s regs)).
  { unfold m. rewrite register_all_lookup. cbn [notifyFuncs].
    rewrite lookup_empty. cbn [default].
    pose proof (callbacks_for_nonempty s regs Hin) as Hne.
    destruct (callbacks_for s regs); [contradiction | reflexivity]. }
  assert (Helem : (s, callbacks_for s regs) ∈ order).
  { rewrite Hiter. apply elem_of_map_to_list. exact Hlook. }
  destruct (list_elem_of_split _ _ Helem) as (pre & post & Horder).
  assert (Hnodup : NoDup (order.*1)).
  { rewrite Hiter. apply NoDup_fst_map_to_list. }
  rewrite Horder, fmap_app, fmap_cons in Hnodup. cbn [fst] in Hnodup.
  apply NoDup_app in Hnodup. destruct Hnodup as (_ & Hdisj & Hcons).
  apply NoDup_cons in Hcons. destruct Hcons as [Hpost _].
  assert (Hpre : ~ In s (map fst pre)).
  { intros H. apply list_elem_of_In in H. apply (Hdisj s H). left. }
  assert (Hpost' : ~ In s (map fst post)).
  { intros H. apply Hpost. apply list_elem_of_In. exact H. }
  exists pre, post. split; [exact Horder |]. split.
  - cbn [watch_select]. unfold checkForEnvChange.
    rewrite Horder, checkForEnvChange_range_app.
    pose proof (checkForEnvChange_range_other s pre env Hpre) as Hn1.
    destruct (checkForEnvChange_range pre env) as [env1 evs1]. cbn [fst snd] in *.
    cbn [checkForEnvChange_range].
    pose proof (notify_range_notifications s s (env1 s) (callbacks_for s regs) env1) as Hn2.
    destruct (notify_range s (env1 s) (callbacks_for s regs) env1) as [env2 evs2].
    pose proof (checkForEnvChange_range_other s post env2 Hpost') as Hn3.
    destruct (checkForEnvChange_range post env2) as [env3 evs3]. cbn [fst snd] in *.
    change (notifications s (EvTimerStop :: ?l)) with (notifications s l).
    rewrite !notifications_app, Hn1.
    change (notifications s (EvMapRange s :: EvGetenv s :: ?l)) with (notifications s l).
    rewrite notifications_app, Hn2, Hn3, String.eqb_refl.
    change (notifications s [EvTimerReset]) with (@nil (nat * string * string)).
    cbn [app]. rewrite !app_nil_r. reflexivity.
  - intros Hpure. apply checkForEnvChange_range_env_fixed.
    intros s' funcs f Hentry Hf s'' v e.
    assert (Hentry' : (s', funcs) ∈ map_to_list m).
    { rewrite <- Hiter, Horder. apply list_elem_of_In.
      apply in_or_app. left. exact Hentry. }
    apply elem_of_map_to_list in Hentry'.
    apply registry_entry in Hentry'. subst funcs.
    apply callbacks_for_In in Hf.
    exact (Hpure (s', f) Hf s'' v e).
Qed.

Lemma C4_tick_notifies_every_callback_witness :
  exists pre post,
    map_to_list (notifyFuncs test_registry)
    = pre ++ ("APP_LOGGER_LEVEL", [notifyA; notifyB]) :: post
    /\ notifications "APP_LOGGER_LEVEL"
         (snd (fst (watch_select (SelTick (map_to_list (notifyFuncs test_registry))) test_env)))
       = [ (1%nat, "APP_LOGGER_LEVEL", "debug"); (2%nat, "APP_LOGGER_LEVEL", "debug") ].
Proof.
  destruct (C4_tick_notifies_every_callback test_registrations
              (map_to_list (notifyFuncs test_registry)) test_env "APP_LOGGER_LEVEL")
    as (pre & post & Horder & Hcalls & Hpure).
  - unfold iteration_of. reflexivity.
  - simpl. left. reflexivity.
  - exists pre, post. split; [exact Horder |].
    rewrite Hcalls, Hpure; [reflexivity |].
    intros r Hr s' v e. simpl in Hr.
    repeat (destruct Hr as [<- | Hr]; [reflexivity |]). destruct Hr.
Defined.

(** ** Lock discipline *)

Lemma AddNotifyOnChange_guarded (setting : string) (f : ConfigurationNotifyFunc)
    (c : configurationData) :
  map_access_guarded false (snd (AddNotifyOnChange setting f c)) = true.
Proof. reflexivity. Qed.

Lemma checkForEnvChange_unguarded (setting : string) (funcs : list ConfigurationNotifyFunc)
    (rest : list (string * list ConfigurationNotifyFunc)) (env : Env) :
  map_access_guarded false (snd (checkForEnvChange ((setting, funcs) :: rest) env)) = false.
Proof.
  unfold checkForEnvChange. cbn [checkForEnvChange_range].
  destruct (notify_range setting (env setting) funcs env) as [env1 evs1].
  destruct (checkForEnvChange_range rest env1) as [env2 evs2]. reflexivity.
Qed.

(** C9 fails on the code.  A registration reads and writes the registry
    map between [Lock] and [Unlock]; the tick of the watcher, run by another
    goroutine, ranges over the same map without taking the mutex. *)
Theorem C9_tick_ranges_registry_without_lock :
  map_access_guarded false
    (snd (AddNotifyOnChange "APP_LOGGER_LEVEL" notifyA (mkData ∅))) = true
  /\ notifyFuncs (fst (AddNotifyOnChange "APP_LOGGER_LEVEL" notifyA (mkData ∅)))
     = {[ "APP_LOGGER_LEVEL" := [notifyA] ]}
  /\ snd (checkForEnvChange [("APP_LOGGER_LEVEL", [notifyA])] test_env)
     = [ EvMapRange "APP_LOGGER_LEVEL"; EvGetenv "APP_LOGGER_LEVEL";
         EvNotify 1 "APP_LOGGER_LEVEL" "debug" ]
  /\ map_access_guarded false
       (snd (checkForEnvChange [("APP_LOGGER_LEVEL", [notifyA])] test_env)) = false.
Proof.
  split; [reflexivity |]. split; [| split; reflexivity].
  cbn [AddNotifyOnChange fst notifyFuncs]. rewrite lookup_empty. reflexivity.
Qed.

(** ** Struct walker *)

Lemma gtype_nested_ind (P : gtype -> Prop) :
  (forall k name, P (TBasic k name)) ->
  (forall name fields, Forall (fun f => P (FType f)) fields -> P (TStruct name fields)) ->
  (forall elem, P elem -> P (TPtr elem)) ->
  forall t, P t.
Proof.
  intros Hb Hs Hp. fix IH 1. intros [k name | name fields | elem].
  - apply Hb.
  - apply Hs. induction fields as [| f rest IHf]; constructor; [apply IH | exact IHf].
  - apply Hp, IH.
Qed.

Section WalkFacts.
Variable walk : gtype -> gval -> bool -> Z -> string -> list processFunc -> result gval.
Variable addressable : bool.
Variable level : Z.
Variable key : string.
Variable fs : list processFunc.

(** A field the walker does not look at keeps its value. *)
Lemma walk_field_unvisited (ft : StructField) (fv : gval) :
  visited ft = false ->
  walk_field walk addressable level key fs ft fv = Returned fv None.
Proof.
  unfold visited, walk_field. intros H.
  apply orb_false_iff in H. destruct H as [-> ->]. reflexivity.
Qed.

(** A successful loop went through every field: it returned, without
    error, the value that the round for that field left. *)
Lemma walk_range_rounds (fields : list StructField) (vals vals' : list gval) :
  walk_range walk addressable level key fs fields vals = Returned vals' None ->
  forall i ft, fields !! i = Some ft ->
    exists fv fv', vals !! i = Some fv /\ vals' !! i = Some fv'
      /\ walk_field walk addressable level key fs ft fv = Returned fv' None.
Proof.
  revert vals vals'. induction fields as [| ft0 fields IH]; intros vals vals' Hrun i ft Hi.
  - destruct i; discriminate Hi.
  - destruct vals as [| fv0 vals]; [discriminate Hrun |].
    cbn [walk_range] in Hrun.
    destruct (walk_field walk addressable level key fs ft0 fv0) as [fv0' [e |] |] eqn:Hround;
      try discriminate Hrun.
    destruct (walk_range walk addressable level key fs fields vals) as [vals'' e |] eqn:Hrest;
      [| discriminate Hrun].
    inversion Hrun; subst.
    destruct i as [| i].
    + inversion Hi; subst. exists fv0, fv0'. auto.
    + cbn in Hi. destruct (IH vals vals'' Hrest i ft Hi) as (fv & fv' & H1 & H2 & H3).
      exists fv, fv'. auto.
Qed.

End WalkFacts.

(** What one round of the loop does for a field the walker looks at, in a
    struct reached through a pointer. *)
Lemma walk_field_visited_eq
    (walk : gtype -> gval -> bool -> Z -> string -> list processFunc -> result gval)
    (level : Z) (key : string) (fs : list processFunc) (ft : StructField) (fv : gval) :
  visited ft = true ->
  walk_field walk true level key fs ft fv
  = match FType ft with
    | TStruct _ _ => walk (FType ft) fv true (level + 1) (key +:+ ".") fs
    | TPtr elem =>
        match fv with
        | VPtr target =>
            match walk elem (match target with Some x => x | None => zero elem end)
                    true (level + 1) (key +:+ ".") fs with
            | Returned x' err => Returned (VPtr (Some x')) err
            | Panicked => Panicked
            end
        | _ => Panicked
        end
    | TBasic _ _ =>
        match fv with
        | VLeaf d => let '(d', err) := process_range fs d ft level key in Returned (VLeaf d') err
        | _ => Panicked
        end
    end.
Proof.
  unfold visited, walk_field. intros Hv.
  destruct (IsExported ft), (CanConvert (FType ft) configurationTypePtr);
    try discriminate Hv; cbn [negb andb orb CanSet];
    destruct (FType ft); try reflexivity;
    destruct (walk _ _ _ _ _ _); reflexivity.
Qed.

Lemma process_range_providers (d : dyn) (ft : StructField) (level : Z) (key : string) :
  process_range providers d ft level key = (d, None).
Proof. reflexivity. Qed.

(** *** Allocation of nil pointers *)

Lemma walkFields_sets_pointers (t : gtype) : below_pointer walk_sets_pointers t.
Proof.
  induction t as [k name | name fields IH | elem IH] using gtype_nested_ind.
  - split; [| exact I]. intros v level key fs v' H. destruct v; discriminate H.
  - split; [| exact I]. intros v level key fs v' Hrun.
    destruct v as [| vals |]; try discriminate Hrun. cbn [walkFields] in Hrun.
    destruct (walk_range walkFields true level key fs fields vals) as [vals' e |] eqn:Hrange;
      [| discriminate Hrun].
    inversion Hrun; subst. clear Hrun.
    intros path ft fv elem Hat Hkind.
    inversion Hat as [n fds vs i ft0 fv0 Hfi Hvi Hvis
                     | n fds vs i ft0 fv0 p ft1 fv1 Hfi Hvi Hvis Hin | ]; subst.
    + destruct (walk_range_rounds _ _ _ _ _ _ _ _ Hrange i ft Hfi)
        as (fv_old & fv_new & _ & Hnew & Hround).
      rewrite Hvi in Hnew. inversion Hnew; subst.
      rewrite walk_field_visited_eq in Hround by assumption.
      rewrite Hkind in Hround.
      destruct fv_old as [| | target]; try discriminate Hround.
      destruct (walkFields elem _ true _ _ fs) as [x' err |]; [| discriminate Hround].
      inversion Hround; subst. eauto.
    + destruct (walk_range_rounds _ _ _ _ _ _ _ _ Hrange i ft0 Hfi)
        as (fv_old & fv_new & _ & Hnew & Hround).
      rewrite Hvi in Hnew. inversion Hnew; subst.
      rewrite walk_field_visited_eq in Hround by assumption.
      pose proof (Forall_lookup_1 _ _ _ _ IH Hfi) as [IHt IHe].
      destruct (FType ft0) as [k0 n0 | n0 f0 | e] eqn:Hty.
      * inversion Hin.
      * exact (IHt _ _ _ _ _ Hround p ft fv elem Hin Hkind).
      * destruct fv_old as [| | target]; try discriminate Hround.
        destruct (walkFields e _ true _ _ fs) as [x' err |] eqn:Hrec; [| discriminate Hround].
        inversion Hround; subst.
        inversion Hin; subst.
        eapply IHe; eassumption.
  - destruct IH as [IHt _]. split; [| exact IHt].
    intros v level key fs v' H. discriminate H.
Qed.

(** The pointee of a nil pointer field is a fresh zero value of the
    pointee type: the round for the field is the round for a field that
    points to such a value. *)
Lemma walk_field_allocates (level : Z) (key : string) (fs : list processFunc)
    (ft : StructField) (elem : gtype) :
  visited ft = true -> FType ft = TPtr elem ->
  walk_field walkFields true level key fs ft (VPtr None)
  = walk_field walkFields true level key fs ft (VPtr (Some (zero elem))).
Proof.
  intros Hv Hty. rewrite !walk_field_visited_eq by assumption.
  rewrite Hty. reflexivity.
Qed.

(** A walk that returns without error has gone through the whole type:
    every pointer field the walker looks at in the type is in the value
    returned, and is non-nil. *)
Lemma walkFields_allocates_pointers (t : gtype) : below_pointer walk_allocates_pointers t.
Proof.
  induction t as [k name | name fields IH | elem IH] using gtype_nested_ind.
  - split; [| exact I]. intros v level key fs v' Hrun path ft elem Hw. inversion Hw.
  - split; [| exact I]. intros v level key fs v' Hrun.
    destruct v as [| vals |]; try discriminate Hrun. cbn [walkFields] in Hrun.
    destruct (walk_range walkFields true level key fs fields vals) as [vals' e |] eqn:Hrange;
      [| discriminate Hrun].
    inversion Hrun; subst. clear Hrun.
    intros path ft elem Hw Hkind.
    inversion Hw as [n fds i ft0 Hfi Hvis | n fds i ft0 p ft1 Hfi Hvis Hin | ]; subst.
    + destruct (walk_range_rounds _ _ _ _ _ _ _ _ Hrange i ft Hfi)
        as (fv_old & fv_new & _ & Hnew & Hround).
      rewrite walk_field_visited_eq in Hround by assumption.
      rewrite Hkind in Hround.
      destruct fv_old as [| | target]; try discriminate Hround.
      destruct (walkFields elem _ true _ _ fs) as [x' err |]; [| discriminate Hround].
      inversion Hround; subst. exists x'. apply field_here; assumption.
    + destruct (walk_range_rounds _ _ _ _ _ _ _ _ Hrange i ft0 Hfi)
        as (fv_old & fv_new & _ & Hnew & Hround).
      rewrite walk_field_visited_eq in Hround by assumption.
      pose proof (Forall_lookup_1 _ _ _ _ IH Hfi) as [IHt IHe].
      destruct (FType ft0) as [k0 n0 | n0 f0 | e] eqn:Hty.
      * inversion Hin.
      * destruct (IHt _ _ _ _ _ Hround p ft elem Hin Hkind) as [x Hx].
        exists x. eapply field_inside; try eassumption. rewrite Hty. exact Hx.
      * destruct fv_old as [| | target]; try discriminate Hround.
        destruct (walkFields e _ true _ _ fs) as [x' err |] eqn:Hrec; [| discriminate Hround].
        inversion Hround; subst.
        inversion Hin; subst.
        destruct (IHe _ _ _ _ _ Hrec p ft elem ltac:(assumption) Hkind) as [x Hx].
        exists x. eapply field_inside; try eassumption. rewrite Hty.
        apply field_deref. exact Hx.
  - destruct IH as [IHt _]. split; [| exact IHt].
    intros v level key fs v' H. discriminate H.
Qed.

(** C6, as the code has it.  When [walkStructure], called on a pointer to
    a structure, returns without error, every pointer field the walker
    looks at in the type (an exported field, or the unexported pointer to
    the core configuration, reached through such fields only), at every
    depth, is present in the structure returned and is non-nil, and no
    pointer field that can be reached in that structure through such
    fields is nil.  The value the walk leaves in a nil pointer field is the
    pointer to what the walk of a fresh zero value of the pointee type
    returns. *)
Theorem C6_walk_leaves_no_nil_pointer (t : gtype) (v : gval) (level : Z) (key : string)
    (fs : list processFunc) (s' : gval) :
  walkStructure (TPtr t) (VPtr (Some v)) level key fs = Returned s' None ->
  pointers_allocated (TPtr t) s'
  /\ pointers_set (TPtr t) s'
  /\ (forall ft elem fv' err, visited ft = true -> FType ft = TPtr elem ->
        walk_field walkFields true level key fs ft (VPtr None) = Returned fv' err ->
        exists x',
          fv' = VPtr (Some x')
          /\ walkFields elem (zero elem) true (level + 1) (key +:+ ".") fs
             = Returned x' err).
Proof.
  intros Hrun. cbn [walkStructure] in Hrun.
  destruct (walkFields t v true level key fs) as [x' err |] eqn:Hw; [| discriminate Hrun].
  inversion Hrun; subst. split; [| split].
  - intros path ft elem Hwalked Hkind. inversion Hwalked; subst.
    destruct (proj1 (walkFields_allocates_pointers t) _ _ _ _ _ Hw path ft elem
                ltac:(assumption) Hkind) as [x Hx].
    exists x. apply field_deref. exact Hx.
  - intros path ft fv elem Hat Hkind. inversion Hat; subst.
    eapply (proj1 (walkFields_sets_pointers t)); eassumption.
  - intros ft elem fv' err' Hv Hty Hround.
    rewrite walk_field_visited_eq in Hround by assumption.
    rewrite Hty in Hround.
    destruct (walkFields elem (zero elem) true (level + 1) (key +:+ ".") fs)
      as [x0 e0 |] eqn:Hrec; [| discriminate Hround].
    inversion Hround; subst. exists x0. split; reflexivity.
Qed.

(** *** A second walk *)

Section SecondWalk.
Variable fs : list processFunc.
Hypothesis fs_stable : stable_providers fs.

Lemma walk_field_stable (ft : StructField) (fv fv' : gval) (level : Z) (key : string) :
  below_pointer (walk_is_stable fs) (FType ft) ->
  walk_field walkFields true level key fs ft fv = Returned fv' None ->
  walk_field walkFields true level key fs ft fv' = Returned fv' None.
Proof.
  intros [IHt IHe] Hround.
  destruct (visited ft) eqn:Hv.
  - rewrite walk_field_visited_eq in * by assumption.
    destruct (FType ft) as [k0 n0 | n0 f0 | e] eqn:Hty.
    + destruct fv as [d | |]; try discriminate Hround.
      destruct (process_range fs d ft level key) as [d' [e |]] eqn:Hp;
        inversion Hround; subst.
      rewrite (fs_stable _ _ _ _ _ Hp). reflexivity.
    + exact (IHt _ _ _ _ Hround).
    + destruct fv as [| | target]; try discriminate Hround.
      destruct (walkFields e _ true _ _ fs) as [x' err |] eqn:Hrec;
        [| discriminate Hround].
      inversion Hround; subst. cbn.
      rewrite (IHe _ _ _ _ Hrec). reflexivity.
  - rewrite walk_field_unvisited in * by assumption.
    inversion Hround; subst. reflexivity.
Qed.

Lemma walk_range_stable (fields : list StructField) :
  Forall (fun f => below_pointer (walk_is_stable fs) (FType f)) fields ->
  forall vals vals' level key,
    walk_range walkFields true level key fs fields vals = Returned vals' None ->
    walk_range walkFields true level key fs fields vals' = Returned vals' None.
Proof.
  induction 1 as [| ft fields Hft _ IH]; intros vals vals' level key Hrun.
  - destruct vals; [| discriminate Hrun]. inversion Hrun. reflexivity.
  - destruct vals as [| fv vals]; [discriminate Hrun |].
    cbn [walk_range] in Hrun.
    destruct (walk_field walkFields true level key fs ft fv)
      as [fv' [e |] |] eqn:Hround; try discriminate Hrun.
    destruct (walk_range walkFields true level key fs fields vals)
      as [vals'' e |] eqn:Hrest; [| discriminate Hrun].
    inversion Hrun; subst.
    cbn [walk_range].
    rewrite (walk_field_stable ft fv fv' level key Hft Hround).
    rewrite (IH vals vals'' level key Hrest). reflexivity.
Qed.

Lemma walkFields_stable (t : gtype) : below_pointer (walk_is_stable fs) t.
Proof.
  induction t as [k name | name fields IH | elem IH] using gtype_nested_ind.
  - split; [| exact I]. intros v level key v' H. destruct v; discriminate H.
  - split; [| exact I]. intros v level key v' Hrun.
    destruct v as [| vals |]; try discriminate Hrun. cbn [walkFields] in *.
    destruct (walk_range walkFields true level key fs fields vals)
      as [vals' e |] eqn:Hrange; [| discriminate Hrun].
    inversion Hrun; subst.
    rewrite (walk_range_stable fields IH vals vals' level key Hrange).
    reflexivity.
  - destruct IH as [IHt _]. split; [| exact IHt].
    intros v level key v' H. discriminate H.
Qed.
End SecondWalk.

Lemma providers_stable : stable_providers providers.
Proof. intros d ft level key d' H. inversion H; subst. reflexivity. Qed.

(** C8.  A second walk over the structure that a first walk returned
    (without error), with the same providers, returns without error and
    leaves exactly that structure, in every field.  This holds for any
    providers that leave alone what they wrote, and so for the providers
    [InitConfig] passes. *)
Theorem C8_second_walk_changes_nothing (t : gtype) (s s' : gval) (level : Z) (key : string)
    (fs : list processFunc) :
  stable_providers fs ->
  walkStructure (TPtr t) s level key fs = Returned s' None ->
  walkStructure (TPtr t) s' level key fs = Returned s' None.
Proof.
  intros Hstable.
  cbn [walkStructure]. intros Hrun.
  destruct s as [| | [x |]]; try discriminate Hrun.
  destruct (walkFields t x true level key fs) as [x' err |] eqn:Hw;
    [| discriminate Hrun].
  inversion Hrun; subst.
  rewrite (proj1 (walkFields_stable fs Hstable t) _ _ _ _ Hw). reflexivity.
Qed.

(** *** Leaves *)

Lemma walkFields_keeps_leaves (t : gtype) : below_pointer walk_keeps_leaves t.
Proof.
  induction t as [k name | name fields IH | elem IH] using gtype_nested_ind.
  - split; [| exact I]. intros v level key v' H. destruct v; discriminate H.
  - split; [| exact I]. intros v level key v' Hrun path ft d Hat.
    destruct v as [| vals |]; try discriminate Hrun. cbn [walkFields] in Hrun.
    destruct (walk_range walkFields true level key providers fields vals)
      as [vals' e |] eqn:Hrange; [| discriminate Hrun].
    inversion Hrun; subst. clear Hrun.
    inversion Hat as [n fds vs i ft0 fv0 Hfi Hvi Hvis
                     | n fds vs i ft0 fv0 p ft1 fv1 Hfi Hvi Hvis Hin | ]; subst.
    + destruct (walk_range_rounds _ _ _ _ _ _ _ _ Hrange i ft Hfi)
        as (fv_old & fv_new & Hold & Hnew & Hround).
      rewrite Hvi in Hold. inversion Hold; subst.
      rewrite walk_field_visited_eq in Hround by assumption.
      destruct (FType ft) as [k0 n0 | n0 f0 | e] eqn:Hty; try discriminate Hround.
      rewrite process_range_providers in Hround. inversion Hround; subst.
      apply field_here; assumption.
    + destruct (walk_range_rounds _ _ _ _ _ _ _ _ Hrange i ft0 Hfi)
        as (fv_old & fv_new & Hold & Hnew & Hround).
      rewrite Hvi in Hold. inversion Hold; subst.
      rewrite walk_field_visited_eq in Hround by assumption.
      pose proof (Forall_lookup_1 _ _ _ _ IH Hfi) as [IHt IHe].
      eapply field_inside; try eassumption.
      destruct (FType ft0) as [k0 n0 | n0 f0 | e] eqn:Hty.
      * inversion Hin.
      * exact (IHt _ _ _ _ Hround p ft d Hin).
      * inversion Hin; subst.
        destruct (walkFields e _ true _ _ providers) as [x' err |] eqn:Hrec;
          [| discriminate Hround].
        inversion Hround; subst.
        apply field_deref. eapply IHe; eassumption.
  - destruct IH as [IHt _]. split; [| exact IHt].
    intros v level key v' H. discriminate H.
Qed.

(** The walk that [InitConfig] runs keeps the content of every leaf field
    it can reach. *)
Lemma walkStructure_keeps_leaves (t : gtype) (s s' : gval) (level : Z) (key : string) :
  walkStructure (TPtr t) s level key providers = Returned s' None ->
  forall path ft d, field_at (TPtr t) s path ft (VLeaf d) ->
    field_at (TPtr t) s' path ft (VLeaf d).
Proof.
  cbn [walkStructure]. intros Hrun path ft d Hat.
  destruct s as [| | [x |]]; try discriminate Hrun.
  destruct (walkFields t x true level key providers) as [x' err |] eqn:Hw;
    [| discriminate Hrun].
  inversion Hrun; subst. inversion Hat; subst.
  apply field_deref. eapply (proj1 (walkFields_keeps_leaves t)); eassumption.
Qed.

(** ** Initialization: the argument *)

(** C10.  For a nil argument, a value that is not a pointer, or a nil
    pointer, [InitConfig] returns an [InvalidInitConfigError] whose [Type]
    is the dynamic type of the argument (none for nil) and whose text names
    that type; the argument is left as it was and no step was taken. *)
Theorem C10_invalid_argument_rejected (os : OS) (configuration : iface)
    (options : list ConfigurationOption) :
  invalid_argument configuration ->
  InitConfig os configuration options
  = mkInit (RetErr (InvalidInitConfigError "" None (TypeOf configuration))) configuration []
  /\ match configuration with
     | INil =>
         Error (InvalidInitConfigError "" None (TypeOf configuration))
         = "configuration error - InitConfig(nil)"
     | IVal t _ =>
         exists what,
           In what ["non-pointer of embedded "; "non-pointer "; "nil "]
           /\ Error (InvalidInitConfigError "" None (TypeOf configuration))
              = "configuration error - InitConfig(" +:+ what +:+ type_String t +:+ ")"
     end.
Proof.
  intros Hinv. destruct configuration as [| t v]; [split; reflexivity |].
  split.
  - destruct Hinv as [Hnp | ->].
    + destruct t as [k n | n f | e]; try reflexivity. exfalso. exact (Hnp e eq_refl).
    + destruct t as [k n | n f | e]; try reflexivity. destruct e; reflexivity.
  - cbn [TypeOf Error]. cbn.
    destruct (gtype_eqb t configurationType).
    + exists "non-pointer of embedded ". split; [simpl; auto | reflexivity].
    + destruct (Kind_eqb (TKind t) KPointer).
      * exists "nil ". split; [simpl; auto | reflexivity].
      * exists "non-pointer ". split; [simpl; auto | reflexivity].
Qed.

Lemma C10_invalid_argument_rejected_witness :
  InitConfig testOS (IVal (TPtr configB) (VPtr None)) test_options
  = mkInit (RetErr (InvalidInitConfigError "" None (Some (TPtr configB))))
           (IVal (TPtr configB) (VPtr None)) []
  /\ exists what,
       In what ["non-pointer of embedded "; "non-pointer "; "nil "]
       /\ Error (InvalidInitConfigError "" None (Some (TPtr configB)))
          = "configuration error - InitConfig(" +:+ what +:+ "*clif.configB" +:+ ")".
Proof.
  apply (C10_invalid_argument_rejected testOS (IVal (TPtr configB) (VPtr None)) test_options).
  right. reflexivity.
Defined.

(** ** Initialization: the anchor *)

Lemma InitConfig_range_unexported (os : OS) (options : list ConfigurationOption)
    (t : gtype) (vals : list gval) (rest : list StructField) :
  forall (i0 i : nat) (ft : StructField),
    rest !! i = Some ft ->
    CanConvert (FType ft) configurationTypePtr = true ->
    Anonymous ft = false ->
    IsExported ft = false ->
    (forall j ft', (j < i)%nat -> rest !! j = Some ft' ->
       CanConvert (FType ft') configurationTypePtr = false
       /\ CanConvert (FType ft') configurationType = false) ->
    InitConfig_range os options t vals i0 rest
    = LoopReturn (mkInit (RetErr (InvalidInitConfigError ErrNonExportedCoreConfig None None))
                         (IVal (TPtr t) (VPtr (Some (VStruct vals)))) []).
Proof.
  induction rest as [| ft0 rest IH]; intros i0 i ft Hi Hconv Hanon Hexp Hbefore.
  - destruct i; discriminate Hi.
  - destruct i as [| i].
    + inversion Hi; subst. cbn [InitConfig_range].
      rewrite Hconv, Hanon, Hexp. reflexivity.
    + cbn [InitConfig_range].
      destruct (Hbefore 0%nat ft0 (Nat.lt_0_succ i) eq_refl) as [-> ->].
      apply (IH (S i0) i ft Hi Hconv Hanon Hexp).
      intros j ft' Hj Hlook. apply (Hbefore (S j) ft'); [lia | exact Hlook].
Qed.

(** C5, as the code has it.  When the first field that converts to the
    pointer to the core configuration is named and unexported, and no field
    before it is a core configuration by value, [InitConfig] returns the
    error [ErrNonExportedCoreConfig]; the caller's structure is left as it
    was and nothing was assigned to the field. *)
Theorem C5_unexported_anchor_rejected (os : OS) (options : list ConfigurationOption)
    (name : string) (fields : list StructField) (vals : list gval)
    (i : nat) (ft : StructField) :
  fields !! i = Some ft ->
  CanConvert (FType ft) configurationTypePtr = true ->
  Anonymous ft = false ->
  IsExported ft = false ->
  (forall j ft', (j < i)%nat -> fields !! j = Some ft' ->
     CanConvert (FType ft') configurationTypePtr = false
     /\ CanConvert (FType ft') configurationType = false) ->
  InitConfig os (addressOf (TStruct name fields) (VStruct vals)) options
  = mkInit (RetErr (InvalidInitConfigError ErrNonExportedCoreConfig None None))
           (addressOf (TStruct name fields) (VStruct vals)) [].
Proof.
  intros Hi Hconv Hanon Hexp Hbefore.
  unfold addressOf. cbn [InitConfig].
  rewrite (InitConfig_range_unexported os options (TStruct name fields) vals fields
             0%nat i ft Hi Hconv Hanon Hexp Hbefore).
  reflexivity.
Qed.

Lemma C5_unexported_anchor_rejected_witness :
  InitConfig testOS (addressOf configHidden (zero configHidden)) test_options
  = mkInit (RetErr (InvalidInitConfigError ErrNonExportedCoreConfig None None))
           (addressOf configHidden (zero configHidden)) [].
Proof.
  apply (C5_unexported_anchor_rejected testOS test_options "clif.configHidden"
           [ mkField "name" clifPkg false stringType;
             mkField "core" clifPkg false configurationTypePtr ]
           (fields_of (zero configHidden)) 1%nat
           (mkField "core" clifPkg false configurationTypePtr)).
  - reflexivity.
  - reflexivity.
  - reflexivity.
  - reflexivity.
  - intros j ft' Hj Hlook. destruct j as [| j]; [| lia].
    inversion Hlook; subst. split; reflexivity.
Defined.

(** C5 as stated fails: in [configMixed] the first field that converts to
    the pointer to the core configuration is the named, unexported field at
    index 1, yet [InitConfig] returns the error for a core configuration
    held by value (the field at index 0), not [ErrNonExportedCoreConfig]. *)
Lemma C5_core_by_value_decides_first :
  let fields := [ mkField "Core" "" false configurationType;
                  mkField "core" clifPkg false configurationTypePtr ] in
  configMixed = TStruct "clif.configMixed" fields
  /\ CanConvert configurationType configurationTypePtr = false
  /\ CanConvert configurationTypePtr configurationTypePtr = true
  /\ IsExported (mkField "core" clifPkg false configurationTypePtr) = false
  /\ ret (InitConfig testOS (addressOf configMixed (zero configMixed)) test_options)
     = RetErr (InvalidInitConfigError "" None (Some configurationType))
  /\ ret (InitConfig testOS (addressOf configMixed (zero configMixed)) test_options)
     <> RetErr (InvalidInitConfigError ErrNonExportedCoreConfig None None).
Proof.
  repeat split; try reflexivity. intros H. discriminate H.
Qed.

(** ** Initialization: when the watcher is started *)

Lemma options_range_events (options : list ConfigurationOption) :
  forall n c c' err evs,
    options_range options n c = Some (c', err, evs) ->
    ~ In EvGoWatch evs
    /\ (err = None -> evs = map EvOption (seq n (length options))).
Proof.
  induction options as [| option rest IH]; intros n c c' err evs Hrun.
  - inversion Hrun; subst. split; [intros [] | reflexivity].
  - cbn [options_range] in Hrun.
    destruct (option c) as [[c1 [e |]] |]; try discriminate Hrun.
    + inversion Hrun; subst. split; [| discriminate].
      intros [H | []]. discriminate H.
    + destruct (options_range rest (S n) c1) as [[[c2 err2] evs2] |] eqn:Hrest;
        [| discriminate Hrun].
      inversion Hrun; subst.
      destruct (IH _ _ _ _ _ Hrest) as [Hno Hall]. split.
      * intros [H | H]; [discriminate H | exact (Hno H)].
      * intros ->. cbn. rewrite (Hall eq_refl). reflexivity.
Qed.

Lemma newConfiguration_events (os : OS) (options : list ConfigurationOption)
    (c c' : Configuration) (err : option error) (evs : list event) :
  newConfiguration os options c = Some (c', err, evs) ->
  In EvGoWatch evs ->
  evs = map EvOption (seq 0 (length options)) ++ [EvNewWatcher; EvGoWatch].
Proof.
  unfold newConfiguration. intros Hrun Hin.
  destruct (options_range options 0 _) as [[[c1 [e |]] evs1] |] eqn:Hopts;
    try discriminate Hrun.
  - inversion Hrun; subst.
    exfalso. exact (proj1 (options_range_events _ _ _ _ _ _ Hopts) Hin).
  - destruct (options_range_events _ _ _ _ _ _ Hopts) as [Hno Hall].
    specialize (Hall eq_refl). subst evs1.
    destruct (Metadata c1) as [m |]; [| discriminate Hrun].
    destruct (watch_ m).
    + destruct (fsnotify_NewWatcher os); inversion Hrun; subst; [reflexivity |].
      exfalso. apply in_app_or in Hin. destruct Hin as [Hin | [Hin | []]];
        [exact (Hno Hin) | discriminate Hin].
    + inversion Hrun; subst. exfalso. exact (Hno Hin).
Qed.

Lemma unmarshalConfigFile_events (os : OS) (c c' : Configuration) (t : gtype) (i : nat)
    (vals vals' : list gval) (err : option error) (evs : list event) :
  unmarshalConfigFile os c t i vals = Some (c', vals', err, evs) ->
  ~ In EvGoWatch evs.
Proof.
  unfold unmarshalConfigFile. intros Hrun.
  destruct (Metadata c) as [m |]; [| discriminate Hrun].
  destruct (String.eqb (configFile m) "").
  - inversion Hrun; subst. intros [].
  - destruct (os_ReadFile os (configFile m)) as [bs | e].
    + destruct (String.eqb (configType os m) "json").
      * destruct (run_Unmarshal _ _ _ _ _ _) as [[c1 vals1] [e |]];
          inversion Hrun; subst; intros [H | [H | []]]; discriminate H.
      * destruct (String.eqb (configType os m) "yaml" || String.eqb (configType os m) "yml").
        -- destruct (run_Unmarshal _ _ _ _ _ _) as [[c1 vals1] [e |]];
             inversion Hrun; subst; intros [H | [H | []]]; discriminate H.
        -- inversion Hrun; subst. intros [H | []]. discriminate H.
    + inversion Hrun; subst. intros [H | []]. discriminate H.
Qed.

Lemma started_after_options_intro (options : list ConfigurationOption) (i : nat)
    (evs tail all : list event) :
  all = [EvSetAnchor i; EvUserCurrent] ++ evs ++ tail ->
  (In EvGoWatch evs ->
   evs = map EvOption (seq 0 (length options)) ++ [EvNewWatcher; EvGoWatch]) ->
  ~ In EvGoWatch tail ->
  started_after_options options all.
Proof.
  intros -> Hevs Htail Hin. exists i, tail.
  cbn [app] in Hin. destruct Hin as [H | [H | Hin]]; try discriminate H.
  apply in_app_or in Hin. destruct Hin as [Hin | Hin]; [| contradiction].
  rewrite (Hevs Hin). cbn [app]. rewrite <- app_assoc. reflexivity.
Qed.

Lemma InitConfig_anchor_events (os : OS) (options : list ConfigurationOption)
    (t : gtype) (vals : list gval) (i : nat) :
  started_after_options options (exit_events (InitConfig_anchor os options t vals i)).
Proof.
  unfold InitConfig_anchor.
  destruct (setMetadataDefaults os emptyConfiguration) as [c1 [e |]].
  { apply (started_after_options_intro options i [] []); [reflexivity | intros [] | intros []]. }
  destruct (newConfiguration os options c1) as [[[c2 err] evs] |] eqn:Hnew.
  2: { apply (started_after_options_intro options i [] []);
         [reflexivity | intros [] | intros []]. }
  pose proof (newConfiguration_events os options c1 c2 err evs Hnew) as Hevs.
  destruct err as [e |].
  { apply (started_after_options_intro options i evs []);
      [cbn [exit_events events]; rewrite app_nil_r; reflexivity | exact Hevs | intros []]. }
  destruct (Metadata c2) as [m |].
  2: { apply (started_after_options_intro options i evs []);
         [cbn [exit_events events]; rewrite app_nil_r; reflexivity | exact Hevs | intros []]. }
  destruct (load m).
  2: { apply (started_after_options_intro options i evs []);
         [cbn [exit_events]; rewrite app_nil_r; reflexivity | exact Hevs | intros []]. }
  destruct (unmarshalConfigFile os c2 t i (plug i c2 vals))
    as [[[[c3 vals3] err3] evs3] |] eqn:Hfile.
  2: { apply (started_after_options_intro options i evs []);
         [cbn [exit_events events]; rewrite app_nil_r; reflexivity | exact Hevs | intros []]. }
  pose proof (unmarshalConfigFile_events _ _ _ _ _ _ _ _ _ Hfile) as Hno.
  destruct err3 as [e |].
  - apply (started_after_options_intro options i evs evs3);
      [reflexivity | exact Hevs | exact Hno].
  - apply (started_after_options_intro options i evs (evs3 ++ [EvPrint "%v"]));
      [reflexivity | exact Hevs |].
    intros Hin. apply in_app_or in Hin. destruct Hin as [Hin | [H | []]];
      [exact (Hno Hin) | discriminate H].
Qed.

Lemma InitConfig_range_events (os : OS) (options : list ConfigurationOption)
    (t : gtype) (vals : list gval) (rest : list StructField) :
  forall i, started_after_options options (exit_events (InitConfig_range os options t vals i rest)).
Proof.
  induction rest as [| ft rest IH]; intros i.
  - intros [].
  - cbn [InitConfig_range].
    destruct (CanConvert (FType ft) configurationTypePtr).
    + destruct (Anonymous ft); [intros [] |].
      destruct (negb (IsExported ft)); [intros [] |].
      destruct (assignable configurationTypePtr (FType ft)); [| intros []].
      apply InitConfig_anchor_events.
    + destruct (CanConvert (FType ft) configurationType); [intros [] | apply IH].
Qed.

Lemma started_after_options_app (options : list ConfigurationOption)
    (evs extra : list event) :
  started_after_options options evs -> ~ In EvGoWatch extra ->
  started_after_options options (evs ++ extra).
Proof.
  intros Hshape Hextra Hin.
  apply in_app_or in Hin. destruct Hin as [Hin | Hin]; [| contradiction].
  destruct (Hshape Hin) as (i & post & ->).
  exists i, (post ++ extra). cbn [app]. rewrite <- !app_assoc. reflexivity.
Qed.

Lemma InitConfig_finish_events (options : list ConfigurationOption) (t : gtype)
    (exit : loop_exit) :
  started_after_options options (exit_events exit) ->
  started_after_options options (events (InitConfig_finish t exit)).
Proof.
  assert (Hwalk : ~ In EvGoWatch [EvWalk]) by (intros [H | []]; discriminate H).
  destruct exit as [r | [c |] vals evs]; cbn [exit_events InitConfig_finish events];
    intros Hshape; try exact Hshape.
  destruct (Metadata c) as [m |]; [| exact Hshape].
  destruct (load m); [| exact Hshape].
  destruct (walkStructure _ _ _ _ _) as [s' [e |] |];
    apply started_after_options_app; assumption.
Qed.

(** C2, as the code has it.  When [InitConfig] starts the watcher, it does
    so right after setting the anchor, taking the metadata defaults,
    applying every option and creating the file watcher; reading and
    decoding the file and walking the structure, when they happen, come
    after the watcher is started. *)
Theorem C2_watcher_started_after_options (os : OS) (configuration : iface)
    (options : list ConfigurationOption) :
  In EvGoWatch (events (InitConfig os configuration options)) ->
  exists i post,
    events (InitConfig os configuration options)
    = EvSetAnchor i :: EvUserCurrent :: map EvOption (seq 0 (length options))
      ++ [EvNewWatcher; EvGoWatch] ++ post.
Proof.
  change (started_after_options options (events (InitConfig os configuration options))).
  destruct configuration as [| t v]; [intros [] |].
  destruct t as [k n | n f | e]; try (intros []).
  destruct e as [k n | n f | e], v as [d | vs | [x |]]; try (intros []);
    destruct x as [d' | vals | p]; try (intros []).
  cbn [InitConfig].
  apply InitConfig_finish_events, InitConfig_range_events.
Qed.

Lemma C2_watcher_started_after_options_witness :
  exists i post,
    events (InitConfig testOS (addressOf WalkerA walkerA_value) watching_options)
    = EvSetAnchor i :: EvUserCurrent :: map EvOption (seq 0 (length watching_options))
      ++ [EvNewWatcher; EvGoWatch] ++ post.
Proof.
  apply (C2_watcher_started_after_options testOS (addressOf WalkerA walkerA_value)
           watching_options).
  vm_compute. auto 10.
Defined.

(** C2 as stated fails: with watching and loading enabled the watcher
    goroutine is started (step 4) before the file is read (step 5), decoded
    (step 6) and the structure walked (step 8). *)
Lemma C2_watcher_started_before_population :
  let r := InitConfig testOS (addressOf WalkerA walkerA_value) watching_options in
  ret r = RetNil
  /\ events r = [ EvSetAnchor 10; EvUserCurrent; EvOption 0; EvNewWatcher; EvGoWatch;
                  EvReadFile "testdata/config.yaml"; EvUnmarshal "yaml";
                  EvPrint "%v"; EvWalk ]
  /\ position isGoWatch (events r) = Some 4%nat
  /\ position populates (events r) = Some 5%nat
  /\ position isUnmarshal (events r) = Some 6%nat
  /\ position isWalk (events r) = Some 8%nat.
Proof. vm_compute. repeat split; reflexivity. Qed.

(** ** Initialization: the values of the leaves *)

Lemma InitConfig_range_ignores_env (os : OS) (env : Env) (options : list ConfigurationOption)
    (t : gtype) (vals : list gval) (rest : list StructField) :
  forall i, InitConfig_range (with_env os env) options t vals i rest
            = InitConfig_range os options t vals i rest.
Proof.
  induction rest as [| ft rest IH]; intros i; [reflexivity |].
  cbn [InitConfig_range]. rewrite IH. reflexivity.
Qed.

(** No step of [InitConfig] depends on the environment variables. *)
Lemma InitConfig_ignores_env (os : OS) (env : Env) (configuration : iface)
    (options : list ConfigurationOption) :
  InitConfig (with_env os env) configuration options = InitConfig os configuration options.
Proof.
  destruct configuration as [| t v]; [reflexivity |].
  destruct t as [k n | n f | e]; try reflexivity.
  destruct e as [k n | n f | e], v as [d | vs | [x |]]; try reflexivity;
    destruct x as [d' | vals | p]; try reflexivity.
  cbn [InitConfig]. rewrite InitConfig_range_ignores_env. reflexivity.
Qed.

(** ** Identity of type descriptors *)

Lemma Kind_eqb_eq (a b : Kind) : Kind_eqb a b = true -> a = b.
Proof. destruct a, b; intros H; try discriminate H; reflexivity. Qed.

Lemma gtype_eqb_eq (a : gtype) : forall b, gtype_eqb a b = true -> a = b.
Proof.
  induction a as [k name | name fields IH | elem IH] using gtype_nested_ind; intros b Hb.
  - destruct b as [k' name' | |]; try discriminate Hb. cbn in Hb.
    apply andb_true_iff in Hb. destruct Hb as [Hk Hn].
    apply Kind_eqb_eq in Hk. apply String.eqb_eq in Hn. subst. reflexivity.
  - destruct b as [| name' fields' |]; try discriminate Hb. cbn [gtype_eqb] in Hb.
    apply andb_true_iff in Hb. destruct Hb as [Hn Hf].
    apply String.eqb_eq in Hn. subst name'. f_equal.
    revert fields' Hf. induction IH as [| f fields Hhead _ IHf]; intros fields' Hf.
    + destruct fields'; [reflexivity | discriminate Hf].
    + destruct fields' as [| f' fields']; [discriminate Hf |].
      repeat (apply andb_true_iff in Hf; destruct Hf as [Hf ?]).
      f_equal; [| apply IHf; assumption].
      destruct f as [n1 p1 a1 t1], f' as [n2 p2 a2 t2]. cbn in *.
      apply String.eqb_eq in Hf.
      match goal with H : String.eqb p1 p2 = true |- _ => apply String.eqb_eq in H end.
      match goal with H : Bool.eqb a1 a2 = true |- _ => apply Bool.eqb_prop in H end.
      match goal with H : gtype_eqb t1 t2 = true |- _ => apply Hhead in H end.
      subst. reflexivity.
  - destruct b as [| | elem']; try discriminate Hb. cbn in Hb.
    f_equal. apply IH, Hb.
Qed.

(** ** Metadata across the decoding *)

Lemma unmarshalLoad_range_Metadata (values : list (string * dyn)) :
  forall c err,
    Metadata (fst (unmarshalLoad_range values c err)) = Metadata c
    /\ data (fst (unmarshalLoad_range values c err)) = data c.
Proof.
  induction values as [| [k v] rest IH]; intros c err; [split; reflexivity |].
  cbn [unmarshalLoad_range].
  destruct (String.eqb k "logger").
  - destruct v; try (split; reflexivity).
    destruct (newLoggerConfiguration m) as [lg err'].
    destruct (IH (mkConfiguration (data c) (Metadata c) lg (Console c)) err') as [H1 H2].
    split; assumption.
  - destruct (String.eqb k "console").
    + destruct v; try (split; reflexivity).
      destruct (newConsoleConfiguration m) as [cs err'].
      destruct (IH (mkConfiguration (data c) (Metadata c) (Logger c) cs) err') as [H1 H2].
      split; assumption.
    + apply IH.
Qed.

Lemma unmarshalConfigFile_Metadata (os : OS) (c c' : Configuration) (t : gtype) (i : nat)
    (vals vals' : list gval) (err : option error) (evs : list event) :
  unmarshalConfigFile os c t i vals = Some (c', vals', err, evs) ->
  Metadata c' = Metadata c.
Proof.
  unfold unmarshalConfigFile. intros Hrun.
  destruct (Metadata c) as [m |] eqn:Hm; [| discriminate Hrun].
  assert (Hdec : forall u bs, Metadata (fst (fst (run_Unmarshal u bs c t i vals))) = Some m).
  { intros u bs. unfold run_Unmarshal.
    destruct (dec_core (u bs t vals)) as [values |].
    - unfold unmarshalLoad.
      pose proof (proj1 (unmarshalLoad_range_Metadata values c None)) as H.
      destruct (unmarshalLoad_range values c None) as [c1 e1]. cbn in *. congruence.
    - cbn. exact Hm. }
  destruct (String.eqb (configFile m) "").
  - inversion Hrun; subst. exact Hm.
  - destruct (os_ReadFile os (configFile m)) as [bs | e].
    + destruct (String.eqb (configType os m) "json").
      * specialize (Hdec (json_Unmarshal os) bs).
        destruct (run_Unmarshal _ _ _ _ _ _) as [[c1 vals1] [e |]];
          inversion Hrun; subst; exact Hdec.
      * destruct (String.eqb (configType os m) "yaml" || String.eqb (configType os m) "yml").
        -- specialize (Hdec (yaml_Unmarshal os) bs).
           destruct (run_Unmarshal _ _ _ _ _ _) as [[c1 vals1] [e |]];
             inversion Hrun; subst; exact Hdec.
        -- inversion Hrun; subst. exact Hm.
    + inversion Hrun; subst. exact Hm.
Qed.

(** ** Leaves and the anchor field *)

Lemma has_leaf_field (name : string) (fields : list StructField) :
  forall i ft,
    fields !! i = Some ft -> visited ft = true ->
    leaf_type (FType ft) || has_leaf (FType ft) = true ->
    has_leaf (TStruct name fields) = true.
Proof.
  induction fields as [| f rest IH]; intros i ft Hi Hv Hl.
  - destruct i; discriminate Hi.
  - change (has_leaf (TStruct name (f :: rest)))
      with ((visited f && (leaf_type (FType f) || has_leaf (FType f)))
            || has_leaf (TStruct name rest)).
    destruct i as [| i].
    + inversion Hi; subst f. rewrite Hv, Hl. reflexivity.
    + rewrite (IH i ft Hi Hv Hl). apply orb_true_r.
Qed.

Lemma field_at_has_leaf (t : gtype) (v : gval) (path : list nat) (ft : StructField)
    (fv : gval) :
  field_at t v path ft fv -> leaf_type (FType ft) = true -> has_leaf t = true.
Proof.
  induction 1 as [name fields vals i ft fv Hfi Hvi Hvis
                 | name fields vals i ft fv path ft' fv' Hfi Hvi Hvis Hin IH
                 | elem x path ft fv Hin IH]; intros Hleaf.
  - apply (has_leaf_field name fields i ft Hfi Hvis). rewrite Hleaf. reflexivity.
  - apply (has_leaf_field name fields i ft Hfi Hvis). rewrite (IH Hleaf). apply orb_true_r.
  - exact (IH Hleaf).
Qed.

(** Putting another value into a field of the type pointer to the core
    configuration changes no leaf the walker can reach. *)
Lemma field_at_insert_anchor (name : string) (fields : list StructField) (vals : list gval)
    (i : nat) (fti : StructField) (x : gval) (path : list nat) (ft : StructField) (d : dyn) :
  fields !! i = Some fti ->
  FType fti = configurationTypePtr ->
  leaf_type (FType ft) = true ->
  field_at (TStruct name fields) (VStruct vals) path ft (VLeaf d) ->
  field_at (TStruct name fields) (VStruct (<[i := x]> vals)) path ft (VLeaf d).
Proof.
  intros Hi Hty Hleaf Hat.
  inversion Hat as [n fds vs j ft0 fv0 Hfj Hvj Hvis
                   | n fds vs j ft0 fv0 p ft1 fv1 Hfj Hvj Hvis Hin | ]; subst.
  - destruct (decide (i = j)) as [-> | Hne].
    + rewrite Hi in Hfj. inversion Hfj; subst. rewrite Hty in Hleaf. discriminate Hleaf.
    + apply field_here; [exact Hfj | | exact Hvis].
      rewrite list_lookup_insert_ne by exact Hne. exact Hvj.
  - destruct (decide (i = j)) as [-> | Hne].
    + rewrite Hi in Hfj. inversion Hfj; subst. rewrite Hty in Hin.
      pose proof (field_at_has_leaf _ _ _ _ _ Hin Hleaf) as Hhas.
      vm_compute in Hhas. discriminate Hhas.
    + eapply field_inside; [exact Hfj | | exact Hvis | exact Hin].
      rewrite list_lookup_insert_ne by exact Hne. exact Hvj.
Qed.

Lemma plug_lookup (i : nat) (c : Configuration) (vals : list gval) (fv : gval) :
  plug i c vals !! i = Some fv -> fv = VPtr (Some (reflect_Configuration c)).
Proof.
  unfold plug. intros H.
  assert (Hlt : (i < length vals)%nat).
  { apply lookup_lt_Some in H. rewrite length_insert in H. exact H. }
  rewrite list_lookup_insert_eq in H by exact Hlt. congruence.
Qed.

Lemma anchor_after_lookup (i : nat) (c : Configuration) (fields : list gval) (fv : gval) :
  anchor_after i c fields !! i = Some fv ->
  fv = VPtr (Some (reflect_Configuration c)) \/ fv = VPtr None.
Proof.
  unfold anchor_after.
  destruct (fields !! i) as [[d | fs | [x |]] |] eqn:Hf; intros H;
    try (left; exact (plug_lookup _ _ _ _ H)).
  right. congruence.
Qed.

Lemma anchor_after_leaves (name : string) (fields : list StructField) (vals : list gval)
    (i : nat) (fti : StructField) (c : Configuration) (path : list nat) (ft : StructField)
    (d : dyn) :
  fields !! i = Some fti ->
  FType fti = configurationTypePtr ->
  leaf_type (FType ft) = true ->
  field_at (TStruct name fields) (VStruct vals) path ft (VLeaf d) ->
  field_at (TStruct name fields) (VStruct (anchor_after i c vals)) path ft (VLeaf d).
Proof.
  intros Hi Hty Hleaf Hat. unfold anchor_after.
  destruct (vals !! i) as [[d0 | fs | [x |]] |]; try exact Hat;
    unfold plug; eapply field_at_insert_anchor; eassumption.
Qed.

Lemma options_range_quiet (options : list ConfigurationOption) :
  forall n c c' err evs,
    options_range options n c = Some (c', err, evs) ->
    Forall (fun e => populates e = false) evs.
Proof.
  induction options as [| option rest IH]; intros n c c' err evs Hrun.
  - inversion Hrun; subst. apply Forall_nil_2.
  - cbn [options_range] in Hrun.
    destruct (option c) as [[c1 [e |]] |]; try discriminate Hrun.
    + inversion Hrun; subst. apply Forall_cons_2; [reflexivity | apply Forall_nil_2].
    + destruct (options_range rest (S n) c1) as [[[c2 err2] evs2] |] eqn:Hrest;
        [| discriminate Hrun].
      inversion Hrun; subst.
      apply Forall_cons_2; [reflexivity | exact (IH _ _ _ _ _ Hrest)].
Qed.

Lemma newConfiguration_quiet (os : OS) (options : list ConfigurationOption)
    (c c' : Configuration) (err : option error) (evs : list event) :
  newConfiguration os options c = Some (c', err, evs) ->
  Forall (fun e => populates e = false) evs.
Proof.
  unfold newConfiguration. intros Hrun.
  destruct (options_range options 0 _) as [[[c1 [e |]] evs1] |] eqn:Hopts;
    try discriminate Hrun.
  - inversion Hrun; subst. exact (options_range_quiet _ _ _ _ _ _ Hopts).
  - pose proof (options_range_quiet _ _ _ _ _ _ Hopts) as Hq.
    destruct (Metadata c1) as [m |]; [| discriminate Hrun].
    destruct (watch_ m).
    + destruct (fsnotify_NewWatcher os); inversion Hrun; subst;
        (apply Forall_app_2; [exact Hq |]);
        repeat (apply Forall_cons_2; [reflexivity |]); apply Forall_nil_2.
    + inversion Hrun; subst. exact Hq.
Qed.

(** What [unmarshalConfigFile] did when it returned nil: nothing, or it
    read the file and ran the decoder for its type. *)
Lemma unmarshalConfigFile_cases (os : OS) (c c' : Configuration) (t : gtype) (i : nat)
    (vals vals' : list gval) (evf : list event) (m : configurationMetadata) :
  Metadata c = Some m ->
  unmarshalConfigFile os c t i vals = Some (c', vals', None, evf) ->
  (c' = c /\ vals' = vals /\ existsb isUnmarshal evf = false)
  \/ (exists bs,
        os_ReadFile os (configFile m) = inl bs
        /\ evf = [EvReadFile (configFile m); EvUnmarshal (configType os m)]
        /\ run_Unmarshal (decoder_for os (configType os m)) bs c t i vals
           = (c', vals', None)).
Proof.
  intros Hm. unfold unmarshalConfigFile. rewrite Hm. intros Hrun.
  destruct (String.eqb (configFile m) "").
  - inversion Hrun; subst. left. auto.
  - destruct (os_ReadFile os (configFile m)) as [bs | e] eqn:Hread; [| discriminate Hrun].
    cbv zeta in Hrun. unfold decoder_for.
    destruct (String.eqb (configType os m) "json").
    + destruct (run_Unmarshal (json_Unmarshal os) bs c t i vals) as [[c1 vals1] [e |]] eqn:Hdec;
        inversion Hrun; subst. right. exists bs. auto.
    + destruct (String.eqb (configType os m) "yaml" || String.eqb (configType os m) "yml").
      * destruct (run_Unmarshal (yaml_Unmarshal os) bs c t i vals)
          as [[c1 vals1] [e |]] eqn:Hdec; inversion Hrun; subst. right. exists bs. auto.
      * inversion Hrun; subst. left. auto.
Qed.

(** The loop of [InitConfig] when it is left with the core configuration
    found: the metadata is there, the steps before the file is looked at
    fill nothing, and with loading enabled [unmarshalConfigFile] returned
    nil and left the caller's structure as the loop hands it on. *)
Lemma InitConfig_anchor_exit (os : OS) (options : list ConfigurationOption) (t : gtype)
    (vals : list gval) (i : nat) :
  match InitConfig_anchor os options t vals i with
  | LoopReturn r => ret r <> RetNil
  | LoopEnd co vals' evs =>
      exists c2 c3 m evs0 evs3,
        co = Some c3 /\ Metadata c2 = Some m /\ Metadata c3 = Some m
        /\ Forall (fun e => populates e = false) evs0
        /\ evs = evs0 ++ evs3
        /\ (load m = true ->
            exists evf,
              unmarshalConfigFile os c2 t i (plug i c2 vals) = Some (c3, vals', None, evf)
              /\ evs3 = evf ++ [EvPrint "%v"])
        /\ (load m = false -> c3 = c2 /\ vals' = plug i c2 vals /\ evs3 = [])
  end.
Proof.
  unfold InitConfig_anchor.
  destruct (setMetadataDefaults os emptyConfiguration) as [c1 [e |]]; [discriminate |].
  destruct (newConfiguration os options c1) as [[[c2 [e |]] evs] |] eqn:Hnew;
    try discriminate.
  pose proof (newConfiguration_quiet _ _ _ _ _ _ Hnew) as Hq.
  assert (Hq0 : Forall (fun e => populates e = false) ([EvSetAnchor i; EvUserCurrent] ++ evs)).
  { apply Forall_app_2; [| exact Hq].
    repeat (apply Forall_cons_2; [reflexivity |]). apply Forall_nil_2. }
  destruct (Metadata c2) as [m |] eqn:Hm; [| discriminate].
  destruct (load m) eqn:Hl.
  - destruct (unmarshalConfigFile os c2 t i (plug i c2 vals))
      as [[[[c3 vals3] [e |]] evs3] |] eqn:Hfile; try discriminate.
    exists c2, c3, m, ([EvSetAnchor i; EvUserCurrent] ++ evs), (evs3 ++ [EvPrint "%v"]).
    split; [reflexivity |]. split; [exact Hm |].
    split; [rewrite (unmarshalConfigFile_Metadata _ _ _ _ _ _ _ _ _ Hfile); exact Hm |].
    split; [exact Hq0 |]. split; [rewrite <- app_assoc; reflexivity |].
    split; [intros _; exists evs3; split; [exact Hfile | reflexivity] | intros H; congruence].
  - exists c2, c2, m, ([EvSetAnchor i; EvUserCurrent] ++ evs), [].
    split; [reflexivity |]. split; [exact Hm |]. split; [exact Hm |].
    split; [exact Hq0 |]. split; [rewrite app_nil_r; reflexivity |].
    split; [intros H; congruence | auto].
Qed.

Lemma InitConfig_range_exit (os : OS) (options : list ConfigurationOption) (t : gtype)
    (vals : list gval) (rest : list StructField) :
  forall i0,
    match InitConfig_range os options t vals i0 rest with
    | LoopReturn r => ret r <> RetNil
    | LoopEnd None _ _ => True
    | LoopEnd (Some c3) vals' evs =>
        exists j ft c2 m evs0 evs3,
          rest !! j = Some ft /\ FType ft = configurationTypePtr
          /\ IsExported ft = true /\ Anonymous ft = false
          /\ Metadata c2 = Some m /\ Metadata c3 = Some m
          /\ Forall (fun e => populates e = false) evs0
          /\ evs = evs0 ++ evs3
          /\ (load m = true ->
              exists evf,
                unmarshalConfigFile os c2 t (i0 + j) (plug (i0 + j) c2 vals)
                = Some (c3, vals', None, evf)
                /\ evs3 = evf ++ [EvPrint "%v"])
          /\ (load m = false -> c3 = c2 /\ vals' = plug (i0 + j) c2 vals /\ evs3 = [])
    end.
Proof.
  induction rest as [| ft rest IH]; intros i0; [exact I |].
  cbn [InitConfig_range]. cbv beta zeta.
  destruct (CanConvert (FType ft) configurationTypePtr).
  - destruct (Anonymous ft) eqn:Ha; [cbn; discriminate |].
    destruct (IsExported ft) eqn:He; cbn [negb]; [| cbn; discriminate].
    destruct (assignable configurationTypePtr (FType ft)) eqn:Has; [| cbn; discriminate].
    pose proof (InitConfig_anchor_exit os options t vals i0) as Hexit.
    destruct (InitConfig_anchor os options t vals i0) as [r | co vals' evs];
      [exact Hexit |].
    destruct Hexit as (c2 & c3 & m & evs0 & evs3 & -> & H2 & H3 & H4 & H5 & H6 & H7).
    exists 0%nat, ft, c2, m, evs0, evs3. rewrite Nat.add_0_r.
    apply gtype_eqb_eq in Has. symmetry in Has. auto 12.
  - destruct (CanConvert (FType ft) configurationType); [cbn; discriminate |].
    specialize (IH (S i0)).
    destruct (InitConfig_range os options t vals (S i0) rest) as [r | [c |] vals' evs];
      try exact IH.
    destruct IH as (j & ft' & c2 & m & evs0 & evs3 & H).
    exists (S j), ft', c2, m, evs0, evs3.
    replace (i0 + S j)%nat with (S i0 + j)%nat by lia. exact H.
Qed.

(** [InitConfig] returned nil: the core configuration was found in an
    exported, named field of the pointer type, and either loading is off
    and only the anchor was set, or the file was looked at and the
    structure walked. *)
Lemma InitConfig_returns_nil (os : OS) (options : list ConfigurationOption)
    (name : string) (fields : list StructField) (vals : list gval) :
  ret (InitConfig os (addressOf (TStruct name fields) (VStruct vals)) options) = RetNil ->
  exists j ft c2 c3 m vals' evs0,
    fields !! j = Some ft /\ FType ft = configurationTypePtr
    /\ IsExported ft = true /\ Anonymous ft = false
    /\ Metadata c2 = Some m /\ Metadata c3 = Some m
    /\ Forall (fun e => populates e = false) evs0
    /\ (load m = true ->
        exists evf s',
          unmarshalConfigFile os c2 (TStruct name fields) j (plug j c2 vals)
          = Some (c3, vals', None, evf)
          /\ walkStructure (TPtr (TStruct name fields)) (VPtr (Some (VStruct vals'))) 0 ""
               providers = Returned s' None
          /\ InitConfig os (addressOf (TStruct name fields) (VStruct vals)) options
             = mkInit RetNil (IVal (TPtr (TStruct name fields)) s')
                 ((evs0 ++ evf ++ [EvPrint "%v"]) ++ [EvWalk]))
    /\ (load m = false ->
        InitConfig os (addressOf (TStruct name fields) (VStruct vals)) options
        = mkInit RetNil (addressOf (TStruct name fields) (VStruct (plug j c2 vals))) evs0).
Proof.
  unfold addressOf. cbn [InitConfig].
  pose proof (InitConfig_range_exit os options (TStruct name fields) vals fields 0%nat)
    as Hexit.
  destruct (InitConfig_range os options (TStruct name fields) vals 0 fields)
    as [r | [c3 |] vals1 evs]; cbn [InitConfig_finish].
  - intros Hret. contradiction.
  - destruct Hexit as (j & ft & c2 & m & evs0 & evs3 & Hj & Hty & Hexp & Hanon & Hm2 & Hm3
                       & Hq & -> & Hload & Hnoload).
    cbn [Nat.add] in *. rewrite Hm3.
    destruct (load m) eqn:Hl.
    + destruct (Hload eq_refl) as (evf & Hfile & ->).
      destruct (walkStructure (TPtr (TStruct name fields)) (VPtr (Some (VStruct vals1))) 0 ""
                  providers) as [s' [e |] |] eqn:Hw; cbn [ret]; try discriminate.
      intros _. exists j, ft, c2, c3, m, vals1, evs0.
      repeat (split; [assumption |]).
      split; [| intros H; congruence].
      intros _. exists evf, s'. split; [exact Hfile |]. split; [exact Hw | reflexivity].
    + destruct (Hnoload eq_refl) as (-> & -> & ->). intros _.
      exists j, ft, c2, c2, m, (plug j c2 vals), evs0.
      repeat (split; [assumption |]).
      split; [intros H; congruence |].
      intros _. rewrite app_nil_r. reflexivity.
  - cbn. intros Hret. discriminate Hret.
Qed.

Lemma quiet_no_unmarshal (evs : list event) :
  Forall (fun e => populates e = false) evs -> existsb isUnmarshal evs = false.
Proof.
  induction 1 as [| e evs He _ IH]; [reflexivity |].
  cbn [existsb]. rewrite IH. destruct e; try reflexivity; discriminate He.
Qed.

(** C1, as the code has it.  Let [InitConfig] return nil with loading
    enabled (the structure was walked) on a structure with one value per
    field.  When no decoder ran (empty file name, or a file type that is
    none of json, yaml, yml), every leaf the walker can reach holds what it
    held.  When a decoder ran, it ran on the content of the file that was
    read, and for whatever that content supplies according to the contract
    of the library decoder: a leaf the file has a value for holds the
    file's value, and a leaf the file has no value for holds what it held.
    The default and environment providers write nothing and clear
    nothing, and the outcome is the same whatever the environment variables
    are. *)
Theorem C1_leaves_hold_what_decoding_left (os : OS) (options : list ConfigurationOption)
    (name : string) (fields : list StructField) (vals : list gval) (r : InitResult) :
  length vals = length fields ->
  InitConfig os (addressOf (TStruct name fields) (VStruct vals)) options = r ->
  ret r = RetNil ->
  In EvWalk (events r) ->
  (existsb isUnmarshal (events r) = false ->
     forall path ft d,
       leaf_type (FType ft) = true ->
       field_at (TPtr (TStruct name fields)) (VPtr (Some (VStruct vals))) path ft (VLeaf d) ->
       field_at (TPtr (TStruct name fields)) (graph_value r) path ft (VLeaf d))
  /\ (existsb isUnmarshal (events r) = true ->
      exists file bs ty,
        In (EvReadFile file) (events r) /\ In (EvUnmarshal ty) (events r)
        /\ os_ReadFile os file = inl bs
        /\ forall doc,
             decodes (decoder_for os ty) bs (TStruct name fields) doc ->
             (forall path d,
                doc path = Some d ->
                exists ft,
                  leaf_type (FType ft) = true
                  /\ field_at (TPtr (TStruct name fields)) (graph_value r) path ft (VLeaf d))
             /\ (forall path ft d,
                   doc path = None ->
                   leaf_type (FType ft) = true ->
                   field_at (TPtr (TStruct name fields)) (VPtr (Some (VStruct vals)))
                     path ft (VLeaf d) ->
                   field_at (TPtr (TStruct name fields)) (graph_value r) path ft (VLeaf d)))
  /\ (forall env,
        InitConfig (with_env os env) (addressOf (TStruct name fields) (VStruct vals)) options
        = r).
Proof.
  intros Hlen Hinit Hret Hwalk. subst r.
  split; [| split; [| intros env; apply InitConfig_ignores_env]];
    destruct (InitConfig_returns_nil os options name fields vals Hret)
      as (j & fta & c2 & c3 & m & vals' & evs0 & Hj & Hty & Hexp & Hanon & Hm2 & Hm3
          & Hq & Hload & Hnoload);
    (destruct (load m) eqn:Hl;
     [ destruct (Hload eq_refl) as (evf & s' & Hfile & Hw & Heq); clear Hload Hnoload
     | exfalso; rewrite (Hnoload eq_refl) in Hwalk; cbn [events] in Hwalk;
       rewrite Forall_forall in Hq; apply list_elem_of_In in Hwalk;
       specialize (Hq _ Hwalk); discriminate Hq ]);
    rewrite Heq; cbn [graph_value graph events];
    pose proof (quiet_no_unmarshal evs0 Hq) as Hq0;
    destruct (unmarshalConfigFile_cases _ _ _ _ _ _ _ _ _ Hm2 Hfile)
      as [(-> & -> & Hnone) | (bs & Hread & -> & Hdec)].
  - intros _ path ft d Hleaf Hat. inversion Hat; subst.
    apply (walkStructure_keeps_leaves _ _ _ _ _ Hw). apply field_deref.
    unfold plug. eapply field_at_insert_anchor; eassumption.
  - rewrite !existsb_app, Hq0. cbn. intros H. discriminate H.
  - rewrite !existsb_app, Hq0, Hnone. cbn. intros H. discriminate H.
  - intros _. exists (configFile m), bs, (configType os m).
    split; [apply in_or_app; left; apply in_or_app; right; left; reflexivity |].
    split; [apply in_or_app; left; apply in_or_app; right; right; left; reflexivity |].
    split; [exact Hread |].
    intros doc Hcontract.
    assert (Hlen' : length (plug j c2 vals) = length (fields_of_type (TStruct name fields))).
    { unfold plug. rewrite length_insert. exact Hlen. }
    destruct (Hcontract (plug j c2 vals) Hlen') as [Hsup Hkeep].
    unfold run_Unmarshal in Hdec.
    destruct (match dec_core _ with Some values => _ | None => _ end) as [cx hookErr].
    inversion Hdec; subst cx vals'. clear Hdec.
    split.
    + intros path d Hdoc. destruct (Hsup path d Hdoc) as (ft & Hleaf & Hat).
      exists ft. split; [exact Hleaf |].
      apply (walkStructure_keeps_leaves _ _ _ _ _ Hw). apply field_deref.
      eapply anchor_after_leaves; eassumption.
    + intros path ft d Hdoc Hleaf Hat. inversion Hat; subst.
      apply (walkStructure_keeps_leaves _ _ _ _ _ Hw). apply field_deref.
      eapply anchor_after_leaves; try eassumption.
      apply (Hkeep path ft d Hdoc Hleaf).
      unfold plug. eapply field_at_insert_anchor; eassumption.
Qed.

(** The decoder of the tests meets the contract for what the test document
    supplies. *)
Lemma decode_test_yaml_decodes (bs : string) :
  decodes decode_test_yaml bs WalkerA test_content.
Proof.
  intros vals Hlen. cbn in Hlen.
  do 11 (destruct vals as [| ? vals]; [discriminate Hlen |]).
  destruct vals; [| discriminate Hlen]. clear Hlen.
  cbn [decode_test_yaml dec_fields]. split.
  - intros path d Hdoc. unfold test_content in Hdoc.
    repeat match type of Hdoc with
           | context [match ?x with _ => _ end] => destruct x; try discriminate Hdoc
           end;
      inversion Hdoc; subst; exists (mkField "External" "" false stringType);
      (split; [reflexivity |]).
    + apply field_here; reflexivity.
    + eapply field_inside; [reflexivity | reflexivity | reflexivity |].
      apply field_here; reflexivity.
    + eapply field_inside; [reflexivity | reflexivity | reflexivity |].
      eapply field_inside; [reflexivity | reflexivity | reflexivity |].
      apply field_here; reflexivity.
    + eapply field_inside; [reflexivity | reflexivity | reflexivity |].
      eapply field_inside; [reflexivity | reflexivity | reflexivity |].
      apply field_deref. apply field_here; reflexivity.
  - intros path ft d Hnone Hleaf Hat.
    inversion Hat as [n fds vs i ft0 fv0 Hfi Hvi Hvis
                     | n fds vs i ft0 fv0 p ft1 fv1 Hfi Hvi Hvis Hin | ]; subst.
    + list_index Hfi i; cbn in Hfi; inversion Hfi; subst;
        try discriminate Hnone; try discriminate Hleaf; try discriminate Hvis;
        cbn in Hvi; inversion Hvi; subst;
        apply field_here; reflexivity.
    + list_index Hfi i; cbn in Hfi; inversion Hfi; subst;
        try discriminate Hvis;
        cbn in Hvi; inversion Hvi; subst;
        cbn in Hin; unfold stringType, intType, boolType in Hin;
        try (inversion Hin; fail);
        try (eapply field_inside; [reflexivity | reflexivity | reflexivity | exact Hin]; fail).
      unfold WalkerB in Hin.
      inversion Hin as [n2 fds2 vs2 j ftj fvj Hfj Hvj Hvisj
                       | n2 fds2 vs2 j ftj fvj p' ft' fv' Hfj Hvj Hvisj Hin' | ]; subst.
      * list_index Hfj j; cbn in Hfj; inversion Hfj; subst;
          try discriminate Hvisj; try discriminate Hnone; try discriminate Hleaf.
      * assert (Hinner : forall x q,
                   test_content (8%nat :: j :: q) = None ->
                   (j = 2%nat \/ j = 3%nat) ->
                   field_at WalkerC x q ft (VLeaf d) -> False).
        { intros x q Hnone' Hj Hc. unfold WalkerC in Hc.
          inversion Hc as [n3 fds3 vs3 k ftk fvk Hfk Hvk Hvisk
                          | n3 fds3 vs3 k ftk fvk q' ft3 fv3 Hfk Hvk Hvisk Hc' | ]; subst.
          - list_index Hfk k; cbn in Hfk; inversion Hfk; subst; try discriminate Hvisk.
            destruct Hj as [-> | ->]; discriminate Hnone'.
          - list_index Hfk k; cbn in Hfk; inversion Hfk; subst; try discriminate Hvisk.
            cbn in Hc'. unfold stringType in Hc'. inversion Hc'. }
        list_index Hfj j; cbn in Hfj; inversion Hfj; subst;
          try discriminate Hvisj;
          cbn in Hin'; unfold stringType in Hin';
          try (inversion Hin'; fail); exfalso.
        -- apply (Hinner fvj p' Hnone); [left; reflexivity | exact Hin'].
        -- inversion Hin'; subst.
           eapply (Hinner _ p' Hnone); [right; reflexivity | eassumption].
Qed.

Lemma C1_leaves_hold_what_decoding_left_witness :
  let r := InitConfig testOS (addressOf WalkerA walkerA_value) walker_options in
  (exists file bs,
     In (EvReadFile file) (events r) /\ In (EvUnmarshal "yaml") (events r)
     /\ os_ReadFile testOS file = inl bs
     /\ decodes (decoder_for testOS "yaml") bs WalkerA test_content)
  /\ (exists ft,
        leaf_type (FType ft) = true
        /\ field_at (TPtr WalkerA) (graph_value r) [8%nat; 1%nat] ft
             (VLeaf (DString "walkerB.external")))
  /\ (forall ft d,
        leaf_type (FType ft) = true ->
        field_at (TPtr WalkerA) (VPtr (Some walkerA_value)) [6%nat] ft (VLeaf d) ->
        field_at (TPtr WalkerA) (graph_value r) [6%nat] ft (VLeaf d))
  /\ (forall env,
        InitConfig (with_env testOS env) (addressOf WalkerA walkerA_value) walker_options
        = r).
Proof.
  intros r.
  destruct (C1_leaves_hold_what_decoding_left testOS walker_options "clif.WalkerA"
              (fields_of_type WalkerA) (fields_of walkerA_value) r)
    as (_ & Hdecoded & Henv).
  - reflexivity.
  - reflexivity.
  - vm_compute. reflexivity.
  - vm_compute. auto 10.
  - destruct (Hdecoded ltac:(vm_compute; reflexivity))
      as (file & bs & ty & Hfile & Hty & Hread & Hdoc).
    assert (Hyaml : ty = "yaml").
    { vm_compute in Hty.
      repeat (destruct Hty as [Hty | Hty]; [try discriminate Hty |]);
        [inversion Hty; reflexivity | destruct Hty]. }
    subst ty.
    destruct (Hdoc test_content (decode_test_yaml_decodes bs)) as [Hsup Hkeep].
    split; [| split; [| split]].
    + exists file, bs. split; [exact Hfile |]. split; [exact Hty |].
      split; [exact Hread | exact (decode_test_yaml_decodes bs)].
    + exact (Hsup [8%nat; 1%nat] (DString "walkerB.external") eq_refl).
    + intros ft d. exact (Hkeep [6%nat] ft d eq_refl).
    + exact Henv.
Defined.

(** C1 as stated fails: every environment variable is set, to [from-env],
    and [InitConfig] returns nil with loading enabled; the exported leaf
    [WalkerB.External], for which the walker passes the key ["."], holds
    the value of the file, where the rule of the specification asks for the
    value of the environment. *)
Lemma C1_environment_value_not_applied :
  let r := InitConfig testOS (addressOf WalkerA walkerA_value) walker_options in
  ret r = RetNil
  /\ In EvWalk (events r)
  /\ (forall name, name <> "" -> os_Getenv testOS name = "from-env")
  /\ field_at (TPtr WalkerA) (graph_value r) [8%nat; 1%nat]
       (mkField "External" "" false stringType) (VLeaf (DString "walkerB.external"))
  /\ IsExported (mkField "External" "" false stringType) = true
  /\ (forall key, key <> "" ->
        highest_precedence (Some (DString "")) (Some (DString "walkerB.external"))
          (Some (DString (os_Getenv testOS key)))
        = Some (DString "from-env"))
  /\ DString "from-env" <> DString "walkerB.external".
Proof.
  assert (Henv : forall name, name <> "" -> os_Getenv testOS name = "from-env").
  { intros name Hname. cbn [os_Getenv testOS].
    destruct (String.eqb_spec name ""); [contradiction | reflexivity]. }
  split; [vm_compute; reflexivity |].
  split; [vm_compute; auto 10 |].
  split; [exact Henv |].
  split; [| split; [reflexivity | split; [| intros H; discriminate H]]].
  - vm_compute. apply field_deref.
    eapply field_inside; try reflexivity.
    apply field_here; reflexivity.
  - intros key Hkey. rewrite (Henv key Hkey). reflexivity.
Qed.

(** After [InitConfig] returned nil with loading enabled, every pointer
    field the walker looks at in the caller's structure is non-nil. *)
Lemma InitConfig_sets_pointers (os : OS) (options : list ConfigurationOption)
    (name : string) (fields : list StructField) (vals vals1 : list gval)
    (c : Configuration) (m : configurationMetadata) (evs : list event) :
  InitConfig_range os options (TStruct name fields) vals 0 fields = LoopEnd (Some c) vals1 evs ->
  Metadata c = Some m ->
  load m = true ->
  ret (InitConfig os (addressOf (TStruct name fields) (VStruct vals)) options) = RetNil ->
  pointers_set (TPtr (TStruct name fields))
    (graph_value (InitConfig os (addressOf (TStruct name fields) (VStruct vals)) options)).
Proof.
  intros Hloop Hmeta Hload. unfold addressOf. cbn [InitConfig].
  rewrite Hloop. cbn [InitConfig_finish]. rewrite Hmeta, Hload.
  cbn [walkStructure].
  destruct (walkFields (TStruct name fields) (VStruct vals1) true 0 "" providers)
    as [x' [e |] |] eqn:Hwalk; intros Hret; try discriminate Hret.
  cbn [graph_value graph].
  intros path ft fv elem Hat Hty. inversion Hat; subst.
  eapply (proj1 (walkFields_sets_pointers (TStruct name fields))); eassumption.
Qed.

(** ** The walker on the structures of the tests *)

Lemma C6_walk_leaves_no_nil_pointer_witness :
  exists s',
    walkStructure (TPtr WalkerA) (VPtr (Some walkerA_value)) 0 "" providers = Returned s' None
    /\ pointers_allocated (TPtr WalkerA) s'
    /\ pointers_set (TPtr WalkerA) s'
    /\ (exists x, field_at (TPtr WalkerA) s' [8%nat; 3%nat]
                    (mkField "WalkerCPtr" "" false (TPtr WalkerC)) (VPtr (Some x))).
Proof.
  assert (Hrun : exists s',
             walkStructure (TPtr WalkerA) (VPtr (Some walkerA_value)) 0 "" providers
             = Returned s' None).
  { vm_compute. eexists. reflexivity. }
  destruct Hrun as [s' Hrun]. exists s'. split; [exact Hrun |].
  destruct (C6_walk_leaves_no_nil_pointer WalkerA walkerA_value 0 "" providers s' Hrun)
    as (Halloc & Hset & _).
  split; [exact Halloc |]. split; [exact Hset |].
  apply (Halloc [8%nat; 3%nat] (mkField "WalkerCPtr" "" false (TPtr WalkerC)) WalkerC);
    [| reflexivity].
  apply walked_deref. eapply walked_inside; [reflexivity | reflexivity |].
  apply walked_here; reflexivity.
Defined.

(** C6 as stated fails: the structure embeds a struct of unexported type
    whose pointer field [Ptr] is exported, so that [Ptr] is promoted and
    [reflect] can set it; the walker skips the embedded field, returns
    without error, and [Ptr] is still nil. *)
Lemma C6_promoted_pointer_stays_nil :
  walkStructure (TPtr configPromoted) (VPtr (Some (zero configPromoted))) 0 "" providers
  = Returned
      (VPtr (Some (VStruct [ VStruct [VPtr None];
                             VPtr (Some (reflect_Configuration
                                           (fill_sections emptyConfiguration))) ])))
      None
  /\ settable_at (TPtr configPromoted)
       (VPtr (Some (VStruct [ VStruct [VPtr None];
                              VPtr (Some (reflect_Configuration
                                            (fill_sections emptyConfiguration))) ])))
       [0%nat; 0%nat] (mkField "Ptr" "" false (TPtr WalkerC)) (VPtr None)
  /\ IsExported (mkField "Ptr" "" false (TPtr WalkerC)) = true
  /\ visited (mkField "inner" clifPkg true promotedInner) = false.
Proof.
  split; [vm_compute; reflexivity |].
  split; [| split; reflexivity].
  apply settable_deref. eapply settable_inside; try reflexivity.
  apply settable_here; reflexivity.
Qed.

Lemma C8_second_walk_changes_nothing_witness :
  exists s',
    walkStructure (TPtr WalkerA) (VPtr (Some walkerA_value)) 0 "" providers = Returned s' None
    /\ walkStructure (TPtr WalkerA) s' 0 "" providers = Returned s' None.
Proof.
  assert (Hrun : exists s',
             walkStructure (TPtr WalkerA) (VPtr (Some walkerA_value)) 0 "" providers
             = Returned s' None).
  { vm_compute. eexists. reflexivity. }
  destruct Hrun as [s' Hrun]. exists s'. split; [exact Hrun |].
  exact (C8_second_walk_changes_nothing WalkerA (VPtr (Some walkerA_value)) s' 0 ""
           providers providers_stable Hrun).
Defined.

(** The walk of [&WalkerA{WalkerBPtr: &WalkerB{}}] allocates the nested
    pointers, the core configuration and its sections. *)
Example walk_WalkerA_allocates :
  exists s',
    walkStructure (TPtr WalkerA) (VPtr (Some walkerA_value)) 0 "" providers = Returned s' None
    /\ value_at (VPtr (Some walkerA_value)) [8%nat; 3%nat] = Some (VPtr None)
    /\ value_at s' [8%nat; 3%nat]
       = Some (VPtr (Some (VStruct [VLeaf (DString ""); VLeaf (DString "")])))
    /\ value_at (VPtr (Some walkerA_value)) [10%nat] = Some (VPtr None)
    /\ value_at s' [10%nat; 2%nat] = Some (VPtr (Some (VStruct [VPtr None]))).
Proof. vm_compute. eexists. repeat split; reflexivity. Qed.

(** * Further properties *)

(** ** The anchor: which field decides *)

(** The loop of [InitConfig] passes over the fields that convert neither to
    the core configuration nor to the pointer to it. *)
Lemma InitConfig_range_first (os : OS) (options : list ConfigurationOption)
    (t : gtype) (vals : list gval) (rest : list StructField) :
  forall (i0 i : nat) (ft : StructField),
    rest !! i = Some ft ->
    (forall j ft', (j < i)%nat -> rest !! j = Some ft' ->
       CanConvert (FType ft') configurationTypePtr = false
       /\ CanConvert (FType ft') configurationType = false) ->
    InitConfig_range os options t vals i0 rest
    = InitConfig_range os options t vals (i0 + i) (ft :: drop (S i) rest).
Proof.
  induction rest as [| ft0 rest IH]; intros i0 i ft Hi Hbefore.
  - destruct i; discriminate Hi.
  - destruct i as [| i].
    + inversion Hi; subst. rewrite Nat.add_0_r. cbn [drop]. rewrite drop_0. reflexivity.
    + cbn [InitConfig_range].
      destruct (Hbefore 0%nat ft0 (Nat.lt_0_succ i) eq_refl) as [-> ->].
      rewrite (IH (S i0) i ft Hi).
      * replace (S i0 + i)%nat with (i0 + S i)%nat by lia. reflexivity.
      * intros j ft' Hj Hlook. apply (Hbefore (S j) ft'); [lia | exact Hlook].
Qed.

Lemma InitConfig_range_none (os : OS) (options : list ConfigurationOption)
    (t : gtype) (vals : list gval) (rest : list StructField) :
  forall i0,
    (forall ft, In ft rest ->
       CanConvert (FType ft) configurationTypePtr = false
       /\ CanConvert (FType ft) configurationType = false) ->
    InitConfig_range os options t vals i0 rest = LoopEnd None vals [].
Proof.
  induction rest as [| ft rest IH]; intros i0 Hnone; [reflexivity |].
  cbn [InitConfig_range].
  destruct (Hnone ft (or_introl eq_refl)) as [-> ->].
  apply IH. intros ft' Hin. apply Hnone. right. exact Hin.
Qed.

(** X1.  A structure none of whose fields converts to the core
    configuration or to the pointer to it is refused with
    [ErrMissingCoreConfig]; the structure is left as it was and no step was
    taken. *)
Theorem InitConfig_missing_core (os : OS) (options : list ConfigurationOption)
    (name : string) (fields : list StructField) (vals : list gval) :
  (forall ft, In ft fields ->
     CanConvert (FType ft) configurationTypePtr = false
     /\ CanConvert (FType ft) configurationType = false) ->
  InitConfig os (addressOf (TStruct name fields) (VStruct vals)) options
  = mkInit (RetErr (InvalidInitConfigError ErrMissingCoreConfig None None))
           (addressOf (TStruct name fields) (VStruct vals)) []
  /\ Error (InvalidInitConfigError ErrMissingCoreConfig None None)
     = "configuration error - InitConfig(core configuration not present)".
Proof.
  intros Hnone. split; [| reflexivity].
  unfold addressOf. cbn [InitConfig].
  rewrite (InitConfig_range_none os options _ vals fields 0%nat Hnone). reflexivity.
Qed.

Lemma InitConfig_missing_core_witness :
  InitConfig testOS (addressOf configB (zero configB)) walker_options
  = mkInit (RetErr (InvalidInitConfigError ErrMissingCoreConfig None None))
           (addressOf configB (zero configB)) []
  /\ Error (InvalidInitConfigError ErrMissingCoreConfig None None)
     = "configuration error - InitConfig(core configuration not present)".
Proof.
  apply (InitConfig_missing_core testOS walker_options "clif.configB"
           [ mkField "name" clifPkg false stringType ] (fields_of (zero configB))).
  intros ft [<- | []]. split; reflexivity.
Defined.

(** X2.  When the first field that converts to the core configuration or
    to the pointer to it is an embedded (anonymous) pointer, [InitConfig]
    returns [ErrAnonymousCoreConfig], whether the field is exported or not;
    the structure is left as it was. *)
Theorem InitConfig_anonymous_core (os : OS) (options : list ConfigurationOption)
    (name : string) (fields : list StructField) (vals : list gval)
    (i : nat) (ft : StructField) :
  fields !! i = Some ft ->
  CanConvert (FType ft) configurationTypePtr = true ->
  Anonymous ft = true ->
  (forall j ft', (j < i)%nat -> fields !! j = Some ft' ->
     CanConvert (FType ft') configurationTypePtr = false
     /\ CanConvert (FType ft') configurationType = false) ->
  InitConfig os (addressOf (TStruct name fields) (VStruct vals)) options
  = mkInit (RetErr (InvalidInitConfigError ErrAnonymousCoreConfig None None))
           (addressOf (TStruct name fields) (VStruct vals)) [].
Proof.
  intros Hi Hconv Hanon Hbefore. unfold addressOf. cbn [InitConfig].
  rewrite (InitConfig_range_first os options _ vals fields 0%nat i ft Hi Hbefore).
  cbn [InitConfig_range]. rewrite Hconv, Hanon. reflexivity.
Qed.

Lemma InitConfig_anonymous_core_witness :
  InitConfig testOS (addressOf configCPtr (zero configCPtr)) walker_options
  = mkInit (RetErr (InvalidInitConfigError ErrAnonymousCoreConfig None None))
           (addressOf configCPtr (zero configCPtr)) [].
Proof.
  apply (InitConfig_anonymous_core testOS walker_options "clif.configCPtr"
           [ mkField "Configuration" "" true configurationTypePtr;
             mkField "name" clifPkg false stringType ]
           (fields_of (zero configCPtr)) 0%nat
           (mkField "Configuration" "" true configurationTypePtr)).
  - reflexivity.
  - reflexivity.
  - reflexivity.
  - intros j ft' Hj. lia.
Defined.

(** X3.  When the first field that converts to the core configuration or
    to the pointer to it holds the core configuration by value, named or
    embedded, [InitConfig] returns the error whose [Type] is the core
    configuration type and whose text says so; the structure is left as it
    was. *)
Theorem InitConfig_core_by_value (os : OS) (options : list ConfigurationOption)
    (name : string) (fields : list StructField) (vals : list gval)
    (i : nat) (ft : StructField) :
  fields !! i = Some ft ->
  CanConvert (FType ft) configurationTypePtr = false ->
  CanConvert (FType ft) configurationType = true ->
  (forall j ft', (j < i)%nat -> fields !! j = Some ft' ->
     CanConvert (FType ft') configurationTypePtr = false
     /\ CanConvert (FType ft') configurationType = false) ->
  InitConfig os (addressOf (TStruct name fields) (VStruct vals)) options
  = mkInit (RetErr (InvalidInitConfigError "" None (Some configurationType)))
           (addressOf (TStruct name fields) (VStruct vals)) []
  /\ Error (InvalidInitConfigError "" None (Some configurationType))
     = "configuration error - InitConfig(non-pointer of embedded clif.Configuration)".
Proof.
  intros Hi Hptr Hcore Hbefore. split; [| reflexivity].
  unfold addressOf. cbn [InitConfig].
  rewrite (InitConfig_range_first os options _ vals fields 0%nat i ft Hi Hbefore).
  cbn [InitConfig_range]. rewrite Hptr, Hcore. reflexivity.
Qed.

Lemma InitConfig_core_by_value_witness :
  InitConfig testOS (addressOf configD (zero configD)) walker_options
  = mkInit (RetErr (InvalidInitConfigError "" None (Some configurationType)))
           (addressOf configD (zero configD)) []
  /\ Error (InvalidInitConfigError "" None (Some configurationType))
     = "configuration error - InitConfig(non-pointer of embedded clif.Configuration)".
Proof.
  apply (InitConfig_core_by_value testOS walker_options "clif.configD"
           [ mkField "Core" "" false configurationType;
             mkField "name" clifPkg false stringType ]
           (fields_of (zero configD)) 0%nat
           (mkField "Core" "" false configurationType)).
  - reflexivity.
  - reflexivity.
  - reflexivity.
  - intros j ft' Hj. lia.
Defined.

(** ** Options *)

Lemma options_range_kinds (kinds : list option_kind) :
  forall (n : nat) (c : Configuration) (m : configurationMetadata),
    Metadata c = Some m ->
    options_range (map option_of kinds) n c
    = Some (mkConfiguration (data c) (Some (options_metadata kinds m)) (Logger c) (Console c),
            None, map EvOption (seq n (length kinds))).
Proof.
  induction kinds as [| k kinds IH]; intros n c m Hm.
  - cbn. unfold options_metadata. cbn. rewrite !andb_true_r.
    destruct c as [d md lg cs]. cbn in *. subst md. destruct m. reflexivity.
  - cbn [map options_range].
    assert (Hstep : exists m1,
               option_of k c = Some (mkConfiguration (data c) (Some m1) (Logger c) (Console c), None)
               /\ options_metadata kinds m1 = options_metadata (k :: kinds) m).
    { destruct k; cbn [option_of]; unfold ConfigurationOptionWaitGroup,
        ConfigurationOptionAppName, ConfigurationOptionConfigDir,
        ConfigurationOptionConfigFile, configurationOptionNoLoad,
        configurationOptionNoWatch, withMetadata; rewrite Hm;
        eexists; (split; [reflexivity |]); unfold options_metadata; cbn;
        rewrite ?andb_false_r, ?andb_false_l; reflexivity. }
    destruct Hstep as (m1 & -> & Hm1).
    rewrite (IH (S n) (mkConfiguration (data c) (Some m1) (Logger c) (Console c)) m1 eq_refl).
    cbn. rewrite Hm1. reflexivity.
Qed.

(** What [newConfiguration] does with options of the package on a
    configuration that has metadata. *)
Lemma newConfiguration_kinds (os : OS) (kinds : list option_kind) (c : Configuration)
    (m : configurationMetadata) :
  Metadata c = Some m ->
  let m' := options_metadata kinds m in
  let registry := match data c with None => Some (mkData ∅) | Some d => Some d end in
  let opts := map EvOption (seq 0 (length kinds)) in
  newConfiguration os (map option_of kinds) c
  = if watch_ m' then
      match fsnotify_NewWatcher os with
      | inl h =>
          Some (mkConfiguration registry (Some (with_watcher (Some h) m')) (Logger c) (Console c),
                None, opts ++ [EvNewWatcher; EvGoWatch])
      | inr e =>
          Some (mkConfiguration registry (Some (with_watcher None m')) (Logger c) (Console c),
                Some e, opts ++ [EvNewWatcher])
      end
    else Some (mkConfiguration registry (Some m') (Logger c) (Console c), None, opts).
Proof.
  intros Hm. unfold newConfiguration.
  destruct (data c) as [d |] eqn:Hd.
  - rewrite (options_range_kinds kinds 0 c m Hm). cbn [Metadata data Logger Console].
    rewrite Hd. destruct (watch_ (options_metadata kinds m)) eqn:Hw; [| reflexivity].
    destruct (fsnotify_NewWatcher os); unfold with_watcher; rewrite Hw; reflexivity.
  - rewrite (options_range_kinds kinds 0
               (mkConfiguration (Some (mkData ∅)) (Metadata c) (Logger c) (Console c)) m Hm).
    cbn [Metadata data Logger Console].
    destruct (watch_ (options_metadata kinds m)) eqn:Hw; [| reflexivity].
    destruct (fsnotify_NewWatcher os); unfold with_watcher; rewrite Hw; reflexivity.
Qed.

(** X4.  With the options of the package, [newConfiguration] never
    panics and always leaves a registry; the metadata it leaves is decided
    field by field by the last option of the matching kind; it fails only
    when watching is still enabled and the file watcher cannot be created,
    and it starts the watcher exactly when watching is still enabled and
    the file watcher was created. *)
Theorem newConfiguration_with_package_options (os : OS) (kinds : list option_kind)
    (c : Configuration) (m : configurationMetadata) :
  Metadata c = Some m ->
  exists c' err evs h,
    newConfiguration os (map option_of kinds) c = Some (c', err, evs)
    /\ data c' <> None
    /\ (forall d, data c = Some d -> data c' = Some d)
    /\ Metadata c' = Some (with_watcher h (options_metadata kinds m))
    /\ Logger c' = Logger c /\ Console c' = Console c
    /\ (err <> None <->
        watch_ (options_metadata kinds m) = true
        /\ exists e, fsnotify_NewWatcher os = inr e /\ err = Some e)
    /\ (In EvGoWatch evs <->
        watch_ (options_metadata kinds m) = true
        /\ exists h', fsnotify_NewWatcher os = inl h').
Proof.
  intros Hm. pose proof (newConfiguration_kinds os kinds c m Hm) as Hnew. cbn zeta in Hnew.
  assert (Hopts : ~ In EvGoWatch (map EvOption (seq 0 (length kinds)))).
  { intros Hin. apply in_map_iff in Hin. destruct Hin as (n & Hn & _). discriminate Hn. }
  assert (Hreg : match data c with None => Some (mkData ∅) | Some d => Some d end <> None)
    by (destruct (data c); discriminate).
  assert (Hkeep : forall d, data c = Some d ->
            match data c with None => Some (mkData ∅) | Some d => Some d end = Some d)
    by (intros d ->; reflexivity).
  destruct (watch_ (options_metadata kinds m)) eqn:Hw.
  - destruct (fsnotify_NewWatcher os) as [h | e] eqn:Hfs.
    + do 3 eexists. exists (Some h). split; [exact Hnew |].
      cbn [data Metadata Logger Console].
      split; [exact Hreg |]. split; [exact Hkeep |].
      split; [reflexivity |]. split; [reflexivity |]. split; [reflexivity |].
      split; split.
      * intros Hne. contradiction.
      * intros (_ & e & He & _). discriminate He.
      * intros _. eauto.
      * intros _. apply in_or_app. right. simpl. auto.
    + do 3 eexists. exists None. split; [exact Hnew |].
      cbn [data Metadata Logger Console].
      split; [exact Hreg |]. split; [exact Hkeep |].
      split; [reflexivity |]. split; [reflexivity |]. split; [reflexivity |].
      split; split.
      * intros _. eauto.
      * intros _. discriminate.
      * intros Hin. exfalso. apply in_app_or in Hin. destruct Hin as [Hin | [Hin | []]];
          [exact (Hopts Hin) | discriminate Hin].
      * intros (_ & h' & Hh). discriminate Hh.
  - do 3 eexists. exists (watcher m). split; [exact Hnew |].
    cbn [data Metadata Logger Console].
    split; [exact Hreg |]. split; [exact Hkeep |].
    split; [unfold with_watcher, options_metadata; cbn; reflexivity |].
    split; [reflexivity |]. split; [reflexivity |].
    split; split.
    + intros Hne. contradiction.
    + intros (H & _). discriminate H.
    + intros Hin. exfalso. exact (Hopts Hin).
    + intros (H & _). discriminate H.
Qed.

Lemma newConfiguration_with_package_options_witness :
  exists c' err evs h,
    newConfiguration testOS
      (map option_of [OptConfigFile "settings.json"; OptNoWatch; OptAppName "demo"])
      (fst (setMetadataDefaults testOS emptyConfiguration))
    = Some (c', err, evs)
    /\ data c' <> None
    /\ Metadata c'
       = Some (with_watcher h
                 (mkMetadata "demo" "settings.json" "/home/tester"
                    "/home/tester/config.yaml" true false None None))
    /\ err = None.
Proof.
  destruct (newConfiguration_with_package_options testOS
              [OptConfigFile "settings.json"; OptNoWatch; OptAppName "demo"]
              (fst (setMetadataDefaults testOS emptyConfiguration))
              (default_metadata testOS "/home/tester") eq_refl)
    as (c' & err & evs & h & Hnew & Hdata & _ & Hmeta & _ & _ & Herr & _).
  exists c', err, evs, h. split; [exact Hnew |]. split; [exact Hdata |].
  split; [exact Hmeta |].
  destruct err as [e |]; [| reflexivity].
  assert (Hne : Some e <> None) by discriminate.
  apply Herr in Hne. destruct Hne as [Hw _]. discriminate Hw.
Defined.

Lemma setMetadataDefaults_empty (os : OS) (home : string) :
  user_Current os = inl home ->
  setMetadataDefaults os emptyConfiguration
  = (mkConfiguration None (Some (default_metadata os home)) None None, None).
Proof. intros Hu. unfold setMetadataDefaults. rewrite Hu. reflexivity. Qed.

Lemma options_events_quiet (p : event -> bool) (n len : nat) :
  (forall k, p (EvOption k) = false) ->
  Forall (fun e => p e = false) (map EvOption (seq n len)).
Proof.
  intros Hp. apply Forall_forall. intros e He.
  apply list_elem_of_In, in_map_iff in He. destruct He as (k & <- & _). apply Hp.
Qed.

(** The loop of [InitConfig], when [OptNoLoad] is among the options, is
    left without any step that reads, decodes or walks, and with loading
    switched off. *)
Lemma InitConfig_anchor_NoLoad (os : OS) (kinds : list option_kind) (t : gtype)
    (vals : list gval) (i : nat) :
  existsb isNoLoad kinds = true ->
  (exists r c evs,
      InitConfig_anchor os (map option_of kinds) t vals i
      = LoopReturn (mkInit r (IVal (TPtr t) (VPtr (Some (VStruct (plug i c vals))))) evs)
      /\ Forall (fun e => populates e = false) evs)
  \/ (exists c m evs,
      InitConfig_anchor os (map option_of kinds) t vals i
      = LoopEnd (Some c) (plug i c vals) evs
      /\ Metadata c = Some m /\ load m = false
      /\ Forall (fun e => populates e = false) evs).
Proof.
  intros Hno. unfold InitConfig_anchor.
  destruct (user_Current os) as [home | e] eqn:Hu.
  - rewrite (setMetadataDefaults_empty os home Hu). cbv beta iota zeta.
    rewrite (newConfiguration_kinds os kinds
               (mkConfiguration None (Some (default_metadata os home)) None None)
               (default_metadata os home) eq_refl).
    cbv beta iota zeta. cbn [data Logger Console].
    assert (Hload : load (options_metadata kinds (default_metadata os home)) = false).
    { unfold options_metadata. cbn [load]. rewrite Hno. apply andb_false_r. }
    assert (Hopts : Forall (fun e => populates e = false)
                      (map EvOption (seq 0 (length kinds))))
      by (apply options_events_quiet; reflexivity).
    destruct (watch_ (options_metadata kinds (default_metadata os home))).
    + destruct (fsnotify_NewWatcher os) as [h | e].
      * right. cbn [Metadata]. unfold with_watcher at 1. cbn [load]. rewrite Hload.
        do 3 eexists. split; [reflexivity |]. split; [reflexivity |].
        split; [exact Hload |].
        repeat apply Forall_cons_2; try reflexivity.
        apply Forall_app_2; [exact Hopts |].
        repeat apply Forall_cons_2; try reflexivity. apply Forall_nil_2.
      * left. do 3 eexists. split; [reflexivity |].
        repeat apply Forall_cons_2; try reflexivity.
        apply Forall_app_2; [exact Hopts |].
        repeat apply Forall_cons_2; try reflexivity. apply Forall_nil_2.
    + right. cbn [Metadata]. rewrite Hload.
      do 3 eexists. split; [reflexivity |]. split; [reflexivity |].
      split; [exact Hload |].
      repeat apply Forall_cons_2; try reflexivity. exact Hopts.
  - left. unfold setMetadataDefaults. rewrite Hu.
    do 3 eexists. split; [reflexivity |].
    repeat apply Forall_cons_2; try reflexivity. apply Forall_nil_2.
Qed.

Lemma InitConfig_range_NoLoad (os : OS) (kinds : list option_kind) (t : gtype)
    (vals : list gval) (rest : list StructField) :
  existsb isNoLoad kinds = true ->
  forall i,
    (exists r g evs,
        InitConfig_range os (map option_of kinds) t vals i rest = LoopReturn (mkInit r g evs)
        /\ Forall (fun e => populates e = false) evs
        /\ (g = IVal (TPtr t) (VPtr (Some (VStruct vals)))
            \/ exists j c, g = IVal (TPtr t) (VPtr (Some (VStruct (plug j c vals))))))
    \/ InitConfig_range os (map option_of kinds) t vals i rest = LoopEnd None vals []
    \/ (exists j c m evs,
        InitConfig_range os (map option_of kinds) t vals i rest
        = LoopEnd (Some c) (plug j c vals) evs
        /\ Metadata c = Some m /\ load m = false
        /\ Forall (fun e => populates e = false) evs).
Proof.
  intros Hno. induction rest as [| ft rest IH]; intros i.
  - right. left. reflexivity.
  - cbn [InitConfig_range].
    destruct (CanConvert (FType ft) configurationTypePtr).
    + destruct (Anonymous ft).
      { left. do 3 eexists. split; [reflexivity |]. split; [apply Forall_nil_2 | left; reflexivity]. }
      destruct (negb (IsExported ft)).
      { left. do 3 eexists. split; [reflexivity |]. split; [apply Forall_nil_2 | left; reflexivity]. }
      destruct (assignable configurationTypePtr (FType ft)).
      * destruct (InitConfig_anchor_NoLoad os kinds t vals i Hno)
          as [(r & c & evs & -> & Hq) | (c & m & evs & -> & Hm & Hl & Hq)].
        -- left. do 3 eexists. split; [reflexivity |]. split; [exact Hq |]. right. eauto.
        -- right. right. exists i, c, m, evs. auto.
      * left. do 3 eexists. split; [reflexivity |].
        split; [apply Forall_nil_2 | left; reflexivity].
    + destruct (CanConvert (FType ft) configurationType).
      { left. do 3 eexists. split; [reflexivity |]. split; [apply Forall_nil_2 | left; reflexivity]. }
      apply IH.
Qed.

(** X5.  When [configurationOptionNoLoad] is among the options (wherever
    it stands, the other options being options of the package),
    [InitConfig] never reads or decodes the file and never walks the
    structure; of the caller's structure it changes at most the anchor
    field. *)
Theorem InitConfig_NoLoad_reads_nothing (os : OS) (configuration : iface)
    (kinds : list option_kind) :
  existsb isNoLoad kinds = true ->
  Forall (fun e => populates e = false)
         (events (InitConfig os configuration (map option_of kinds)))
  /\ (graph (InitConfig os configuration (map option_of kinds)) = configuration
      \/ exists t vals j c,
           configuration = addressOf t (VStruct vals)
           /\ graph (InitConfig os configuration (map option_of kinds))
              = addressOf t (VStruct (plug j c vals))).
Proof.
  intros Hno.
  destruct configuration as [| t v]; [split; [apply Forall_nil_2 | left; reflexivity] |].
  destruct t as [k n | n f | e]; try (split; [apply Forall_nil_2 | left; reflexivity]).
  destruct e as [k n | n f | e], v as [d | vs | [x |]];
    try (split; [apply Forall_nil_2 | left; reflexivity]);
    destruct x as [d' | vals | p]; try (split; [apply Forall_nil_2 | left; reflexivity]).
  cbn [InitConfig].
  destruct (InitConfig_range_NoLoad os kinds (TStruct n f) vals f Hno 0%nat)
    as [(r & g & evs & -> & Hq & Hg) | [-> | (j & c & m & evs & -> & Hm & Hl & Hq)]];
    cbn [InitConfig_finish events graph].
  - split; [exact Hq |].
    destruct Hg as [-> | (j & c & ->)]; [left; reflexivity |].
    right. exists (TStruct n f), vals, j, c. split; reflexivity.
  - split; [apply Forall_nil_2 | left; reflexivity].
  - rewrite Hm, Hl. cbn [events graph]. split; [exact Hq |].
    right. exists (TStruct n f), vals, j, c. split; reflexivity.
Qed.

Lemma InitConfig_NoLoad_reads_nothing_witness :
  Forall (fun e => populates e = false)
         (events (InitConfig testOS (addressOf WalkerA walkerA_value)
                    (map option_of [OptNoLoad; OptConfigFile "testdata/config.yaml"])))
  /\ (graph (InitConfig testOS (addressOf WalkerA walkerA_value)
               (map option_of [OptNoLoad; OptConfigFile "testdata/config.yaml"]))
      = addressOf WalkerA walkerA_value
      \/ exists t vals j c,
           addressOf WalkerA walkerA_value = addressOf t (VStruct vals)
           /\ graph (InitConfig testOS (addressOf WalkerA walkerA_value)
                       (map option_of [OptNoLoad; OptConfigFile "testdata/config.yaml"]))
              = addressOf t (VStruct (plug j c vals))).
Proof.
  apply (InitConfig_NoLoad_reads_nothing testOS (addressOf WalkerA walkerA_value)
           [OptNoLoad; OptConfigFile "testdata/config.yaml"]).
  reflexivity.
Defined.

(** ** Options: watching switched off *)

Lemma InitConfig_anchor_NoWatch (os : OS) (kinds : list option_kind) (t : gtype)
    (vals : list gval) (i : nat) :
  existsb isNoWatch kinds = true ->
  Forall (fun e => isGoWatch e = false /\ e <> EvNewWatcher)
         (exit_events (InitConfig_anchor os (map option_of kinds) t vals i)).
Proof.
  intros Hno. unfold InitConfig_anchor.
  assert (Hq : forall e, In e [EvSetAnchor i; EvUserCurrent] ->
                 isGoWatch e = false /\ e <> EvNewWatcher).
  { intros e [<- | [<- | []]]; split; try reflexivity; discriminate. }
  destruct (user_Current os) as [home | e] eqn:Hu.
  - rewrite (setMetadataDefaults_empty os home Hu). cbv beta iota zeta.
    rewrite (newConfiguration_kinds os kinds
               (mkConfiguration None (Some (default_metadata os home)) None None)
               (default_metadata os home) eq_refl).
    cbv beta iota zeta. cbn [data Logger Console].
    assert (Hw : watch_ (options_metadata kinds (default_metadata os home)) = false).
    { unfold options_metadata. cbn [watch_]. rewrite Hno. apply andb_false_r. }
    rewrite Hw. cbn [Metadata].
    assert (Hopts : Forall (fun e => isGoWatch e = false /\ e <> EvNewWatcher)
                      (map EvOption (seq 0 (length kinds)))).
    { apply Forall_forall. intros e He.
      apply list_elem_of_In, in_map_iff in He. destruct He as (k & <- & _).
      split; [reflexivity | discriminate]. }
    assert (Hev0 : Forall (fun e => isGoWatch e = false /\ e <> EvNewWatcher)
                     ([EvSetAnchor i; EvUserCurrent] ++ map EvOption (seq 0 (length kinds)))).
    { apply Forall_app_2; [| exact Hopts].
      apply Forall_forall. intros e He. apply Hq, list_elem_of_In, He. }
    destruct (load (options_metadata kinds (default_metadata os home))); [| exact Hev0].
    destruct (unmarshalConfigFile os _ t i _) as [[[[c3 vals3] err3] evs3] |] eqn:Hfile;
      [| exact Hev0].
    assert (Hevs3 : Forall (fun e => isGoWatch e = false /\ e <> EvNewWatcher) evs3).
    { revert Hfile. unfold unmarshalConfigFile. cbn [Metadata configFile].
      destruct (String.eqb _ ""); [intros H; inversion H; apply Forall_nil_2 |].
      destruct (os_ReadFile os _) as [bs | e].
      - destruct (String.eqb _ "json").
        + destruct (run_Unmarshal _ _ _ _ _ _) as [[c1 vals1] [e |]];
            intros H; inversion H; subst;
            repeat apply Forall_cons_2; try (split; [reflexivity | discriminate]);
            apply Forall_nil_2.
        + destruct (String.eqb _ "yaml" || String.eqb _ "yml").
          * destruct (run_Unmarshal _ _ _ _ _ _) as [[c1 vals1] [e |]];
              intros H; inversion H; subst;
              repeat apply Forall_cons_2; try (split; [reflexivity | discriminate]);
              apply Forall_nil_2.
          * intros H; inversion H; subst.
            repeat apply Forall_cons_2; try (split; [reflexivity | discriminate]);
              apply Forall_nil_2.
      - intros H; inversion H; subst.
        repeat apply Forall_cons_2; try (split; [reflexivity | discriminate]);
          apply Forall_nil_2. }
    destruct err3 as [e |]; cbn [exit_events events].
    + rewrite app_assoc. apply Forall_app_2; assumption.
    + rewrite app_assoc. apply Forall_app_2; [exact Hev0 |].
      apply Forall_app_2; [exact Hevs3 |].
      apply Forall_cons_2; [split; [reflexivity | discriminate] | apply Forall_nil_2].
  - unfold setMetadataDefaults. rewrite Hu. cbn [exit_events events].
    apply Forall_forall. intros e' He. apply Hq, list_elem_of_In, He.
Qed.

(** X6.  When [configurationOptionNoWatch] is among the options (the
    others being options of the package), [InitConfig] creates no file
    watcher and starts no watcher goroutine. *)
Theorem InitConfig_NoWatch_starts_no_watcher (os : OS) (configuration : iface)
    (kinds : list option_kind) :
  existsb isNoWatch kinds = true ->
  ~ In EvGoWatch (events (InitConfig os configuration (map option_of kinds)))
  /\ ~ In EvNewWatcher (events (InitConfig os configuration (map option_of kinds))).
Proof.
  intros Hno.
  assert (Hall : Forall (fun e => isGoWatch e = false /\ e <> EvNewWatcher)
                   (events (InitConfig os configuration (map option_of kinds)))).
  { destruct configuration as [| t v]; [apply Forall_nil_2 |].
    destruct t as [k n | n f | e]; try apply Forall_nil_2.
    destruct e as [k n | n f | e], v as [d | vs | [x |]]; try apply Forall_nil_2;
      destruct x as [d' | vals | p]; try apply Forall_nil_2.
    cbn [InitConfig].
    assert (Hrange : forall rest i,
               Forall (fun e => isGoWatch e = false /\ e <> EvNewWatcher)
                 (exit_events (InitConfig_range os (map option_of kinds) (TStruct n f)
                                 vals i rest))).
    { induction rest as [| ft rest IH]; intros i; [apply Forall_nil_2 |].
      cbn [InitConfig_range].
      destruct (CanConvert (FType ft) configurationTypePtr).
      - destruct (Anonymous ft); [apply Forall_nil_2 |].
        destruct (negb (IsExported ft)); [apply Forall_nil_2 |].
        destruct (assignable configurationTypePtr (FType ft)); [| apply Forall_nil_2].
        apply InitConfig_anchor_NoWatch, Hno.
      - destruct (CanConvert (FType ft) configurationType); [apply Forall_nil_2 | apply IH]. }
    specialize (Hrange f 0%nat).
    destruct (InitConfig_range os (map option_of kinds) (TStruct n f) vals 0 f)
      as [r | [c |] vals' evs]; cbn [exit_events InitConfig_finish events] in *;
      try exact Hrange.
    destruct (Metadata c) as [m |]; [| exact Hrange].
    destruct (load m); [| exact Hrange].
    destruct (walkStructure _ _ _ _ _) as [s' [e |] |]; cbn [events];
      (apply Forall_app_2; [exact Hrange |]);
      (apply Forall_cons_2; [split; [reflexivity | discriminate] | apply Forall_nil_2]). }
  rewrite Forall_forall in Hall. split; intros Hin; apply list_elem_of_In in Hin;
    destruct (Hall _ Hin) as [H1 H2]; [discriminate H1 | exact (H2 eq_refl)].
Qed.

Lemma InitConfig_NoWatch_starts_no_watcher_witness :
  ~ In EvGoWatch (events (InitConfig testOS (addressOf WalkerA walkerA_value)
                            (map option_of [OptNoWatch; OptConfigFile "testdata/config.yaml"])))
  /\ ~ In EvNewWatcher (events (InitConfig testOS (addressOf WalkerA walkerA_value)
                            (map option_of [OptNoWatch; OptConfigFile "testdata/config.yaml"]))).
Proof.
  apply (InitConfig_NoWatch_starts_no_watcher testOS (addressOf WalkerA walkerA_value)
           [OptNoWatch; OptConfigFile "testdata/config.yaml"]).
  reflexivity.
Defined.

(** ** The walker inside the core configuration *)

Lemma walkFields_core (c : Configuration) (level : Z) (key : string)
    (fs : list processFunc) :
  walkFields configurationType (reflect_Configuration c) true level key fs
  = Returned (reflect_Configuration (fill_sections c)) None.
Proof.
  destruct c as [d [m |] [l |] [cs |]]; reflexivity.
Qed.

(** X7.  Walking a core configuration allocates an empty metadata, logger
    or console section where the pointer is nil and changes nothing else.
    No provider is ever called: whatever the providers are, the walk
    returns without error, because every setting of the toolkit (level,
    colorized, width, height, the metadata) sits in an unexported field. *)
Theorem walk_of_core_configuration (c : Configuration) (level : Z) (key : string)
    (fs : list processFunc) :
  walkStructure configurationTypePtr (VPtr (Some (reflect_Configuration c))) level key fs
  = Returned (VPtr (Some (reflect_Configuration (fill_sections c)))) None
  /\ data (fill_sections c) = data c
  /\ (forall m, Metadata c = Some m -> Metadata (fill_sections c) = Some m)
  /\ (forall l, Logger c = Some l -> Logger (fill_sections c) = Some l)
  /\ (forall cs, Console c = Some cs -> Console (fill_sections c) = Some cs).
Proof.
  split.
  - unfold configurationTypePtr. cbn [walkStructure]. rewrite walkFields_core. reflexivity.
  - split; [reflexivity |].
    split; [intros m Hm | split; [intros l Hl | intros cs Hcs]];
      unfold fill_sections; cbn; rewrite ?Hm, ?Hl, ?Hcs; reflexivity.
Qed.

(** ** The anchor after a successful initialization *)

(** The anchor field as [unmarshalConfigFile] leaves it: it points to the
    core configuration, or a decoder has set it to nil. *)
Lemma unmarshalConfigFile_anchor (os : OS) (c c' : Configuration) (t : gtype) (i : nat)
    (vals vals' : list gval) (evf : list event) (m : configurationMetadata) (fv : gval) :
  Metadata c = Some m ->
  unmarshalConfigFile os c t i (plug i c vals) = Some (c', vals', None, evf) ->
  vals' !! i = Some fv ->
  fv = VPtr (Some (reflect_Configuration c')) \/ fv = VPtr None.
Proof.
  intros Hm Hfile Hlook.
  destruct (unmarshalConfigFile_cases _ _ _ _ _ _ _ _ _ Hm Hfile)
    as [(-> & -> & _) | (bs & _ & _ & Hdec)].
  - left. exact (plug_lookup _ _ _ _ Hlook).
  - unfold run_Unmarshal in Hdec.
    destruct (match dec_core _ with Some values => _ | None => _ end) as [cx hookErr].
    inversion Hdec; subst cx vals'.
    exact (anchor_after_lookup _ _ _ _ Hlook).
Qed.

(** X8.  When [InitConfig] returns nil for a structure whose value has one
    entry per field, the structure has an exported, named field of the
    type pointer-to-core-configuration that now points to a core
    configuration with non-nil metadata; and when the structure was walked
    (loading enabled) the logger and console sections are non-nil as well.
    This holds also when the decoder set the anchor field to nil (a null
    entry in the file): the walker then allocates a core configuration of
    its own. *)
Theorem InitConfig_success_sets_anchor (os : OS) (options : list ConfigurationOption)
    (name : string) (fields : list StructField) (vals : list gval) :
  length vals = length fields ->
  ret (InitConfig os (addressOf (TStruct name fields) (VStruct vals)) options) = RetNil ->
  exists i ft c m vals',
    fields !! i = Some ft
    /\ FType ft = configurationTypePtr /\ IsExported ft = true /\ Anonymous ft = false
    /\ graph (InitConfig os (addressOf (TStruct name fields) (VStruct vals)) options)
       = addressOf (TStruct name fields) (VStruct vals')
    /\ vals' !! i = Some (VPtr (Some (reflect_Configuration c)))
    /\ Metadata c = Some m
    /\ (load m = true -> Logger c <> None /\ Console c <> None)
    /\ (In EvWalk (events (InitConfig os (addressOf (TStruct name fields) (VStruct vals))
                             options)) ->
        Logger c <> None /\ Console c <> None).
Proof.
  intros Hlen Hret.
  destruct (InitConfig_returns_nil os options name fields vals Hret)
    as (j & ft & c2 & c3 & m & vals' & evs0 & Hj & Hty & Hexp & Hanon & Hm2 & Hm3
        & Hq & Hload & Hnoload).
  destruct (load m) eqn:Hl.
  - destruct (Hload eq_refl) as (evf & s' & Hfile & Hw & Heq). rewrite Heq.
    cbn [graph events]. cbn [walkStructure walkFields] in Hw.
    destruct (walk_range walkFields true 0 "" providers fields vals')
      as [vals2 [e |] |] eqn:Hrange; try discriminate Hw.
    inversion Hw; subst s'.
    destruct (walk_range_rounds _ _ _ _ _ _ _ _ Hrange j ft Hj)
      as (fv & fv' & Hold & Hnew & Hround).
    rewrite walk_field_visited_eq in Hround
      by (unfold visited; rewrite Hexp; reflexivity).
    rewrite Hty in Hround. unfold configurationTypePtr in Hround.
    destruct (unmarshalConfigFile_anchor _ _ _ _ _ _ _ _ _ _ Hm2 Hfile Hold) as [-> | ->].
    + rewrite walkFields_core in Hround. inversion Hround; subst fv'.
      exists j, ft, (fill_sections c3), m, vals2.
      split; [exact Hj |]. split; [exact Hty |]. split; [exact Hexp |].
      split; [exact Hanon |]. split; [reflexivity |]. split; [exact Hnew |].
      split; [unfold fill_sections; cbn; rewrite Hm3; reflexivity |].
      split; intros _; split; discriminate.
    + change (zero configurationType) with (reflect_Configuration emptyConfiguration)
        in Hround.
      rewrite walkFields_core in Hround. inversion Hround; subst fv'.
      exists j, ft, (fill_sections emptyConfiguration), emptyMetadata, vals2.
      split; [exact Hj |]. split; [exact Hty |]. split; [exact Hexp |].
      split; [exact Hanon |]. split; [reflexivity |]. split; [exact Hnew |].
      split; [reflexivity |].
      split; intros _; split; discriminate.
  - rewrite (Hnoload eq_refl). cbn [graph events].
    exists j, ft, c2, m, (plug j c2 vals).
    split; [exact Hj |]. split; [exact Hty |]. split; [exact Hexp |].
    split; [exact Hanon |]. split; [reflexivity |].
    split; [| split; [exact Hm2 | split]].
    + unfold plug. apply list_lookup_insert_eq.
      rewrite Hlen. eapply lookup_lt_Some. exact Hj.
    + intros H. congruence.
    + intros Hin. exfalso. rewrite Forall_forall in Hq.
      apply list_elem_of_In in Hin. specialize (Hq _ Hin). discriminate Hq.
Qed.

Lemma InitConfig_success_sets_anchor_witness :
  exists i ft c m vals',
    [ mkField "name" clifPkg false stringType;
      mkField "Core" "" false configurationTypePtr ] !! i = Some ft
    /\ FType ft = configurationTypePtr /\ IsExported ft = true /\ Anonymous ft = false
    /\ graph (InitConfig nullCoreOS (addressOf configDPtr (zero configDPtr)) walker_options)
       = addressOf configDPtr (VStruct vals')
    /\ vals' !! i = Some (VPtr (Some (reflect_Configuration c)))
    /\ Metadata c = Some m
    /\ (load m = true -> Logger c <> None /\ Console c <> None)
    /\ (In EvWalk (events (InitConfig nullCoreOS (addressOf configDPtr (zero configDPtr))
                             walker_options)) ->
        Logger c <> None /\ Console c <> None).
Proof.
  apply (InitConfig_success_sets_anchor nullCoreOS walker_options "clif.configDPtr"
           [ mkField "name" clifPkg false stringType;
             mkField "Core" "" false configurationTypePtr ]
           (fields_of (zero configDPtr))).
  - reflexivity.
  - vm_compute. reflexivity.
Defined.



(** The run of the witness is one in which the decoder set the anchor to
    nil: the core configuration the caller is left with is the one the
    walker allocated, with no registry and with empty metadata. *)
Example InitConfig_null_anchor_run :
  let r := InitConfig nullCoreOS (addressOf configDPtr (zero configDPtr)) walker_options in
  ret r = RetNil
  /\ graph r
     = addressOf configDPtr
         (VStruct [ VLeaf (DString "");
                    VPtr (Some (reflect_Configuration (fill_sections emptyConfiguration))) ])
  /\ data (fill_sections emptyConfiguration) = None
  /\ Metadata (fill_sections emptyConfiguration) = Some emptyMetadata.
Proof. vm_compute. repeat split; reflexivity. Qed.

(** ** Reading the sections *)

Lemma newLoggerConfiguration_range_data (values : list (string * dyn)) :
  forall c lc err,
    newLoggerConfiguration_range values c = (Some lc, err) ->
    err = None /\ exists d, lc = mkLogger (Some d).
Proof.
  induction values as [| [k v] rest IH]; intros c lc err Hrun.
  - inversion Hrun; subst. eauto.
  - cbn [newLoggerConfiguration_range] in Hrun.
    destruct (String.eqb k "level").
    + destruct (toString k v) as [lv [e |]]; [discriminate Hrun | eapply IH, Hrun].
    + destruct (String.eqb k "colorized").
      * destruct (toBool k v) as [cz [e |]]; [discriminate Hrun | eapply IH, Hrun].
      * eapply IH, Hrun.
Qed.

Lemma newConsoleConfiguration_range_data (values : list (string * dyn)) :
  forall c cc err,
    newConsoleConfiguration_range values c = (Some cc, err) ->
    err = None /\ exists d, cc = mkConsole (Some d).
Proof.
  induction values as [| [k v] rest IH]; intros c cc err Hrun.
  - inversion Hrun; subst. eauto.
  - cbn [newConsoleConfiguration_range] in Hrun.
    destruct (String.eqb k "width").
    + destruct (toInt k v) as [w [e |]]; [discriminate Hrun | eapply IH, Hrun].
    + destruct (String.eqb k "height").
      * destruct (toInt k v) as [h [e |]]; [discriminate Hrun | eapply IH, Hrun].
      * eapply IH, Hrun.
Qed.

(** X9.  A section that its decoder returned can be read and written
    without panic, whatever the mapping held: the getters return a value,
    and a setter followed by its getter returns the value set and leaves
    the other field alone.  A decoder never returns a section together
    with an error. *)
Theorem decoded_sections_are_usable (values : list (string * dyn)) :
  (forall lc err, newLoggerConfiguration values = (Some lc, err) ->
     err = None
     /\ exists s b, Level lc = Some s /\ Colorized lc = Some b
        /\ forall lv, exists lc', SetLevel lv lc = Some lc'
             /\ Level lc' = Some lv /\ Colorized lc' = Some b)
  /\ (forall cc err, newConsoleConfiguration values = (Some cc, err) ->
     err = None
     /\ exists w h, Width cc = Some w /\ Height cc = Some h
        /\ (forall w', exists cc', SetWidth w' cc = Some cc'
              /\ Width cc' = Some w' /\ Height cc' = Some h)
        /\ (forall h', exists cc', SetHeight h' cc = Some cc'
              /\ Width cc' = Some w /\ Height cc' = Some h')).
Proof.
  split.
  - intros lc err Hrun.
    destruct (newLoggerConfiguration_range_data _ _ _ _ Hrun) as (-> & d & ->).
    split; [reflexivity |]. exists (level d), (colorized d).
    split; [reflexivity |]. split; [reflexivity |].
    intros lv. eexists. split; [reflexivity |]. split; reflexivity.
  - intros cc err Hrun.
    destruct (newConsoleConfiguration_range_data _ _ _ _ Hrun) as (-> & d & ->).
    split; [reflexivity |]. exists (width d), (height d).
    split; [reflexivity |]. split; [reflexivity |]. split.
    + intros w'. eexists. split; [reflexivity |]. split; reflexivity.
    + intros h'. eexists. split; [reflexivity |]. split; reflexivity.
Qed.

(** X10.  A core configuration whose logger (or console) section is nil
    comes out of the walk with a section that is non-nil but has no data:
    every getter and setter of that section panics. *)
Theorem walked_sections_have_no_data (c : Configuration) (level : Z) (key : string)
    (fs : list processFunc) :
  Logger c = None \/ Console c = None ->
  exists c',
    walkStructure configurationTypePtr (VPtr (Some (reflect_Configuration c))) level key fs
    = Returned (VPtr (Some (reflect_Configuration c'))) None
    /\ (Logger c = None ->
        exists l, Logger c' = Some l /\ Level l = None /\ Colorized l = None
                  /\ forall lv, SetLevel lv l = None)
    /\ (Console c = None ->
        exists cs, Console c' = Some cs /\ Width cs = None /\ Height cs = None
                   /\ (forall w, SetWidth w cs = None) /\ (forall h, SetHeight h cs = None)).
Proof.
  intros _. exists (fill_sections c). split.
  - unfold configurationTypePtr. cbn [walkStructure]. rewrite walkFields_core. reflexivity.
  - split.
    + intros Hl. exists (mkLogger None). unfold fill_sections. cbn. rewrite Hl.
      repeat split; reflexivity.
    + intros Hc. exists (mkConsole None). unfold fill_sections. cbn. rewrite Hc.
      repeat split; reflexivity.
Qed.

Lemma walked_sections_have_no_data_witness :
  exists c',
    walkStructure configurationTypePtr
      (VPtr (Some (reflect_Configuration emptyConfiguration))) 0 "" providers
    = Returned (VPtr (Some (reflect_Configuration c'))) None
    /\ (Logger emptyConfiguration = None ->
        exists l, Logger c' = Some l /\ Level l = None /\ Colorized l = None
                  /\ forall lv, SetLevel lv l = None)
    /\ (Console emptyConfiguration = None ->
        exists cs, Console c' = Some cs /\ Width cs = None /\ Height cs = None
                   /\ (forall w, SetWidth w cs = None) /\ (forall h, SetHeight h cs = None)).
Proof.
  apply (walked_sections_have_no_data emptyConfiguration 0 "" providers).
  left. reflexivity.
Defined.

(** ** Sections of the top-level mapping *)

Lemma section_key_cases (k : string) :
  section_key k = true -> k = "logger" \/ k = "console".
Proof.
  unfold section_key. intros H. apply orb_true_iff in H.
  destruct H as [H | H]; apply String.eqb_eq in H; auto.
Qed.

Lemma section_key_false (k : string) :
  section_key k = false -> k <> "logger" /\ k <> "console".
Proof.
  unfold section_key. intros H. apply orb_false_iff in H.
  destruct H as [H1 H2]. apply String.eqb_neq in H1, H2. auto.
Qed.

Lemma sections_are_maps_cons (k : string) (v : dyn) (rest : list (string * dyn)) :
  sections_are_maps ((k, v) :: rest) ->
  (section_key k = true -> isMap v = true) /\ sections_are_maps rest.
Proof.
  intros H. split.
  - apply H. left. reflexivity.
  - intros k' v' Hin. apply H. right. exact Hin.
Qed.

(** While every recognised section is a mapping the loop does not return
    early: it goes on with the rest from the state reached. *)
Lemma unmarshalLoad_range_app (before : list (string * dyn)) :
  sections_are_maps before ->
  forall rest c err,
    unmarshalLoad_range (before ++ rest) c err
    = unmarshalLoad_range rest (fst (unmarshalLoad_range before c err))
        (snd (unmarshalLoad_range before c err)).
Proof.
  induction before as [| [k v] before IH]; intros Hmaps rest c err; [reflexivity |].
  apply sections_are_maps_cons in Hmaps. destruct Hmaps as [Hk Hmaps].
  cbn [app unmarshalLoad_range]. unfold section_key in Hk.
  destruct (String.eqb k "logger").
  - specialize (Hk eq_refl). destruct v; try discriminate Hk.
    destruct (newLoggerConfiguration m) as [lg err']. apply IH, Hmaps.
  - destruct (String.eqb k "console").
    + specialize (Hk eq_refl). destruct v; try discriminate Hk.
      destruct (newConsoleConfiguration m) as [cs err']. apply IH, Hmaps.
    + apply IH, Hmaps.
Qed.

Lemma unmarshalLoad_range_no_sections (values : list (string * dyn)) :
  no_sections values ->
  forall c err, unmarshalLoad_range values c err = (c, err).
Proof.
  induction values as [| [k v] rest IH]; intros Hno c err; [reflexivity |].
  destruct (section_key_false k (Hno k v (or_introl eq_refl))) as [Hl Hc].
  rewrite unmarshalLoad_range_skip by assumption.
  apply IH. intros k' v' Hin. apply (Hno k' v'). right. exact Hin.
Qed.

(** X11.  A recognised section ([logger] or [console]) whose value is not
    a mapping stops [unmarshalLoad] at once: it returns an error with the
    code of the logger data (also for the console section) that names the
    key, the sections decoded before stay as they were decoded, and the
    entries after it are not looked at. *)
Theorem unmarshalLoad_section_not_a_map (before after : list (string * dyn)) (k : string)
    (v : dyn) (c : Configuration) :
  sections_are_maps before ->
  section_key k = true ->
  isMap v = false ->
  unmarshalLoad (before ++ (k, v) :: after) c
  = (fst (unmarshalLoad before c), Some (sectionNotMapError k))
  /\ sectionNotMapError k
     = InvalidInitConfigError "CC03LC01"
         (Some (errorString (k +:+ " != map[string]interface{}"))) None
  /\ Error (sectionNotMapError k)
     = "configuration error - " +:+ k +:+ " != map[string]interface{}".
Proof.
  intros Hmaps Hk Hv. split; [| split; reflexivity].
  unfold unmarshalLoad. rewrite unmarshalLoad_range_app by exact Hmaps.
  cbn [unmarshalLoad_range]. unfold sectionNotMapError.
  destruct (section_key_cases k Hk) as [-> | ->]; cbn [String.eqb Ascii.eqb Bool.eqb];
    destruct v; try discriminate Hv; reflexivity.
Qed.

Lemma unmarshalLoad_section_not_a_map_witness :
  unmarshalLoad ([("logger", DMap [("level", DString "debug")])]
                 ++ ("console", DInt 80) :: [("logger", DMap [])]) emptyConfiguration
  = (fst (unmarshalLoad [("logger", DMap [("level", DString "debug")])] emptyConfiguration),
     Some (sectionNotMapError "console"))
  /\ sectionNotMapError "console"
     = InvalidInitConfigError "CC03LC01"
         (Some (errorString ("console" +:+ " != map[string]interface{}"))) None
  /\ Error (sectionNotMapError "console")
     = "configuration error - " +:+ "console" +:+ " != map[string]interface{}".
Proof.
  apply (unmarshalLoad_section_not_a_map
           [("logger", DMap [("level", DString "debug")])] [("logger", DMap [])]
           "console" (DInt 80) emptyConfiguration).
  - intros k v [H | []] _. inversion H. reflexivity.
  - reflexivity.
  - reflexivity.
Defined.

(** X12.  The error [unmarshalLoad] returns is the error of the decoder of
    the recognised section the iteration visits last: whatever an earlier
    section's decoder returned is overwritten. *)
Theorem unmarshalLoad_returns_last_section_error (before after : list (string * dyn))
    (k : string) (m : list (string * dyn)) (c : Configuration) :
  sections_are_maps before ->
  section_key k = true ->
  no_sections after ->
  snd (unmarshalLoad (before ++ (k, DMap m) :: after) c) = section_error k m.
Proof.
  intros Hmaps Hk Hno. unfold unmarshalLoad, section_error.
  rewrite unmarshalLoad_range_app by exact Hmaps.
  cbn [unmarshalLoad_range].
  destruct (section_key_cases k Hk) as [-> | ->]; cbn [String.eqb Ascii.eqb Bool.eqb].
  - destruct (newLoggerConfiguration m) as [lg err'].
    rewrite unmarshalLoad_range_no_sections by exact Hno. reflexivity.
  - destruct (newConsoleConfiguration m) as [cs err'].
    rewrite unmarshalLoad_range_no_sections by exact Hno. reflexivity.
Qed.

Lemma unmarshalLoad_returns_last_section_error_witness :
  snd (unmarshalLoad ([("logger", DMap [("level", DInt 3)])]
                      ++ ("console", DMap [("width", DInt 80)]) :: [("theme", DString "dark")])
         emptyConfiguration)
  = section_error "console" [("width", DInt 80)]
  /\ section_error "console" [("width", DInt 80)] = None
  /\ snd (newLoggerConfiguration [("level", DInt 3)]) <> None.
Proof.
  split; [| split; [reflexivity | discriminate]].
  apply (unmarshalLoad_returns_last_section_error
           [("logger", DMap [("level", DInt 3)])] [("theme", DString "dark")]
           "console" [("width", DInt 80)] emptyConfiguration).
  - intros k v [H | []] _. inversion H. reflexivity.
  - reflexivity.
  - intros k v [H | []]. inversion H. reflexivity.
Defined.

Lemma unmarshalLoad_range_sections (values : list (string * dyn)) :
  NoDup (map fst values) ->
  sections_are_maps values ->
  forall c err,
    (forall m, In ("logger", DMap m) values ->
       Logger (fst (unmarshalLoad_range values c err)) = fst (newLoggerConfiguration m))
    /\ (~ In "logger" (map fst values) ->
        Logger (fst (unmarshalLoad_range values c err)) = Logger c)
    /\ (forall m, In ("console", DMap m) values ->
          Console (fst (unmarshalLoad_range values c err)) = fst (newConsoleConfiguration m))
    /\ (~ In "console" (map fst values) ->
        Console (fst (unmarshalLoad_range values c err)) = Console c).
Proof.
  induction values as [| [k v] rest IH]; intros Hnd Hmaps c err.
  - repeat split; try reflexivity; intros m [].
  - cbn [map fst] in Hnd. apply NoDup_cons in Hnd. destruct Hnd as [Hfresh Hnd].
    rewrite list_elem_of_In in Hfresh.
    apply sections_are_maps_cons in Hmaps. destruct Hmaps as [Hk Hmaps].
    specialize (IH Hnd Hmaps).
    assert (Hkeys : forall (k' : string) (v' : dyn), In (k', v') rest -> In k' (map fst rest)).
    { intros k' v' Hin. apply (in_map fst) in Hin. exact Hin. }
    cbn [unmarshalLoad_range]. unfold section_key in Hk.
    destruct (String.eqb_spec k "logger") as [-> | Hl].
    + specialize (Hk eq_refl). destruct v; try discriminate Hk.
      destruct (newLoggerConfiguration m) as [lg err'] eqn:Hdec.
      destruct (IH (mkConfiguration (data c) (Metadata c) lg (Console c)) err')
        as (_ & IH2 & IH3 & IH4).
      split; [| split; [| split]].
      * intros m' [Heq | Hin].
        -- inversion Heq; subst m'. rewrite (IH2 Hfresh), Hdec. reflexivity.
        -- exfalso. apply Hfresh. exact (Hkeys _ _ Hin).
      * intros Hout. exfalso. apply Hout. left. reflexivity.
      * intros m' [Heq | Hin]; [discriminate Heq | exact (IH3 m' Hin)].
      * intros Hout. rewrite IH4; [reflexivity |].
        intros Hin. apply Hout. right. exact Hin.
    + destruct (String.eqb_spec k "console") as [-> | Hc].
      * specialize (Hk eq_refl). destruct v; try discriminate Hk.
        destruct (newConsoleConfiguration m) as [cs err'] eqn:Hdec.
        destruct (IH (mkConfiguration (data c) (Metadata c) (Logger c) cs) err')
          as (IH1 & IH2 & _ & IH4).
        split; [| split; [| split]].
        -- intros m' [Heq | Hin]; [discriminate Heq | exact (IH1 m' Hin)].
        -- intros Hout. rewrite IH2; [reflexivity |].
           intros Hin. apply Hout. right. exact Hin.
        -- intros m' [Heq | Hin].
           ++ inversion Heq; subst m'. rewrite (IH4 Hfresh), Hdec. reflexivity.
           ++ exfalso. apply Hfresh. exact (Hkeys _ _ Hin).
        -- intros Hout. exfalso. apply Hout. left. reflexivity.
      * destruct (IH c err) as (IH1 & IH2 & IH3 & IH4).
        split; [| split; [| split]].
        -- intros m' [Heq | Hin]; [inversion Heq; congruence | exact (IH1 m' Hin)].
        -- intros Hout. apply IH2. intros Hin. apply Hout. right. exact Hin.
        -- intros m' [Heq | Hin]; [inversion Heq; congruence | exact (IH3 m' Hin)].
        -- intros Hout. apply IH4. intros Hin. apply Hout. right. exact Hin.
Qed.

(** X13.  When the keys of the mapping are distinct (it is a Go map) and
    every recognised section is a mapping, [unmarshalLoad] leaves in each
    section of the core configuration what the section's decoder returned
    for it (nil when the decoder failed, whatever the section held
    before), leaves a section the mapping does not name as it was, and does
    not touch the metadata or the registry. *)
Theorem unmarshalLoad_sets_sections (values : list (string * dyn)) (c : Configuration) :
  NoDup (map fst values) ->
  sections_are_maps values ->
  (forall m, In ("logger", DMap m) values ->
     Logger (fst (unmarshalLoad values c)) = fst (newLoggerConfiguration m))
  /\ (~ In "logger" (map fst values) -> Logger (fst (unmarshalLoad values c)) = Logger c)
  /\ (forall m, In ("console", DMap m) values ->
        Console (fst (unmarshalLoad values c)) = fst (newConsoleConfiguration m))
  /\ (~ In "console" (map fst values) -> Console (fst (unmarshalLoad values c)) = Console c)
  /\ Metadata (fst (unmarshalLoad values c)) = Metadata c
  /\ data (fst (unmarshalLoad values c)) = data c.
Proof.
  intros Hnd Hmaps. unfold unmarshalLoad.
  destruct (unmarshalLoad_range_sections values Hnd Hmaps c None) as (H1 & H2 & H3 & H4).
  destruct (unmarshalLoad_range_Metadata values c None) as [H5 H6].
  repeat split; assumption.
Qed.

Lemma unmarshalLoad_sets_sections_witness :
  (forall m, In ("logger", DMap m) test_document ->
     Logger (fst (unmarshalLoad test_document emptyConfiguration))
     = fst (newLoggerConfiguration m))
  /\ (~ In "logger" (map fst test_document) ->
      Logger (fst (unmarshalLoad test_document emptyConfiguration))
      = Logger emptyConfiguration)
  /\ (forall m, In ("console", DMap m) test_document ->
        Console (fst (unmarshalLoad test_document emptyConfiguration))
        = fst (newConsoleConfiguration m))
  /\ (~ In "console" (map fst test_document) ->
      Console (fst (unmarshalLoad test_document emptyConfiguration))
      = Console emptyConfiguration)
  /\ Metadata (fst (unmarshalLoad test_document emptyConfiguration))
     = Metadata emptyConfiguration
  /\ data (fst (unmarshalLoad test_document emptyConfiguration)) = data emptyConfiguration.
Proof.
  apply (unmarshalLoad_sets_sections test_document emptyConfiguration).
  - apply (bool_decide_unpack _). vm_compute. reflexivity.
  - intros k v Hin _. vm_compute in Hin.
    repeat (destruct Hin as [Hin | Hin]; [inversion Hin; reflexivity |]).
    destruct Hin.
Defined.

(** ** Type and reading of the configuration file *)

Lemma after_last_dot_no_dot (s : string) : no_dot s = true -> after_last_dot s = None.
Proof.
  induction s as [| a rest IH]; intros H; [reflexivity |].
  cbn [no_dot] in H. apply andb_true_iff in H. destruct H as [Ha Hrest].
  cbn [after_last_dot]. rewrite (IH Hrest).
  destruct (Ascii.eqb a (Ascii.ascii_of_nat 46)); [discriminate Ha | reflexivity].
Qed.

Lemma after_last_dot_append (base ext : string) :
  no_dot ext = true -> after_last_dot (base +:+ "." +:+ ext) = Some ext.
Proof.
  intros Hext. induction base as [| a base IH].
  - change (after_last_dot (String (Ascii.ascii_of_nat 46) ext) = Some ext).
    cbn [after_last_dot]. rewrite (after_last_dot_no_dot ext Hext). reflexivity.
  - change (after_last_dot (String a (base +:+ "." +:+ ext)) = Some ext).
    cbn [after_last_dot]. rewrite IH. reflexivity.
Qed.

(** X14.  The type of the configuration file is [strings.ToLower] of the
    text after the last dot of its name, whatever precedes that dot
    (further dots included): for a text of ASCII bytes, that text with its
    letters ['A'] to ['Z'] lower-cased, byte by byte and whatever the
    library's Unicode mapping is; for any other text, what the library's
    Unicode mapping returns.  A name without a dot has the empty type. *)
Theorem configType_is_lowered_extension (os : OS) (m : configurationMetadata)
    (base ext : string) :
  no_dot ext = true ->
  configType os (with_configFile (base +:+ "." +:+ ext) m) = ToLower os ext
  /\ (isASCII ext = true ->
      configType os (with_configFile (base +:+ "." +:+ ext) m) = lower_bytes ext)
  /\ (isASCII ext = false ->
      configType os (with_configFile (base +:+ "." +:+ ext) m) = unicode_ToLower os ext)
  /\ configType os (with_configFile ext m) = "".
Proof.
  intros Hext. unfold configType, with_configFile. cbn [configFile].
  rewrite (after_last_dot_append base ext Hext), (after_last_dot_no_dot ext Hext).
  unfold ToLower.
  split; [reflexivity |]. split; [intros ->; reflexivity |].
  split; [intros ->; reflexivity | reflexivity].
Qed.

Lemma configType_is_lowered_extension_witness :
  configType testOS (with_configFile ("/etc/app.d/settings" +:+ "." +:+ "YAML") emptyMetadata)
  = ToLower testOS "YAML"
  /\ (isASCII "YAML" = true ->
      configType testOS
        (with_configFile ("/etc/app.d/settings" +:+ "." +:+ "YAML") emptyMetadata)
      = lower_bytes "YAML")
  /\ (isASCII "YAML" = false ->
      configType testOS
        (with_configFile ("/etc/app.d/settings" +:+ "." +:+ "YAML") emptyMetadata)
      = unicode_ToLower testOS "YAML")
  /\ configType testOS (with_configFile "YAML" emptyMetadata) = "".
Proof.
  apply (configType_is_lowered_extension testOS emptyMetadata "/etc/app.d/settings" "YAML").
  reflexivity.
Defined.

(** X15.  When the configuration file cannot be read, [unmarshalConfigFile]
    returns the file-read error that wraps the error of [os.ReadFile],
    whatever the type of the file; no decoder runs, and the core
    configuration and the caller's structure are as before. *)
Theorem unmarshalConfigFile_read_failure (os : OS) (c : Configuration)
    (m : configurationMetadata) (t : gtype) (i : nat) (vals : list gval) (e : error) :
  Metadata c = Some m ->
  configFile m <> "" ->
  os_ReadFile os (configFile m) = inr e ->
  unmarshalConfigFile os c t i vals
  = Some (c, vals, Some (InvalidInitConfigError ErrFileReadCoreConfig (Some e) None),
          [EvReadFile (configFile m)])
  /\ Error (InvalidInitConfigError ErrFileReadCoreConfig (Some e) None)
     = "configuration error - " +:+ Error e.
Proof.
  intros Hm Hfile Hread. split; [| reflexivity].
  unfold unmarshalConfigFile. rewrite Hm.
  destruct (String.eqb_spec (configFile m) ""); [contradiction |].
  rewrite Hread. reflexivity.
Qed.

Lemma unmarshalConfigFile_read_failure_witness :
  let os := mkOS "clif.test" (inl "/home/tester") (fun dir file => dir +:+ "/" +:+ file)
              (inl 1%nat) (fun path => inr (errorString "no such file"))
              (fun name => "") decode_nothing decode_test_yaml (fun s => s) in
  let m := with_configFile "config.yaml" emptyMetadata in
  let c := mkConfiguration None (Some m) None None in
  unmarshalConfigFile os c WalkerB 3 (fields_of (zero WalkerB))
  = Some (c, fields_of (zero WalkerB),
          Some (InvalidInitConfigError ErrFileReadCoreConfig
                  (Some (errorString "no such file")) None),
          [EvReadFile (configFile m)])
  /\ Error (InvalidInitConfigError ErrFileReadCoreConfig
              (Some (errorString "no such file")) None)
     = "configuration error - " +:+ Error (errorString "no such file").
Proof.
  intros os m c.
  apply (unmarshalConfigFile_read_failure os c m WalkerB 3 (fields_of (zero WalkerB))
           (errorString "no such file")).
  - reflexivity.
  - discriminate.
  - reflexivity.
Defined.

(** X16.  With an empty file name nothing is read; with a file whose type
    is none of json, yaml and yml the file is read but no decoder runs.
    In both cases [unmarshalConfigFile] returns nil and leaves the core
    configuration and the caller's structure as they were. *)
Theorem unmarshalConfigFile_nothing_to_decode (os : OS) (c : Configuration)
    (m : configurationMetadata) (t : gtype) (i : nat) (vals : list gval) :
  Metadata c = Some m ->
  (configFile m = "" -> unmarshalConfigFile os c t i vals = Some (c, vals, None, []))
  /\ (forall bs,
        configFile m <> "" ->
        os_ReadFile os (configFile m) = inl bs ->
        configType os m <> "json" -> configType os m <> "yaml" ->
        configType os m <> "yml" ->
        unmarshalConfigFile os c t i vals
        = Some (c, vals, None, [EvReadFile (configFile m)])).
Proof.
  intros Hm. unfold unmarshalConfigFile. rewrite Hm. split.
  - intros ->. reflexivity.
  - intros bs Hfile Hread Hj Hy Hyml.
    destruct (String.eqb_spec (configFile m) ""); [contradiction |].
    rewrite Hread. cbv zeta.
    destruct (String.eqb_spec (configType os m) "json"); [contradiction |].
    destruct (String.eqb_spec (configType os m) "yaml"); [contradiction |].
    destruct (String.eqb_spec (configType os m) "yml"); [contradiction |].
    reflexivity.
Qed.

Lemma unmarshalConfigFile_nothing_to_decode_witness :
  let m := with_configFile "config.toml" emptyMetadata in
  let c := mkConfiguration None (Some m) None None in
  (configFile m = "" ->
   unmarshalConfigFile testOS c WalkerB 3 (fields_of (zero WalkerB))
   = Some (c, fields_of (zero WalkerB), None, []))
  /\ (forall bs,
        configFile m <> "" ->
        os_ReadFile testOS (configFile m) = inl bs ->
        configType testOS m <> "json" -> configType testOS m <> "yaml" ->
        configType testOS m <> "yml" ->
        unmarshalConfigFile testOS c WalkerB 3 (fields_of (zero WalkerB))
        = Some (c, fields_of (zero WalkerB), None, [EvReadFile (configFile m)])).
Proof.
  intros m c.
  apply (unmarshalConfigFile_nothing_to_decode testOS c m WalkerB 3
           (fields_of (zero WalkerB))).
  reflexivity.
Defined.

(** ** Growth of the registry *)

Lemma callbacks_for_absent (s : string) (regs : list (string * ConfigurationNotifyFunc)) :
  ~ In s (map fst regs) -> callbacks_for s regs = [].
Proof.
  induction regs as [| [k f] rest IH]; intros Hout; [reflexivity |].
  unfold callbacks_for. cbn [omap list_omap fst snd].
  destruct (String.eqb_spec k s) as [-> | Hne].
  - exfalso. apply Hout. left. reflexivity.
  - apply IH. intros Hin. apply Hout. right. exact Hin.
Qed.

(** X17.  Registrations only add: after any sequence of calls of
    [AddNotifyOnChange] the callbacks a setting had before are still
    registered for it, in their order and ahead of the new ones, and a
    setting that no call names has exactly what it had. *)
Theorem registrations_only_append (regs : list (string * ConfigurationNotifyFunc))
    (c : configurationData) (s : string) :
  (forall old, notifyFuncs c !! s = Some old ->
     notifyFuncs (register_all regs c) !! s = Some (old ++ callbacks_for s regs))
  /\ (notifyFuncs c !! s = None ->
      callbacks_for s regs <> [] ->
      notifyFuncs (register_all regs c) !! s = Some (callbacks_for s regs))
  /\ (~ In s (map fst regs) ->
      notifyFuncs (register_all regs c) !! s = notifyFuncs c !! s).
Proof.
  rewrite register_all_lookup. split; [| split].
  - intros old Hold. rewrite Hold. cbn [default].
    destruct (callbacks_for s regs); [rewrite app_nil_r |]; reflexivity.
  - intros Hnone Hsome. rewrite Hnone. cbn [default].
    destruct (callbacks_for s regs); [contradiction | reflexivity].
  - intros Hout. rewrite (callbacks_for_absent s regs Hout). reflexivity.
Qed.

(** ** Cases of the watcher *)

Lemma notify_range_no_close (setting value : string) (funcs : list ConfigurationNotifyFunc) :
  forall env, ~ In EvWatcherClose (snd (notify_range setting value funcs env)).
Proof.
  induction funcs as [| f rest IH]; intros env; [intros [] |].
  cbn [notify_range]. specialize (IH (nf_run f setting value env)).
  destruct (notify_range setting value rest (nf_run f setting value env)) as [env2 evs].
  cbn [snd] in *. intros [H | H]; [discriminate H | exact (IH H)].
Qed.

Lemma checkForEnvChange_range_no_close (entries : list (string * list ConfigurationNotifyFunc)) :
  forall env, ~ In EvWatcherClose (snd (checkForEnvChange_range entries env)).
Proof.
  induction entries as [| [setting funcs] rest IH]; intros env; [intros [] |].
  cbn [checkForEnvChange_range].
  pose proof (notify_range_no_close setting (env setting) funcs env) as Hn.
  destruct (notify_range setting (env setting) funcs env) as [env1 evs1].
  specialize (IH env1).
  destruct (checkForEnvChange_range rest env1) as [env2 evs2]. cbn [snd] in *.
  intros [H | [H | H]]; try discriminate H.
  apply in_app_or in H. destruct H as [H | H]; [exact (Hn H) | exact (IH H)].
Qed.

Lemma watch_select_continues (sel : selected) (env : Env) :
  snd (watch_select sel env) = continues sel.
Proof.
  destruct sel as [[] w name | [] msg | order |]; try reflexivity.
  cbn [watch_select]. destruct (checkForEnvChange order env). reflexivity.
Qed.

Lemma watch_select_no_close (sel : selected) (env : Env) :
  continues sel = true -> ~ In EvWatcherClose (snd (fst (watch_select sel env))).
Proof.
  destruct sel as [[] w name | [] msg | order |]; cbn [continues]; try discriminate; intros _.
  - cbn. destruct w; cbn; intros H; repeat (destruct H as [H | H]; [discriminate H |]);
      exact H.
  - cbn. intros [H | H]; [discriminate H | exact H].
  - cbn [watch_select]. unfold checkForEnvChange.
    pose proof (checkForEnvChange_range_no_close order env) as Hn.
    destruct (checkForEnvChange_range order env) as [env1 evs]. cbn [fst snd] in *.
    intros [H | H]; [discriminate H |].
    apply in_app_or in H. destruct H as [H | [H | []]]; [exact (Hn H) | discriminate H].
Qed.

Lemma watch_select_stop (sel : selected) (env : Env) :
  continues sel = false ->
  watch_select sel env
  = (env, match sel with SelDone => [EvWatcherClose] | _ => [] end, false).
Proof.
  destruct sel as [[] w name | [] msg | order |]; cbn [continues]; try discriminate;
    reflexivity.
Qed.

(** As long as the cases taken let the loop go on, the loop goes on with
    the cases that follow. *)
Lemma watch_loop_app (pre : list selected) :
  Forall (fun sel => continues sel = true) pre ->
  forall rest env,
    watch_loop (pre ++ rest) env
    = (fst (watch_loop rest (fst (watch_loop pre env))),
       snd (watch_loop pre env) ++ snd (watch_loop rest (fst (watch_loop pre env)))).
Proof.
  induction pre as [| sel pre IH]; intros Hpre rest env.
  - cbn. destruct (watch_loop rest env); reflexivity.
  - apply Forall_cons in Hpre. destruct Hpre as [Hsel Hpre].
    cbn [app watch_loop].
    pose proof (watch_select_continues sel env) as Hc. rewrite Hsel in Hc.
    destruct (watch_select sel env) as [[env1 evs1] continue]. cbn [snd] in Hc. subst continue.
    rewrite (IH Hpre rest env1).
    destruct (watch_loop pre env1) as [env2 evs2]. cbn [fst snd].
    rewrite app_assoc. reflexivity.
Qed.

Lemma watch_loop_no_close (pre : list selected) :
  Forall (fun sel => continues sel = true) pre ->
  forall env, ~ In EvWatcherClose (snd (watch_loop pre env)).
Proof.
  induction pre as [| sel pre IH]; intros Hpre env; [intros [] |].
  apply Forall_cons in Hpre. destruct Hpre as [Hsel Hpre].
  cbn [watch_loop].
  pose proof (watch_select_continues sel env) as Hc. rewrite Hsel in Hc.
  pose proof (watch_select_no_close sel env Hsel) as Hn.
  destruct (watch_select sel env) as [[env1 evs1] continue]. cbn [fst snd] in *.
  subst continue. specialize (IH Hpre env1).
  destruct (watch_loop pre env1) as [env2 evs2]. cbn [snd] in *.
  intros H. apply in_app_or in H. destruct H as [H | H]; [exact (Hn H) | exact (IH H)].
Qed.

Lemma watch_loop_quiet (sels : list selected) :
  Forall (fun sel => isTick sel = false) sels ->
  forall env,
    fst (watch_loop sels env) = env
    /\ forall s, notifications s (snd (watch_loop sels env)) = [].
Proof.
  induction sels as [| sel sels IH]; intros Hq env; [split; reflexivity |].
  apply Forall_cons in Hq. destruct Hq as [Hsel Hq]. specialize (IH Hq env).
  destruct IH as [IHenv IHn]. cbn [watch_loop].
  destruct sel as [[] w name | [] msg | order |]; try discriminate Hsel;
    cbn [watch_select]; try (split; reflexivity).
  - destruct (watch_loop sels env) as [env2 evs2]. cbn [fst snd] in *.
    split; [exact IHenv |]. intros s. rewrite notifications_app, IHn.
    destruct w; reflexivity.
  - destruct (watch_loop sels env) as [env2 evs2]. cbn [fst snd] in *.
    split; [exact IHenv |]. intros s. rewrite notifications_app, IHn. reflexivity.
Qed.

(** X18.  As long as the timer does not fire the watcher does nothing but
    print: file events (writes to the configuration file included) and
    watcher errors invoke no callback and leave the environment alone, with
    or without a wait group. *)
Theorem watch_without_tick_notifies_nobody (wg : option nat) (sels : list selected)
    (env : Env) :
  Forall (fun sel => isTick sel = false) sels ->
  fst (watch wg sels env) = env
  /\ forall s, notifications s (snd (watch wg sels env)) = [].
Proof.
  intros Hq. destruct (watch_loop_quiet sels Hq env) as [Henv Hn].
  unfold watch. destruct (watch_loop sels env) as [env1 evs]. cbn [fst snd] in *.
  destruct wg as [h |]; cbn [fst snd]; split; try assumption.
  intros s. change (EvWgAdd :: evs ++ [EvWgDone]) with ([EvWgAdd] ++ evs ++ [EvWgDone]).
  rewrite !notifications_app, Hn. reflexivity.
Qed.

Lemma watch_without_tick_notifies_nobody_witness :
  fst (watch (Some 1%nat)
         [SelEvent true true "config.yaml"; SelError true "overflow"; SelDone] test_env)
  = test_env
  /\ forall s,
       notifications s
         (snd (watch (Some 1%nat)
                 [SelEvent true true "config.yaml"; SelError true "overflow"; SelDone]
                 test_env)) = [].
Proof.
  apply (watch_without_tick_notifies_nobody (Some 1%nat)
           [SelEvent true true "config.yaml"; SelError true "overflow"; SelDone] test_env).
  repeat constructor.
Defined.

(** X19.  The watcher ends at the first case that returns (cancellation,
    or a closed channel of the file watcher): what is selected afterwards
    has no effect.  The file watcher is closed exactly when that case is
    the cancellation, so a closed channel ends the watcher without closing
    it; and with a wait group the watcher registers first and signals
    completion last, on every way out. *)
Theorem watch_ends_at_first_return (wg : option nat) (pre rest : list selected)
    (sel : selected) (env : Env) :
  Forall (fun s => continues s = true) pre ->
  continues sel = false ->
  watch wg (pre ++ sel :: rest) env = watch wg (pre ++ [sel]) env
  /\ (In EvWatcherClose (snd (watch wg (pre ++ sel :: rest) env)) <-> sel = SelDone)
  /\ (wg <> None ->
      head (snd (watch wg (pre ++ sel :: rest) env)) = Some EvWgAdd
      /\ last (snd (watch wg (pre ++ sel :: rest) env)) = Some EvWgDone).
Proof.
  intros Hpre Hsel.
  assert (Hloop : forall tl,
            watch_loop (pre ++ sel :: tl) env
            = (fst (watch_loop pre env),
               snd (watch_loop pre env)
               ++ match sel with SelDone => [EvWatcherClose] | _ => [] end)).
  { intros tl. rewrite (watch_loop_app pre Hpre). cbn [watch_loop].
    rewrite (watch_select_stop sel _ Hsel). reflexivity. }
  pose proof (watch_loop_no_close pre Hpre env) as Hn.
  unfold watch. rewrite (Hloop rest), (Hloop []).
  split; [reflexivity |]. split.
  - assert (Hin : In EvWatcherClose
                    (snd (watch_loop pre env)
                     ++ match sel with SelDone => [EvWatcherClose] | _ => [] end)
                  <-> sel = SelDone).
    { split.
      - intros H. apply in_app_or in H. destruct H as [H | H]; [contradiction |].
        destruct sel; try contradiction. reflexivity.
      - intros ->. apply in_or_app. right. left. reflexivity. }
    destruct wg as [h |]; cbn [snd]; [| exact Hin].
    rewrite <- Hin. split.
    + intros [H | H]; [discriminate H |].
      apply in_app_or in H. destruct H as [H | [H | []]]; [exact H | discriminate H].
    + intros H. right. apply in_or_app. left. exact H.
  - intros Hwg. destruct wg as [h |]; [| contradiction]. cbn [snd]. split; [reflexivity |].
    rewrite app_comm_cons. apply last_snoc.
Qed.

Lemma watch_ends_at_first_return_witness :
  watch (Some 1%nat)
    ([SelTick [("APP_LOGGER_LEVEL", [notifyA])]; SelEvent true false "config.yaml"]
     ++ SelError false "" :: [SelTick [("APP_LOGGER_LEVEL", [notifyA])]; SelDone]) test_env
  = watch (Some 1%nat)
      ([SelTick [("APP_LOGGER_LEVEL", [notifyA])]; SelEvent true false "config.yaml"] ++ [SelError false ""])
      test_env
  /\ (In EvWatcherClose
        (snd (watch (Some 1%nat)
                ([SelTick [("APP_LOGGER_LEVEL", [notifyA])]; SelEvent true false "config.yaml"]
                 ++ SelError false "" :: [SelTick [("APP_LOGGER_LEVEL", [notifyA])]; SelDone]) test_env))
      <-> SelError false "" = SelDone)
  /\ (Some 1%nat <> None ->
      head (snd (watch (Some 1%nat)
                   ([SelTick [("APP_LOGGER_LEVEL", [notifyA])]; SelEvent true false "config.yaml"]
                    ++ SelError false "" :: [SelTick [("APP_LOGGER_LEVEL", [notifyA])]; SelDone]) test_env))
      = Some EvWgAdd
      /\ last (snd (watch (Some 1%nat)
                      ([SelTick [("APP_LOGGER_LEVEL", [notifyA])]; SelEvent true false "config.yaml"]
                       ++ SelError false "" :: [SelTick [("APP_LOGGER_LEVEL", [notifyA])]; SelDone]) test_env))
         = Some EvWgDone).
Proof.
  apply (watch_ends_at_first_return (Some 1%nat)
           [SelTick [("APP_LOGGER_LEVEL", [notifyA])]; SelEvent true false "config.yaml"]
           [SelTick [("APP_LOGGER_LEVEL", [notifyA])]; SelDone] (SelError false "") test_env).
  - repeat constructor.
  - reflexivity.
Defined.

(** ** History and logger *)

Lemma History_add_drop (message : string) (messages : list string) :
  (length messages <= 1000)%nat ->
  History_add message messages
  = drop (length messages + 1 - 1000)%nat (messages ++ [message]).
Proof.
  intros Hlen. unfold History_add. cbv zeta.
  rewrite length_app. cbn [length].
  destruct (Nat.ltb_spec 1000 (length messages + 1)) as [Hfull | Hroom].
  - replace (length messages + 1 - 1000)%nat with 1%nat by lia.
    destruct (messages ++ [message]); reflexivity.
  - replace (length messages + 1 - 1000)%nat with 0%nat by lia. reflexivity.
Qed.

Lemma History_add_all_drop (new : list string) :
  forall messages,
    (length messages <= 1000)%nat ->
    History_add_all new messages
    = drop (length messages + length new - 1000)%nat (messages ++ new).
Proof.
  induction new as [| message rest IH]; intros messages Hlen.
  - cbn [History_add_all length]. rewrite app_nil_r.
    replace (length messages + 0 - 1000)%nat with 0%nat by lia. reflexivity.
  - cbn [History_add_all length].
    rewrite IH; rewrite History_add_drop by exact Hlen.
    + rewrite length_drop, length_app. cbn [length].
      rewrite <- drop_app_le by (rewrite length_app; cbn [length]; lia).
      rewrite drop_drop, <- app_assoc. cbn [app].
      f_equal. lia.
    + rewrite length_drop, length_app. cbn [length]. lia.
Qed.

(** X20.  A history that holds at most 1000 messages holds, after any
    number of calls of [add], the newest 1000 of all its messages in the
    order they were added (all of them while there are fewer), and so
    never more than 1000. *)
Theorem History_keeps_newest (new messages : list string) :
  (length messages <= 1000)%nat ->
  History_add_all new messages
  = drop (length messages + length new - 1000)%nat (messages ++ new)
  /\ (length (History_add_all new messages) <= 1000)%nat
  /\ (forall message, last (History_add_all (new ++ [message]) messages) = Some message).
Proof.
  intros Hlen. split; [apply History_add_all_drop, Hlen |]. split.
  - rewrite History_add_all_drop by exact Hlen.
    rewrite length_drop, length_app. lia.
  - intros message. rewrite History_add_all_drop by exact Hlen.
    rewrite length_app. cbn [length]. rewrite app_assoc.
    rewrite drop_app_le by (rewrite length_app; lia).
    apply last_snoc.
Qed.

Lemma History_keeps_newest_witness :
  History_add_all ["first"; "second"] full_history
  = drop (length full_history + length ["first"; "second"] - 1000)%nat
      (full_history ++ ["first"; "second"])
  /\ (length (History_add_all ["first"; "second"] full_history) <= 1000)%nat
  /\ (forall message,
        last (History_add_all (["first"; "second"] ++ [message]) full_history)
        = Some message).
Proof.
  apply (History_keeps_newest ["first"; "second"] full_history).
  apply Nat.leb_le. vm_compute. reflexivity.
Defined.

(** X21.  A logger without a history, which is what [NewLogger] returns,
    panics in [Debug], [Info], [Warn] and [Error], and in [Trace] when its
    debug flag is set; only [Trace] with the flag unset returns, doing
    nothing. *)
Theorem Logger_without_history_panics (colors : Colors) (lv : log_level) (text : string)
    (l : Logger_) :
  history l = None ->
  (lv = LTrace /\ debug l = false -> Logger_log colors lv text l = Some l)
  /\ (lv <> LTrace \/ debug l = true -> Logger_log colors lv text l = None)
  /\ history (fst NewLogger) = None /\ debug (fst NewLogger) = false
  /\ snd NewLogger = None.
Proof.
  intros Hnil. split; [| split; [| repeat split]].
  - intros [-> Hd]. cbn [Logger_log]. unfold Logger_Trace. rewrite Hd. reflexivity.
  - intros Hor.
    destruct lv; cbn [Logger_log];
      unfold Logger_Trace, Logger_Debug, Logger_Info, Logger_Warn, Logger_Error,
        Logger_Notify, Logger_history_add;
      rewrite Hnil; destruct (debug l) eqn:Hd; try reflexivity.
    destruct Hor as [H | H]; [contradiction | discriminate H].
Qed.

Lemma Logger_without_history_panics_witness :
  (LInfo = LTrace /\ debug (fst NewLogger) = false ->
   Logger_log plain_colors LInfo "started" (fst NewLogger) = Some (fst NewLogger))
  /\ (LInfo <> LTrace \/ debug (fst NewLogger) = true ->
      Logger_log plain_colors LInfo "started" (fst NewLogger) = None)
  /\ history (fst NewLogger) = None /\ debug (fst NewLogger) = false
  /\ snd NewLogger = None.
Proof.
  apply (Logger_without_history_panics plain_colors LInfo "started" (fst NewLogger)).
  reflexivity.
Defined.

(** X22.  A logger with a history of at most 1000 messages returns from
    every level method, keeps its debug flag and a history of at most 1000
    messages; [Trace] with the debug flag unset leaves the history as it
    is, and every other call puts, as the newest message, a message that
    contains the text and ends with the reset and clear-to-end
    sequences. *)
Theorem Logger_with_history_records (colors : Colors) (lv : log_level) (text : string)
    (l : Logger_) (messages : list string) :
  history l = Some messages ->
  (length messages <= 1000)%nat ->
  exists messages',
    Logger_log colors lv text l = Some (mkLoggerState (Some messages') (debug l))
    /\ (length messages' <= 1000)%nat
    /\ (lv = LTrace /\ debug l = false -> messages' = messages)
    /\ (lv <> LTrace \/ debug l = true ->
        exists before,
          last messages'
          = Some (before +:+ text +:+ color_Reset colors +:+ screen_ClearEnd)).
Proof.
  intros Hh Hlen.
  assert (Hadd : forall before,
            exists messages',
              Logger_history_add
                (before +:+ text +:+ color_Reset colors +:+ screen_ClearEnd) l
              = Some (mkLoggerState (Some messages') (debug l))
              /\ (length messages' <= 1000)%nat
              /\ last messages'
                 = Some (before +:+ text +:+ color_Reset colors +:+ screen_ClearEnd)).
  { intros before. unfold Logger_history_add. rewrite Hh. eexists.
    split; [reflexivity |].
    destruct (History_add_all_drop
                [before +:+ text +:+ color_Reset colors +:+ screen_ClearEnd]
                messages Hlen) as [].
    cbn [History_add_all]. rewrite History_add_drop by exact Hlen. split.
    - rewrite length_drop, length_app. cbn [length]. lia.
    - rewrite drop_app_le by lia. apply last_snoc. }
  assert (Hassoc : forall a b rest : string, a +:+ b +:+ rest = (a +:+ b) +:+ rest).
  { intros a b rest. induction a as [| x a IH]; [reflexivity |].
    change (String x (a +:+ b +:+ rest) = String x ((a +:+ b) +:+ rest)).
    f_equal. exact IH. }
  assert (Hnotify : forall colour,
            exists messages',
              Logger_Notify colors text colour l
              = Some (mkLoggerState (Some messages') (debug l))
              /\ (length messages' <= 1000)%nat
              /\ exists before,
                   last messages'
                   = Some (before +:+ text +:+ color_Reset colors +:+ screen_ClearEnd)).
  { intros colour. unfold Logger_Notify.
    rewrite (Hassoc screen_ClearLine colour).
    destruct (Hadd (screen_ClearLine +:+ colour)) as (ms & H1 & H2 & H3).
    exists ms. split; [exact H1 |]. split; [exact H2 |]. eexists. exact H3. }
  assert (Hplain : forall colour,
            exists messages',
              Logger_history_add
                (colour +:+ text +:+ color_Reset colors +:+ screen_ClearEnd) l
              = Some (mkLoggerState (Some messages') (debug l))
              /\ (length messages' <= 1000)%nat
              /\ exists before,
                   last messages'
                   = Some (before +:+ text +:+ color_Reset colors +:+ screen_ClearEnd)).
  { intros colour. destruct (Hadd colour) as (ms & H1 & H2 & H3).
    exists ms. split; [exact H1 |]. split; [exact H2 |]. eexists. exact H3. }
  destruct lv; cbn [Logger_log];
    unfold Logger_Trace, Logger_Debug, Logger_Info, Logger_Warn, Logger_Error.
  - destruct (debug l) eqn:Hd.
    + destruct (Hplain (color_White colors)) as (ms & H1 & H2 & H3).
      exists ms. rewrite ?Hd in H1. split; [exact H1 |]. split; [exact H2 |].
      split; [intros [_ H]; discriminate H | intros _; exact H3].
    + exists messages. split; [destruct l; cbn in *; congruence |].
      split; [exact Hlen |]. split; [reflexivity |].
      intros [H | H]; [contradiction | discriminate H].
  - destruct (debug l) eqn:Hd.
    + destruct (Hnotify (color_White colors)) as (ms & H1 & H2 & H3).
      exists ms. rewrite ?Hd in H1. split; [exact H1 |]. split; [exact H2 |].
      split; [intros [H _]; discriminate H | intros _; exact H3].
    + destruct (Hplain (color_White colors)) as (ms & H1 & H2 & H3).
      exists ms. rewrite ?Hd in H1. split; [exact H1 |]. split; [exact H2 |].
      split; [intros [H _]; discriminate H | intros _; exact H3].
  - destruct (Hnotify (color_BrightWhite colors)) as (ms & H1 & H2 & H3).
    exists ms. split; [exact H1 |]. split; [exact H2 |].
    split; [intros [H _]; discriminate H | intros _; exact H3].
  - destruct (Hnotify (color_BrightYellow colors)) as (ms & H1 & H2 & H3).
    exists ms. split; [exact H1 |]. split; [exact H2 |].
    split; [intros [H _]; discriminate H | intros _; exact H3].
  - destruct (Hnotify (color_BrightRed colors)) as (ms & H1 & H2 & H3).
    exists ms. split; [exact H1 |]. split; [exact H2 |].
    split; [intros [H _]; discriminate H | intros _; exact H3].
Qed.

Lemma Logger_with_history_records_witness :
  exists messages',
    Logger_log plain_colors LWarn "disk is full" (mkLoggerState (Some full_history) true)
    = Some (mkLoggerState (Some messages') (debug (mkLoggerState (Some full_history) true)))
    /\ (length messages' <= 1000)%nat
    /\ (LWarn = LTrace /\ debug (mkLoggerState (Some full_history) true) = false ->
        messages' = full_history)
    /\ (LWarn <> LTrace \/ debug (mkLoggerState (Some full_history) true) = true ->
        exists before,
          last messages'
          = Some (before +:+ "disk is full" +:+ color_Reset plain_colors
                  +:+ screen_ClearEnd)).
Proof.
  apply (Logger_with_history_records plain_colors LWarn "disk is full"
           (mkLoggerState (Some full_history) true) full_history).
  - reflexivity.
  - apply Nat.leb_le. vm_compute. reflexivity.
Defined.

(** ** Numbers of a JSON file *)

Lemma toInt_as_json (key : string) (v : dyn) :
  exact_in_float64 v -> toInt key (as_json v) = toInt key v.
Proof.
  destruct v; try reflexivity. cbn [exact_in_float64 as_json toInt]. intros Hn.
  unfold float64_of_Z, float64_to_int. cbn [Z.leb Z.compare]. rewrite Z.mul_1_r.
  assert (Hrange : (minInt64 <=? i) && (i <=? maxInt64) = true).
  { apply andb_true_iff. unfold minInt64, maxInt64.
    split; apply Z.leb_le; lia. }
  cbv zeta. rewrite Hrange. reflexivity.
Qed.

Lemma toBool_as_json (key : string) (v : dyn) : toBool key (as_json v) = toBool key v.
Proof. destruct v; reflexivity. Qed.

Lemma toString_as_json (key : string) (v : dyn) : toString key (as_json v) = toString key v.
Proof. destruct v; reflexivity. Qed.

(** X23.  A section decodes to the same result, error included, whether
    its whole numbers arrive as int (from YAML) or as float64 (from JSON),
    for the numbers a float64 holds exactly. *)
Theorem sections_decode_alike_from_json (values : list (string * dyn)) :
  Forall (fun kv => exact_in_float64 (snd kv)) values ->
  newConsoleConfiguration (entries_as_json values) = newConsoleConfiguration values
  /\ newLoggerConfiguration (entries_as_json values) = newLoggerConfiguration values.
Proof.
  intros Hexact. unfold newConsoleConfiguration, newLoggerConfiguration. split.
  - generalize (mkConsoleData 0 0).
    induction Hexact as [| [k v] rest Hv Hrest IH]; intros c; [reflexivity |].
    cbn [entries_as_json map fst snd newConsoleConfiguration_range] in *.
    rewrite (toInt_as_json k v Hv).
    destruct (String.eqb k "width").
    + destruct (toInt k v) as [w [e |]]; [reflexivity | apply IH].
    + destruct (String.eqb k "height").
      * destruct (toInt k v) as [h [e |]]; [reflexivity | apply IH].
      * apply IH.
  - generalize (mkLoggerData "" false).
    induction Hexact as [| [k v] rest Hv Hrest IH]; intros c; [reflexivity |].
    cbn [entries_as_json map fst snd newLoggerConfiguration_range] in *.
    rewrite (toString_as_json k v), (toBool_as_json k v).
    destruct (String.eqb k "level").
    + destruct (toString k v) as [lv [e |]]; [reflexivity | apply IH].
    + destruct (String.eqb k "colorized").
      * destruct (toBool k v) as [cz [e |]]; [reflexivity | apply IH].
      * apply IH.
Qed.

Lemma sections_decode_alike_from_json_witness :
  newConsoleConfiguration
    (entries_as_json [("width", DInt 132); ("height", DInt (-4)); ("title", DString "x")])
  = newConsoleConfiguration [("width", DInt 132); ("height", DInt (-4)); ("title", DString "x")]
  /\ newLoggerConfiguration
       (entries_as_json [("width", DInt 132); ("height", DInt (-4)); ("title", DString "x")])
     = newLoggerConfiguration
         [("width", DInt 132); ("height", DInt (-4)); ("title", DString "x")].
Proof.
  apply (sections_decode_alike_from_json
           [("width", DInt 132); ("height", DInt (-4)); ("title", DString "x")]).
  repeat constructor; cbn; lia.
Defined.

(** ** Text of the package's error *)

(** X24.  The text of every [InvalidInitConfigError] starts with
    [configuration error - ].  For the four codes that wrap another error
    the rest of the text is the text of that error; for every other code
    the text does not depend on the wrapped error. *)
Theorem Error_text_shape (code : string) (err : option error) (ty : option gtype) :
  (exists rest,
     Error (InvalidInitConfigError code err ty) = "configuration error - " +:+ rest)
  /\ (isUnmarshalCode code = true ->
      forall e, Error (InvalidInitConfigError code (Some e) ty)
                = "configuration error - " +:+ Error e)
  /\ (isUnmarshalCode code = false ->
      forall err', Error (InvalidInitConfigError code err' ty)
                   = Error (InvalidInitConfigError code err ty)).
Proof.
  split; [| split].
  - cbn [Error].
    destruct (String.eqb code ErrMissingCoreConfig); [eexists; reflexivity |].
    destruct (String.eqb code ErrAnonymousCoreConfig); [eexists; reflexivity |].
    destruct (String.eqb code ErrNonExportedCoreConfig); [eexists; reflexivity |].
    destruct (isUnmarshalCode code); [eexists; reflexivity |].
    destruct ty as [t |]; [| eexists; reflexivity].
    destruct (gtype_eqb t configurationType); [eexists; reflexivity |].
    destruct (negb (Kind_eqb (TKind t) KPointer)); eexists; reflexivity.
  - intros Hcode e. unfold isUnmarshalCode in Hcode.
    repeat (apply orb_true_iff in Hcode; destruct Hcode as [Hcode | Hcode]);
      apply String.eqb_eq in Hcode; subst code; reflexivity.
  - intros Hcode err'. cbn [Error]. rewrite Hcode. reflexivity.
Qed.

(** ** Failures after the anchor is set *)

(** [InitConfig] on a structure whose first field that converts to the core
    configuration (by value or by pointer) is an exported, named field of
    the pointer type: the loop reaches the branch that sets the anchor. *)
Lemma InitConfig_reaches_anchor (os : OS) (options : list ConfigurationOption)
    (name : string) (fields : list StructField) (vals : list gval) (i : nat)
    (ft : StructField) :
  fields !! i = Some ft ->
  (forall j ft', (j < i)%nat -> fields !! j = Some ft' ->
     CanConvert (FType ft') configurationTypePtr = false
     /\ CanConvert (FType ft') configurationType = false) ->
  FType ft = configurationTypePtr ->
  Anonymous ft = false ->
  IsExported ft = true ->
  InitConfig os (addressOf (TStruct name fields) (VStruct vals)) options
  = InitConfig_finish (TStruct name fields)
      (InitConfig_anchor os options (TStruct name fields) vals i).
Proof.
  intros Hi Hbefore Hft Hanon Hexp. unfold addressOf. cbn [InitConfig].
  rewrite (InitConfig_range_first os options (TStruct name fields) vals fields
             0 i ft Hi Hbefore).
  cbn [InitConfig_range Nat.add]. rewrite Hft, Hanon, Hexp. reflexivity.
Qed.

(** X25.  When the current user cannot be looked up, [InitConfig] returns
    the error of [user.Current] as it is, after the anchor field has been
    set: the caller's structure then points to a core configuration that
    has no metadata, no registry and no sections.  No option has been
    applied and no file read. *)
Theorem InitConfig_user_lookup_failure (os : OS) (options : list ConfigurationOption)
    (name : string) (fields : list StructField) (vals : list gval) (i : nat)
    (ft : StructField) (e : error) :
  fields !! i = Some ft ->
  (forall j ft', (j < i)%nat -> fields !! j = Some ft' ->
     CanConvert (FType ft') configurationTypePtr = false
     /\ CanConvert (FType ft') configurationType = false) ->
  FType ft = configurationTypePtr ->
  Anonymous ft = false ->
  IsExported ft = true ->
  user_Current os = inr e ->
  InitConfig os (addressOf (TStruct name fields) (VStruct vals)) options
  = mkInit (RetErr e)
      (addressOf (TStruct name fields) (VStruct (plug i emptyConfiguration vals)))
      [EvSetAnchor i; EvUserCurrent].
Proof.
  intros Hi Hbefore Hft Hanon Hexp Hu.
  rewrite (InitConfig_reaches_anchor os options name fields vals i ft Hi Hbefore Hft Hanon Hexp).
  unfold InitConfig_anchor, setMetadataDefaults. rewrite Hu. reflexivity.
Qed.

(** X26.  When the file watcher cannot be created (watching not switched
    off, options of the package), [InitConfig] returns the error of
    [fsnotify.NewWatcher] as it is.  The anchor then points to a core
    configuration with the metadata the options produced and a nil
    watcher; the watcher goroutine is not started and no file is read. *)
Theorem InitConfig_watcher_creation_failure (os : OS) (kinds : list option_kind)
    (name : string) (fields : list StructField) (vals : list gval) (i : nat)
    (ft : StructField) (home : string) (e : error) :
  fields !! i = Some ft ->
  (forall j ft', (j < i)%nat -> fields !! j = Some ft' ->
     CanConvert (FType ft') configurationTypePtr = false
     /\ CanConvert (FType ft') configurationType = false) ->
  FType ft = configurationTypePtr ->
  Anonymous ft = false ->
  IsExported ft = true ->
  user_Current os = inl home ->
  existsb isNoWatch kinds = false ->
  fsnotify_NewWatcher os = inr e ->
  InitConfig os (addressOf (TStruct name fields) (VStruct vals)) (map option_of kinds)
  = mkInit (RetErr e)
      (addressOf (TStruct name fields)
         (VStruct (plug i
            (mkConfiguration (Some (mkData ∅))
               (Some (with_watcher None (options_metadata kinds (default_metadata os home))))
               None None) vals)))
      ([EvSetAnchor i; EvUserCurrent]
       ++ map EvOption (seq 0 (length kinds)) ++ [EvNewWatcher]).
Proof.
  intros Hi Hbefore Hft Hanon Hexp Hu Hwatch Hnew.
  rewrite (InitConfig_reaches_anchor os (map option_of kinds) name fields vals i ft
             Hi Hbefore Hft Hanon Hexp).
  unfold InitConfig_anchor. rewrite (setMetadataDefaults_empty os home Hu).
  cbv beta iota zeta.
  rewrite (newConfiguration_kinds os kinds
             (mkConfiguration None (Some (default_metadata os home)) None None)
             (default_metadata os home) eq_refl).
  cbn [options_metadata watch_ default_metadata andb]. rewrite Hwatch. cbn [negb].
  rewrite Hnew. reflexivity.
Qed.

Lemma InitConfig_user_lookup_failure_witness :
  InitConfig noUserOS (addressOf configDPtr (zero configDPtr)) test_options
  = mkInit (RetErr (errorString "user: Current requires cgo"))
      (addressOf configDPtr
         (VStruct (plug 1 emptyConfiguration (fields_of (zero configDPtr)))))
      [EvSetAnchor 1; EvUserCurrent].
Proof.
  apply (InitConfig_user_lookup_failure noUserOS test_options "clif.configDPtr"
           [ mkField "name" clifPkg false stringType;
             mkField "Core" "" false configurationTypePtr ]
           (fields_of (zero configDPtr)) 1%nat
           (mkField "Core" "" false configurationTypePtr)
           (errorString "user: Current requires cgo")).
  - reflexivity.
  - intros j ft' Hj Hlook. destruct j as [| j]; [| lia].
    inversion Hlook; subst ft'. split; reflexivity.
  - reflexivity.
  - reflexivity.
  - reflexivity.
  - reflexivity.
Defined.

Lemma InitConfig_watcher_creation_failure_witness :
  InitConfig noWatcherOS (addressOf configDPtr (zero configDPtr))
    (map option_of [OptAppName "app"; OptNoLoad])
  = mkInit (RetErr (errorString "too many open files"))
      (addressOf configDPtr
         (VStruct (plug 1
            (mkConfiguration (Some (mkData ∅))
               (Some (with_watcher None
                        (options_metadata [OptAppName "app"; OptNoLoad]
                           (default_metadata noWatcherOS "/home/tester"))))
               None None) (fields_of (zero configDPtr)))))
      ([EvSetAnchor 1; EvUserCurrent]
       ++ map EvOption (seq 0 (length [OptAppName "app"; OptNoLoad])) ++ [EvNewWatcher]).
Proof.
  apply (InitConfig_watcher_creation_failure noWatcherOS [OptAppName "app"; OptNoLoad]
           "clif.configDPtr"
           [ mkField "name" clifPkg false stringType;
             mkField "Core" "" false configurationTypePtr ]
           (fields_of (zero configDPtr)) 1%nat
           (mkField "Core" "" false configurationTypePtr)
           "/home/tester" (errorString "too many open files")).
  - reflexivity.
  - intros j ft' Hj Hlook. destruct j as [| j]; [| lia].
    inversion Hlook; subst ft'. split; reflexivity.
  - reflexivity.
  - reflexivity.
  - reflexivity.
  - reflexivity.
  - reflexivity.
  - reflexivity.
Defined.

(** ** What the walker leaves alone *)

Lemma walk_range_unvisited
    (walk : gtype -> gval -> bool -> Z -> string -> list processFunc -> result gval)
    (addressable : bool) (level : Z) (key : string) (fs : list processFunc)
    (fields : list StructField) :
  forall vals vals' err,
    walk_range walk addressable level key fs fields vals = Returned vals' err ->
    length vals' = length vals
    /\ forall i ft, fields !! i = Some ft -> visited ft = false -> vals' !! i = vals !! i.
Proof.
  induction fields as [| ft0 fields IH]; intros vals vals' err Hrun.
  - destruct vals; [| discriminate Hrun]. inversion Hrun; subst.
    split; [reflexivity |]. intros i ft Hi. destruct i; discriminate Hi.
  - destruct vals as [| fv0 vals]; [discriminate Hrun |].
    cbn [walk_range] in Hrun.
    destruct (walk_field walk addressable level key fs ft0 fv0) as [fv0' [e |] |] eqn:Hround;
      try discriminate Hrun.
    + inversion Hrun; subst. split; [reflexivity |].
      intros i ft Hi Hv. destruct i as [| i]; [| reflexivity].
      inversion Hi; subst ft0.
      rewrite (walk_field_unvisited walk addressable level key fs ft fv0 Hv) in Hround.
      discriminate Hround.
    + destruct (walk_range walk addressable level key fs fields vals) as [vals'' e |] eqn:Hrest;
        [| discriminate Hrun].
      inversion Hrun; subst. destruct (IH vals vals'' err Hrest) as [Hlen Hsame].
      split; [cbn [length]; rewrite Hlen; reflexivity |].
      intros i ft Hi Hv. destruct i as [| i].
      * inversion Hi; subst ft0.
        rewrite (walk_field_unvisited walk addressable level key fs ft fv0 Hv) in Hround.
        inversion Hround; subst. reflexivity.
      * exact (Hsame i ft Hi Hv).
Qed.

(** X27.  Whenever [walkStructure] returns from a pointer to a structure,
    with or without an error, the structure has as many fields as before
    and every field the walker does not look at (unexported, and not
    convertible to the pointer to the core configuration) holds what it
    held. *)
Theorem walk_leaves_unexported_fields (name : string) (fields : list StructField)
    (vals : list gval) (level : Z) (key : string) (fs : list processFunc)
    (s' : gval) (err : option error) :
  walkStructure (TPtr (TStruct name fields)) (VPtr (Some (VStruct vals))) level key fs
  = Returned s' err ->
  exists vals',
    s' = VPtr (Some (VStruct vals'))
    /\ length vals' = length vals
    /\ forall i ft,
         fields !! i = Some ft ->
         IsExported ft = false ->
         CanConvert (FType ft) configurationTypePtr = false ->
         vals' !! i = vals !! i.
Proof.
  cbn [walkStructure walkFields]. intros Hrun.
  destruct (walk_range walkFields true level key fs fields vals) as [vals' e |] eqn:Hloop;
    [| discriminate Hrun].
  inversion Hrun; subst. exists vals'. split; [reflexivity |].
  destruct (walk_range_unvisited _ _ _ _ _ _ _ _ _ Hloop) as [Hlen Hsame].
  split; [exact Hlen |].
  intros i ft Hi Hexp Hconv. apply (Hsame i ft Hi).
  unfold visited. rewrite Hexp, Hconv. reflexivity.
Qed.

Lemma walk_leaves_unexported_fields_witness :
  exists s' vals',
    walkStructure (TPtr WalkerA) (VPtr (Some walkerA_value)) 0 "" [refuseNumbers]
    = Returned s' (Some (errorString "no provider for Number"))
    /\ s' = VPtr (Some (VStruct vals'))
    /\ length vals' = length (fields_of walkerA_value)
    /\ forall i ft,
         fields_of_type WalkerA !! i = Some ft ->
         IsExported ft = false ->
         CanConvert (FType ft) configurationTypePtr = false ->
         vals' !! i = fields_of walkerA_value !! i.
Proof.
  assert (Hrun : exists s',
             walkStructure (TPtr WalkerA) (VPtr (Some walkerA_value)) 0 "" [refuseNumbers]
             = Returned s' (Some (errorString "no provider for Number"))).
  { vm_compute. eexists. reflexivity. }
  destruct Hrun as [s' Hrun].
  destruct (walk_leaves_unexported_fields "clif.WalkerA" (fields_of_type WalkerA)
              (fields_of walkerA_value) 0 "" [refuseNumbers] s' _ Hrun)
    as (vals' & H1 & H2 & H3).
  exists s', vals'. repeat split; assumption.
Defined.

(** ** The walker after an error *)

Lemma walk_range_stops
    (walk : gtype -> gval -> bool -> Z -> string -> list processFunc -> result gval)
    (addressable : bool) (level : Z) (key : string) (fs : list processFunc)
    (ft : StructField) (fv fv' : gval) (e : error) (post : list StructField)
    (vpost : list gval) (pre : list StructField) :
  walk_field walk addressable level key fs ft fv = Returned fv' (Some e) ->
  forall vpre vpre',
    walk_range walk addressable level key fs pre vpre = Returned vpre' None ->
    walk_range walk addressable level key fs (pre ++ ft :: post) (vpre ++ fv :: vpost)
    = Returned (vpre' ++ fv' :: vpost) (Some e).
Proof.
  intros Hround. induction pre as [| ft0 pre IH]; intros vpre vpre' Hpre.
  - destruct vpre; [| discriminate Hpre]. inversion Hpre; subst.
    cbn [app walk_range]. rewrite Hround. reflexivity.
  - destruct vpre as [| fv0 vpre]; [discriminate Hpre |].
    cbn [app walk_range] in *.
    destruct (walk_field walk addressable level key fs ft0 fv0) as [fv0' [e0 |] |];
      try discriminate Hpre.
    destruct (walk_range walk addressable level key fs pre vpre) as [vals'' e0 |] eqn:Hrest;
      [| discriminate Hpre].
    inversion Hpre; subst. rewrite (IH vpre vals'' Hrest). reflexivity.
Qed.

(** X28.  The walk ends at the first field whose round returns an error:
    when the walk over the fields before it returns nil and the walk over
    that field alone returns the error, the walk over the whole structure
    returns that error, with the fields before and the field itself as
    those walks left them and every field after it untouched (a nil
    pointer among them stays nil). *)
Theorem walk_stops_at_first_error (name : string) (pre post : list StructField)
    (ft : StructField) (vpre vpre' vpost : list gval) (fv fv' : gval)
    (addressable : bool) (level : Z) (key : string) (fs : list processFunc) (e : error) :
  walkFields (TStruct name pre) (VStruct vpre) addressable level key fs
  = Returned (VStruct vpre') None ->
  walkFields (TStruct name [ft]) (VStruct [fv]) addressable level key fs
  = Returned (VStruct [fv']) (Some e) ->
  walkFields (TStruct name (pre ++ ft :: post)) (VStruct (vpre ++ fv :: vpost))
    addressable level key fs
  = Returned (VStruct (vpre' ++ fv' :: vpost)) (Some e).
Proof.
  cbn [walkFields]. intros Hpre Hone.
  destruct (walk_range walkFields addressable level key fs pre vpre) as [x [e0 |] |] eqn:Hp;
    try discriminate Hpre.
  inversion Hpre; subst x.
  cbn [walk_range] in Hone.
  destruct (walk_field walkFields addressable level key fs ft fv) as [y [e1 |] |] eqn:Hf;
    try discriminate Hone.
  inversion Hone; subst.
  rewrite (walk_range_stops walkFields addressable level key fs ft fv fv' e post vpost pre
             Hf vpre vpre' Hp).
  reflexivity.
Qed.

Lemma walk_stops_at_first_error_witness :
  walkFields
    (TStruct "clif.sample"
       ([mkField "External" "" false stringType]
        ++ mkField "Number" "" false intType
        :: [mkField "Next" "" false (TPtr WalkerC)]))
    (VStruct ([VLeaf (DString "kept")] ++ VLeaf (DInt 7) :: [VPtr None]))
    true 0 "" [refuseNumbers]
  = Returned (VStruct ([VLeaf (DString "kept")] ++ VLeaf (DInt 7) :: [VPtr None]))
      (Some (errorString "no provider for Number")).
Proof.
  apply (walk_stops_at_first_error "clif.sample"
           [mkField "External" "" false stringType]
           [mkField "Next" "" false (TPtr WalkerC)]
           (mkField "Number" "" false intType)
           [VLeaf (DString "kept")] [VLeaf (DString "kept")] [VPtr None]
           (VLeaf (DInt 7)) (VLeaf (DInt 7)) true 0 "" [refuseNumbers]
           (errorString "no provider for Number")).
  - reflexivity.
  - reflexivity.
Defined.
